(** * kong-ingress-controller: the reconciliation engine, embedded and verified

    The controller translates Kubernetes ingresses into "APIs" of a Kong
    gateway.  The repository holds three generations of [controller.go]:

    - the _simple_ form, where an ingress owns the single API
      [name.namespace] (module [Simple]);
    - the _composite_ form, where every (rule, path) pair of an ingress owns
      the API [host~adler32(path)~namespace], in its first edition
      (module [CompositeB]) and in the edition with certificate support that
      also manages [strip_uri] (module [Composite]).

    Go values are modelled as they are written: strings are byte strings,
    [map[string]T] is a [gmap string T], a nil-able pointer is an [option],
    an [error] result is an [option error] ([None] is [nil]), and a run-time
    panic (nil dereference, index out of range) is an explicit outcome.
    Calls to the gateway go through an abstract client and are recorded in a
    call log, so that statements about "which requests were issued" are
    statements about that log. *)

From Stdlib Require Import ZArith NArith String Ascii List Bool Lia.
From stdpp Require Import base option gmap strings list.

Local Open Scope string_scope.
Local Open Scope list_scope.
Local Open Scope N_scope.

(** ** Go run-time library *)

Module Go.

(** *** [hash/adler32]

    [adler32.Checksum] is the Adler-32 checksum of RFC 1950: two sums
    modulo 65521, started at 1 and 0, packed as [s2<<16 | s1]. *)

Definition adler32_mod : N := 65521.

Definition adler32_step (d : N * N) (x : ascii) : N * N :=
  let s1 := (d.1 + N_of_ascii x) mod adler32_mod in
  let s2 := (d.2 + s1) mod adler32_mod in
  (s1, s2).

Definition adler32_update (d : N * N) (p : list ascii) : N * N :=
  fold_left adler32_step p d.

Definition adler32_Checksum (data : string) : N :=
  let d := adler32_update (1, 0) (list_ascii_of_string data) in
  N.lor (N.shiftl d.2 16) d.1.

(** *** [strconv.FormatUint(u, 16)]

    The power-of-two branch of [formatBits]: digits are produced from the
    least significant end, [u >>= 4] while [u >= 16], then the last one.
    A [uint64] has at most sixteen hexadecimal digits. *)

Definition digits : string := "0123456789abcdefghijklmnopqrstuvwxyz".

Definition digit (d : N) : ascii :=
  match String.get (N.to_nat d) digits with
  | Some c => c
  | None => "0"%char
  end.

Fixpoint formatBits16 (fuel : nat) (u : N) (a : string) : string :=
  match fuel with
  | O => a
  | S fuel' =>
      if 16 <=? u
      then formatBits16 fuel' (N.shiftr u 4) (String (digit (N.land u 15)) a)
      else String (digit u) a
  end.

Definition FormatUint16 (u : N) : string := formatBits16 16 u "".

(** *** [strconv.Itoa] *)

Fixpoint formatBits10 (fuel : nat) (u : N) (a : string) : string :=
  match fuel with
  | O => a
  | S fuel' =>
      if 10 <=? u
      then formatBits10 fuel' (u / 10) (String (digit (u mod 10)) a)
      else String (digit u) a
  end.

Definition Itoa (i : Z) : string :=
  if (i <? 0)%Z
  then String "-"%char (formatBits10 20 (Z.to_N (- i)) "")
  else formatBits10 20 (Z.to_N i) "".

(** *** Reading a hexadecimal numeral back (used to state what
    [FormatUint16] prints) *)

Definition hexval (c : ascii) : option N :=
  let n := N_of_ascii c in
  if (48 <=? n) && (n <=? 57) then Some (n - 48)
  else if (97 <=? n) && (n <=? 102) then Some (n - 87)
  else None.

Definition is_lower_hex (c : ascii) : bool :=
  match hexval c with Some _ => true | None => false end.

Fixpoint parseHexFrom (acc : N) (s : string) : option N :=
  match s with
  | EmptyString => Some acc
  | String c s' =>
      match hexval c with
      | Some d => parseHexFrom (acc * 16 + d) s'
      | None => None
      end
  end.

Definition parseHex (s : string) : option N :=
  match s with
  | EmptyString => None
  | _ => parseHexFrom 0 s
  end.

(** *** Errors: [errors.New], [errors.Wrapf] and what a client reports *)

Inductive error : Type :=
| ErrorNew (msg : string)
| ErrorWrapf (cause : error) (msg : string)
| ErrorHTTP (status : Z)          (* a non-2xx answer of the gateway *)
| ErrorTransport (msg : string).  (* no answer at all *)

(** *** Outcome of running Go code: a value, or a run-time panic *)

Inductive outcome (A : Type) : Type :=
| Done (a : A)
| Panic.
Arguments Done {A} a.
Arguments Panic {A}.

Definition outcome_bind {A B} (o : outcome A) (k : A -> outcome B) : outcome B :=
  match o with
  | Done a => k a
  | Panic => Panic
  end.

(** [l[i]]: an index out of range panics. *)
Definition index {A} (l : list A) (i : nat) : outcome A :=
  match l !! i with
  | Some a => Done a
  | None => Panic
  end.

(** [*p], [p.f]: a nil pointer panics. *)
Definition load {A} (p : option A) : outcome A :=
  match p with
  | Some a => Done a
  | None => Panic
  end.

(** [m[k]] on a [map[string]bool]: a missing key reads as [false]. *)
Definition mapget (m : gmap string bool) (k : string) : bool :=
  match m !! k with
  | Some b => b
  | None => false
  end.

End Go.
Import Go.

(** ** Kubernetes objects ([k8s.io/client-go/pkg/apis/extensions/v1beta1]) *)

Module K8s.

(** [intstr.IntOrString] and its [String()] method. *)
Inductive IntOrString : Type :=
| FromInt (IntVal : Z)
| FromString (StrVal : string).

Definition IntOrString_String (p : IntOrString) : string :=
  match p with
  | FromString s => s
  | FromInt i => Itoa i
  end.

Record IngressBackend : Type := mkIngressBackend
  { ServiceName : string;
    ServicePort : IntOrString }.

Record HTTPIngressPath : Type := mkHTTPIngressPath
  { Path : string;
    Backend : IngressBackend }.

Record HTTPIngressRuleValue : Type := mkHTTPIngressRuleValue
  { Paths : list HTTPIngressPath }.

(** [HTTP] is a pointer in Go ([*HTTPIngressRuleValue]): a rule may come
    without an [http] block. *)
Record IngressRule : Type := mkIngressRule
  { Host : string;
    HTTP : option HTTPIngressRuleValue }.

(** [SpecBackend] is [Spec.Backend], the default ("single service")
    backend, a pointer in Go.  [Spec.TLS] is only read by the certificate
    synchronisation and is left out. *)
Record IngressSpec : Type := mkIngressSpec
  { SpecBackend : option IngressBackend;
    Rules : list IngressRule }.

Record ObjectMeta : Type := mkObjectMeta
  { Name : string;
    Namespace : string;
    Annotations : gmap string string }.

Record Ingress : Type := mkIngress
  { Meta : ObjectMeta;
    Spec : IngressSpec }.

End K8s.
Import K8s.

(** ** The gateway client ([go-kong]) *)

Module Kong.

(** A record as the gateway returns it. [Uris] is a slice (nil and empty
    are both [[]]); [StripURI] is a [*bool]. *)
Module Api.
Record t : Type := mk
  { ID : string;
    Name : string;
    UpstreamURL : string;
    Hosts : list string;
    Uris : list string;
    PreserveHost : bool;
    StripURI : option bool }.
End Api.

(** The body of a POST or PATCH. Fields left out of a Go composite literal
    hold their zero value. *)
Module ApiRequest.
Record t : Type := mk
  { ID : string;
    Name : string;
    UpstreamURL : string;
    Hosts : string;
    Uris : string;
    PreserveHost : bool;
    StripURI : option bool }.
End ApiRequest.

Record Response : Type := mkResponse { StatusCode : Z }.

Definition StatusNotFound : Z := 404.

(** The requests the controller can issue. *)
Inductive Call : Type :=
| GetAll
| Get (api : string)
| Post (body : ApiRequest.t)
| Patch (body : ApiRequest.t)
| Delete (api : string).

(** [kong.Client.Apis]: every method is a function of the gateway state
    [K], returning what the Go method returns (pointers as options). *)
Record Client (K : Type) : Type := mkClient
  { Apis_GetAll : K -> (option (list (option Api.t)) * option Response * option error) * K;
    Apis_Get : string -> K -> (option Api.t * option Response * option error) * K;
    Apis_Post : ApiRequest.t -> K -> (option Response * option error) * K;
    Apis_Patch : ApiRequest.t -> K -> (option Response * option error) * K;
    Apis_Delete : string -> K -> (option Response * option error) * K }.
Arguments Apis_GetAll {K} _ _.
Arguments Apis_Get {K} _ _ _.
Arguments Apis_Post {K} _ _ _.
Arguments Apis_Patch {K} _ _ _.
Arguments Apis_Delete {K} _ _ _.

End Kong.

(** ** Running controller code against a gateway *)

Module Run.

(** The world a handler runs in: the gateway and the log of the requests
    issued so far, oldest first. *)
Record World (K : Type) : Type := mkWorld
  { gateway : K;
    calls : list Kong.Call }.
Arguments mkWorld {K} _ _.
Arguments gateway {K} _.
Arguments calls {K} _.

Definition Op (K A : Type) : Type := World K -> outcome A * World K.

Definition ret {K A} (a : A) : Op K A := fun w => (Done a, w).

Definition panic {K A} : Op K A := fun w => (Panic, w).

Definition bind {K A B} (c : Op K A) (k : A -> Op K B) : Op K B :=
  fun w =>
    match c w with
    | (Done a, w') => k a w'
    | (Panic, w') => (Panic, w')
    end.

(** Dereferencing a pointer: a nil pointer panics. *)
Definition deref {K A} (p : option A) : Op K A :=
  match p with
  | Some a => ret a
  | None => panic
  end.

(** Issue request [c], answered by [f] on the gateway state. *)
Definition request {K A} (c : Kong.Call) (f : K -> A * K) : Op K A :=
  fun w =>
    let '(a, g) := f (gateway w) in
    (Done a, mkWorld g (calls w ++ [c])).

(** A pure computation that may panic, run inside a handler. *)
Definition lift {K A} (o : outcome A) : Op K A :=
  match o with
  | Done a => ret a
  | Panic => panic
  end.

(** [c ;;; k]: run [c]; a non-nil error is returned at once, otherwise
    continue with [k] -- the [if err != nil { return ... }] idiom. *)
Definition orReturn {K} (c k : Op K (option error)) : Op K (option error) :=
  bind c (fun e => match e with Some _ => ret e | None => k end).

(** [for _, x := range l { body }] *)
Fixpoint forEach {K A} (l : list A) (body : A -> Op K unit) : Op K unit :=
  match l with
  | [] => ret tt
  | x :: l' => bind (body x) (fun _ => forEach l' body)
  end.

End Run.
Import Run.

Declare Scope op_scope.
Delimit Scope op_scope with op.
Notation "'let*' x := c 'in' k" := (bind c (fun x => k))
  (at level 10, x pattern, c at level 100, k at level 200) : op_scope.
Notation "c ;;; k" := (orReturn c k)
  (at level 100, right associativity) : op_scope.
Local Open Scope op_scope.

(** ** The composite form, current edition ([controller/controller.go])

    [glog] calls are left out: they neither touch the gateway nor change what
    a function returns.  The synchronisation of TLS certificates
    ([reconcileCertificate], and [ingressChanged] which interleaves it with
    [reconcileAPI]) is a separate loop against another gateway resource and
    is not embedded. *)

Module Composite.

Definition ingressClassAnnotationName : string := "kubernetes.io/ingress.class".
Definition kongIngressControllerClass : string := "kong".

(** [val, ok := m[k]; ok && val == class || !ok] *)
Definition ingressIsFairGame (ingress : Ingress) : bool :=
  let o := Annotations (Meta ingress) !! ingressClassAnnotationName in
  let ok := match o with Some _ => true | None => false end in
  let val := match o with Some v => v | None => "" end in
  ok && String.eqb val kongIngressControllerClass || negb ok.

Definition hashString (input : string) : string :=
  let adler32Int := adler32_Checksum input in
  FormatUint16 adler32Int.

Definition getQualifiedAPIName (host path namespace : string) : string :=
  host +:+ "~" +:+ hashString path +:+ "~" +:+ namespace.

Definition getUpstreamURL (ingressPath : HTTPIngressPath) (namespace : string) : string :=
  let backend := Backend ingressPath in
  "http://" +:+ ServiceName backend +:+ "." +:+ namespace +:+ ":"
    +:+ IntOrString_String (ServicePort backend).

Definition apiRequestFromIngress (ingressRule : IngressRule)
    (ingressPath : HTTPIngressPath) (namespace : string) : Kong.ApiRequest.t :=
  let apiName := getQualifiedAPIName (Host ingressRule) (Path ingressPath) namespace in
  let upstreamURL := getUpstreamURL ingressPath namespace in
  let stripURI := false in
  {| Kong.ApiRequest.ID := "";
     Kong.ApiRequest.Name := apiName;
     Kong.ApiRequest.UpstreamURL := upstreamURL;
     Kong.ApiRequest.Hosts := Host ingressRule;
     Kong.ApiRequest.Uris := Path ingressPath;
     Kong.ApiRequest.PreserveHost := true;
     Kong.ApiRequest.StripURI := Some stripURI |}.

Definition validateIngressSupported (ingress : Ingress) : option error :=
  match SpecBackend (Spec ingress) with
  | Some _ => Some (ErrorNew "Single Service Ingress types are not currently supported")
  | None => None
  end.

(** The reaper's table of names that have an owner: the three nested
    [range] loops filling [ingMap]. *)
Definition ingMapPaths (host namespace : string) (paths : list HTTPIngressPath)
    (ingMap : gmap string bool) : gmap string bool :=
  fold_left
    (fun m ingressPath => <[getQualifiedAPIName host (Path ingressPath) namespace := true]> m)
    paths ingMap.

Fixpoint ingMapRules (namespace : string) (rules : list IngressRule)
    (ingMap : gmap string bool) : outcome (gmap string bool) :=
  match rules with
  | [] => Done ingMap
  | ingressRule :: rules' =>
      outcome_bind (load (HTTP ingressRule)) (fun http =>
        ingMapRules namespace rules'
          (ingMapPaths (Host ingressRule) namespace (Paths http) ingMap))
  end.

Fixpoint ingMapItems (items : list Ingress) (ingMap : gmap string bool)
    : outcome (gmap string bool) :=
  match items with
  | [] => Done ingMap
  | ingress :: items' =>
      if ingressIsFairGame ingress
      then outcome_bind
             (ingMapRules (Namespace (Meta ingress)) (Rules (Spec ingress)) ingMap)
             (ingMapItems items')
      else ingMapItems items' ingMap
  end.

Section WithClient.
Context {K : Type} (kongClient : Kong.Client K).

Definition deleteKongAPI (apiName : string) : Op K (option error) :=
  let* (_, err) := request (Kong.Get apiName) (Kong.Apis_Get kongClient apiName) in
  match err with
  | Some e =>
      ret (Some (ErrorWrapf e ("Failed to retrieve kong api '" +:+ apiName +:+ "'")))
  | None =>
      let* (_, err) := request (Kong.Delete apiName) (Kong.Apis_Delete kongClient apiName) in
      match err with
      | Some e =>
          ret (Some (ErrorWrapf e ("Failed to delete kong api '" +:+ apiName +:+ "'")))
      | None => ret None
      end
  end.

(** [if drift { _, err := Patch(body); if err != nil { return Wrapf } }] *)
Definition patchIf (drift : bool) (body : Kong.ApiRequest.t) (apiName : string)
    : Op K (option error) :=
  if drift then
    let* (_, err) := request (Kong.Patch body) (Kong.Apis_Patch kongClient body) in
    match err with
    | Some e => ret (Some (ErrorWrapf e ("Failed to patch API '" +:+ apiName +:+ "'")))
    | None => ret None
    end
  else ret None.

(** The bodies of the five field patches. *)
Definition patchUpstreamURL (id url : string) : Kong.ApiRequest.t :=
  Kong.ApiRequest.mk id "" url "" "" false None.
Definition patchHosts (id hosts : string) : Kong.ApiRequest.t :=
  Kong.ApiRequest.mk id "" "" hosts "" false None.
Definition patchPreserveHost (id : string) : Kong.ApiRequest.t :=
  Kong.ApiRequest.mk id "" "" "" "" true None.
Definition patchStripURI (id : string) : Kong.ApiRequest.t :=
  Kong.ApiRequest.mk id "" "" "" "" false (Some false).
Definition patchUris (id uris : string) : Kong.ApiRequest.t :=
  Kong.ApiRequest.mk id "" "" "" uris false None.

(** [len(api.Hosts) != 1 || api.Hosts[0] != correctHosts]; the first
    disjunct guards the index. *)
Definition hostsDrift (hosts : list string) (correctHosts : string) : bool :=
  negb (Nat.eqb (length hosts) 1) || negb (String.eqb (nth 0 hosts "") correctHosts).

(** [api.Uris == nil || len(api.Uris) == 0 || api.Uris[0] != path] *)
Definition urisDrift (uris : list string) (path : string) : bool :=
  Nat.eqb (length uris) 0 || negb (String.eqb (nth 0 uris "") path).

Definition reconcileAPI (ingressRule : IngressRule) (ingressPath : HTTPIngressPath)
    (namespace : string) : Op K (option error) :=
  let apiName := getQualifiedAPIName (Host ingressRule) (Path ingressPath) namespace in
  let* (api, resp, err) := request (Kong.Get apiName) (Kong.Apis_Get kongClient apiName) in
  let proceed : Op K (option error) :=
    let* r := deref resp in
    if (Kong.StatusCode r =? Kong.StatusNotFound)%Z then
      let kongAPI := apiRequestFromIngress ingressRule ingressPath namespace in
      let* (_, err) := request (Kong.Post kongAPI) (Kong.Apis_Post kongClient kongAPI) in
      match err with
      | Some e => ret (Some (ErrorWrapf e ("Failed to create API '" +:+ apiName +:+ "'")))
      | None => ret None
      end
    else
      let correctUpstreamURL := getUpstreamURL ingressPath namespace in
      let* api := deref api in
      (patchIf (negb (String.eqb (Kong.Api.UpstreamURL api) correctUpstreamURL))
         (patchUpstreamURL (Kong.Api.ID api) correctUpstreamURL) apiName ;;;
       let correctHosts := Host ingressRule in
       patchIf (hostsDrift (Kong.Api.Hosts api) correctHosts)
         (patchHosts (Kong.Api.ID api) correctHosts) apiName ;;;
       patchIf (negb (Bool.eqb (Kong.Api.PreserveHost api) true))
         (patchPreserveHost (Kong.Api.ID api)) apiName ;;;
       (let* stripURI := deref (Kong.Api.StripURI api) in
        patchIf (negb (Bool.eqb stripURI false))
          (patchStripURI (Kong.Api.ID api)) apiName) ;;;
       patchIf (urisDrift (Kong.Api.Uris api) (Path ingressPath))
         (patchUris (Kong.Api.ID api) (Path ingressPath)) apiName)
  in
  (* if err != nil && (resp == nil || resp.StatusCode != http.StatusNotFound) *)
  match err with
  | Some e =>
      if match resp with
         | None => true
         | Some r => negb (Kong.StatusCode r =? Kong.StatusNotFound)%Z
         end
      then ret (Some (ErrorWrapf e ("Failed to fetch API '" +:+ apiName +:+ "'")))
      else proceed
  | None => proceed
  end.

(** The result of [extClient.Get()...Do().Get()]: the listed object
    (asserted to be an [*IngressList]) and an error. *)
Definition reapOrphanedApis (listed : option (list Ingress) * option error)
    : Op K (option error) :=
  let* (kongApis, _, err) := request Kong.GetAll (Kong.Apis_GetAll kongClient) in
  match err with
  | Some e => ret (Some (ErrorWrapf e "Failed to get kong api list"))
  | None =>
      let (ingressObjects, err) := listed in
      match err with
      | Some e => ret (Some (ErrorWrapf e "Failed to get ingress list"))
      | None =>
          let* ingressList := deref ingressObjects in
          let* ingMap := lift (ingMapItems ingressList ∅) in
          let* data := deref kongApis in
          let* _ := forEach data (fun p =>
            let* api := deref p in
            if negb (mapget ingMap (Kong.Api.Name api))
            then let* _ := deleteKongAPI (Kong.Api.Name api) in ret tt
            else ret tt) in
          ret None
      end
  end.

Definition ingressDeleted (ingress : Ingress) : Op K unit :=
  if negb (ingressIsFairGame ingress) then ret tt
  else
    forEach (Rules (Spec ingress)) (fun ingressRule =>
      let* http := deref (HTTP ingressRule) in
      forEach (Paths http) (fun ingressPath =>
        let apiName := getQualifiedAPIName (Host ingressRule) (Path ingressPath)
                         (Namespace (Meta ingress)) in
        let* _ := deleteKongAPI apiName in ret tt)).

End WithClient.

End Composite.

(** ** The composite form, first edition (second half of
    [controller/controller.go])

    [ingressIsFairGame], [hashString], [getQualifiedAPIName],
    [validateIngressSupported], [deleteKongAPI], [reapOrphanedApis] and
    [ingressDeleted] read the same in both editions and are shared with
    [Composite]; the functions below are the ones that differ. *)

Module CompositeB.

Definition getIngressRuleBackend (rule : IngressRule) : outcome IngressBackend :=
  outcome_bind (load (HTTP rule)) (fun http =>
  outcome_bind (index (Paths http) 0) (fun path =>
  Done (Backend path))).

Definition getUpstreamURL (ingressRule : IngressRule) (namespace : string)
    : outcome string :=
  outcome_bind (getIngressRuleBackend ingressRule) (fun backend =>
  Done ("http://" +:+ ServiceName backend +:+ "." +:+ namespace +:+ ":"
          +:+ IntOrString_String (ServicePort backend))).

Definition apiRequestFromIngress (ingressRule : IngressRule)
    (ingressPath : HTTPIngressPath) (namespace : string) : outcome Kong.ApiRequest.t :=
  let apiName :=
    Composite.getQualifiedAPIName (Host ingressRule) (Path ingressPath) namespace in
  outcome_bind (getUpstreamURL ingressRule namespace) (fun upstreamURL =>
  Done {| Kong.ApiRequest.ID := "";
          Kong.ApiRequest.Name := apiName;
          Kong.ApiRequest.UpstreamURL := upstreamURL;
          Kong.ApiRequest.Hosts := Host ingressRule;
          Kong.ApiRequest.Uris := Path ingressPath;
          Kong.ApiRequest.PreserveHost := true;
          Kong.ApiRequest.StripURI := None |}).

Section WithClient.
Context {K : Type} (kongClient : Kong.Client K).

Definition reconcileAPI (ingressRule : IngressRule) (ingressPath : HTTPIngressPath)
    (namespace : string) : Op K (option error) :=
  let apiName :=
    Composite.getQualifiedAPIName (Host ingressRule) (Path ingressPath) namespace in
  let* (api, resp, err) := request (Kong.Get apiName) (Kong.Apis_Get kongClient apiName) in
  let proceed : Op K (option error) :=
    let* r := deref resp in
    if (Kong.StatusCode r =? Kong.StatusNotFound)%Z then
      let* kongAPI := lift (apiRequestFromIngress ingressRule ingressPath namespace) in
      let* (_, err) := request (Kong.Post kongAPI) (Kong.Apis_Post kongClient kongAPI) in
      match err with
      | Some e => ret (Some (ErrorWrapf e ("Failed to create API '" +:+ apiName +:+ "'")))
      | None => ret None
      end
    else
      let* correctUpstreamURL := lift (getUpstreamURL ingressRule namespace) in
      let* api := deref api in
      (Composite.patchIf kongClient
         (negb (String.eqb (Kong.Api.UpstreamURL api) correctUpstreamURL))
         (Composite.patchUpstreamURL (Kong.Api.ID api) correctUpstreamURL) apiName ;;;
       let correctHosts := Host ingressRule in
       Composite.patchIf kongClient
         (Composite.hostsDrift (Kong.Api.Hosts api) correctHosts)
         (Composite.patchHosts (Kong.Api.ID api) correctHosts) apiName ;;;
       Composite.patchIf kongClient
         (negb (Bool.eqb (Kong.Api.PreserveHost api) true))
         (Composite.patchPreserveHost (Kong.Api.ID api)) apiName ;;;
       Composite.patchIf kongClient
         (Composite.urisDrift (Kong.Api.Uris api) (Path ingressPath))
         (Composite.patchUris (Kong.Api.ID api) (Path ingressPath)) apiName)
  in
  match err with
  | Some e =>
      if match resp with
         | None => true
         | Some r => negb (Kong.StatusCode r =? Kong.StatusNotFound)%Z
         end
      then ret (Some (ErrorWrapf e ("Failed to fetch API '" +:+ apiName +:+ "'")))
      else proceed
  | None => proceed
  end.

Definition ingressChanged (ingress : Ingress) : Op K unit :=
  if negb (Composite.ingressIsFairGame ingress) then ret tt
  else
    match Composite.validateIngressSupported ingress with
    | Some _ => ret tt
    | None =>
        forEach (Rules (Spec ingress)) (fun ingressRule =>
          let* http := deref (HTTP ingressRule) in
          forEach (Paths http) (fun ingressPath =>
            let* _ := reconcileAPI ingressRule ingressPath (Namespace (Meta ingress)) in
            ret tt))
    end.

Definition ingressUpdated (previousObj newObj : Ingress) : Op K unit :=
  ingressChanged newObj.

End WithClient.

End CompositeB.

(** ** The simple form ([controller.go] of the first generation)

    There is no ingress-class filter in this generation, and the reaper keys
    on the ingress itself. *)

Module Simple.

Definition getQualifiedName (ingress : Ingress) : string :=
  Name (Meta ingress) +:+ "." +:+ Namespace (Meta ingress).

Definition getIngressBackend (ingress : Ingress) : outcome IngressBackend :=
  outcome_bind (index (Rules (Spec ingress)) 0) (fun rule =>
  outcome_bind (load (HTTP rule)) (fun http =>
  outcome_bind (index (Paths http) 0) (fun path =>
  Done (Backend path)))).

Definition getUpstreamURL (ingress : Ingress) : outcome string :=
  outcome_bind (getIngressBackend ingress) (fun backend =>
  Done ("http://" +:+ ServiceName backend +:+ "." +:+ Namespace (Meta ingress) +:+ ":"
          +:+ IntOrString_String (ServicePort backend))).

Definition validateIngressSupported (ingress : Ingress) : outcome (option error) :=
  match SpecBackend (Spec ingress) with
  | Some _ =>
      Done (Some (ErrorNew "Single Service Ingress types are not currently supported"))
  | None =>
      if negb (Nat.eqb (length (Rules (Spec ingress))) 1)
      then Done (Some (ErrorNew "Only ingresses with a single rule are currently supported"))
      else
        outcome_bind (index (Rules (Spec ingress)) 0) (fun rule =>
        outcome_bind (load (HTTP rule)) (fun http =>
          if negb (Nat.eqb (length (Paths http)) 1)
          then Done (Some (ErrorNew
                 "Only ingresses with a single root path are currently supported"))
          else
            outcome_bind (index (Paths http) 0) (fun path =>
              if negb (String.eqb (Path path) "/")
              then Done (Some (ErrorNew
                     "Only ingresses with a single root path are currently supported"))
              else Done None)))
  end.

Definition apiRequestFromIngress (ingress : Ingress) : outcome Kong.ApiRequest.t :=
  let serviceName := getQualifiedName ingress in
  outcome_bind (getUpstreamURL ingress) (fun upstreamURL =>
  outcome_bind (index (Rules (Spec ingress)) 0) (fun rule =>
  Done {| Kong.ApiRequest.ID := "";
          Kong.ApiRequest.Name := serviceName;
          Kong.ApiRequest.UpstreamURL := upstreamURL;
          Kong.ApiRequest.Hosts := Host rule;
          Kong.ApiRequest.Uris := "";
          Kong.ApiRequest.PreserveHost := true;
          Kong.ApiRequest.StripURI := None |})).

(** [for _, ingress := range items { ingMap[getQualifiedName(&ingress)] = true }] *)
Definition ingMapItems (items : list Ingress) (ingMap : gmap string bool)
    : gmap string bool :=
  fold_left (fun m ingress => <[getQualifiedName ingress := true]> m) items ingMap.

Section WithClient.
Context {K : Type} (kongClient : Kong.Client K).

Definition deleteKongAPI (apiName : string) : Op K (option error) :=
  let* (_, err) := request (Kong.Get apiName) (Kong.Apis_Get kongClient apiName) in
  match err with
  | Some e =>
      ret (Some (ErrorWrapf e ("Failed to retrieve kong api '" +:+ apiName +:+ "'")))
  | None =>
      let* (_, err) := request (Kong.Delete apiName) (Kong.Apis_Delete kongClient apiName) in
      match err with
      | Some e =>
          ret (Some (ErrorWrapf e ("Failed to delete kong api '" +:+ apiName +:+ "'")))
      | None => ret None
      end
  end.

Definition patchIf (drift : bool) (body : Kong.ApiRequest.t) (apiName : string)
    : Op K (option error) :=
  if drift then
    let* (_, err) := request (Kong.Patch body) (Kong.Apis_Patch kongClient body) in
    match err with
    | Some e => ret (Some (ErrorWrapf e ("Failed to patch API '" +:+ apiName +:+ "'")))
    | None => ret None
    end
  else ret None.

Definition reconcileAPI (ingress : Ingress) : Op K (option error) :=
  let apiName := getQualifiedName ingress in
  let* (api, resp, err) := request (Kong.Get apiName) (Kong.Apis_Get kongClient apiName) in
  let proceed : Op K (option error) :=
    let* r := deref resp in
    if (Kong.StatusCode r =? Kong.StatusNotFound)%Z then
      let* kongAPI := lift (apiRequestFromIngress ingress) in
      let* (_, err) := request (Kong.Post kongAPI) (Kong.Apis_Post kongClient kongAPI) in
      match err with
      | Some e => ret (Some (ErrorWrapf e ("Failed to create API '" +:+ apiName +:+ "'")))
      | None => ret None
      end
    else
      let* correctUpstreamURL := lift (getUpstreamURL ingress) in
      let* api := deref api in
      (patchIf (negb (String.eqb (Kong.Api.UpstreamURL api) correctUpstreamURL))
         (Composite.patchUpstreamURL (Kong.Api.ID api) correctUpstreamURL) apiName ;;;
       let* rule := lift (index (Rules (Spec ingress)) 0) in
       let correctHosts := Host rule in
       patchIf (Composite.hostsDrift (Kong.Api.Hosts api) correctHosts)
         (Composite.patchHosts (Kong.Api.ID api) correctHosts) apiName ;;;
       patchIf (negb (Bool.eqb (Kong.Api.PreserveHost api) true))
         (Composite.patchPreserveHost (Kong.Api.ID api)) apiName)
  in
  match err with
  | Some e =>
      if match resp with
         | None => true
         | Some r => negb (Kong.StatusCode r =? Kong.StatusNotFound)%Z
         end
      then ret (Some (ErrorWrapf e ("Failed to fetch API '" +:+ apiName +:+ "'")))
      else proceed
  | None => proceed
  end.

Definition reapOrphanedApis (listed : option (list Ingress) * option error)
    : Op K (option error) :=
  let* (kongApis, _, err) := request Kong.GetAll (Kong.Apis_GetAll kongClient) in
  match err with
  | Some e => ret (Some (ErrorWrapf e "Failed to get kong api list"))
  | None =>
      let (ingressObjects, err) := listed in
      match err with
      | Some e => ret (Some (ErrorWrapf e "Failed to get ingress list"))
      | None =>
          let* ingressList := deref ingressObjects in
          let ingMap := ingMapItems ingressList ∅ in
          let* data := deref kongApis in
          let* _ := forEach data (fun p =>
            let* api := deref p in
            if negb (mapget ingMap (Kong.Api.Name api))
            then let* _ := deleteKongAPI (Kong.Api.Name api) in ret tt
            else ret tt) in
          ret None
      end
  end.

Definition ingressChanged (ingress : Ingress) : Op K unit :=
  let* invalid := lift (validateIngressSupported ingress) in
  match invalid with
  | Some _ => ret tt
  | None => let* _ := reconcileAPI ingress in ret tt
  end.

Definition ingressDeleted (ingress : Ingress) : Op K unit :=
  let apiName := getQualifiedName ingress in
  let* _ := deleteKongAPI apiName in ret tt.

End WithClient.

End Simple.

(** ** A reference gateway *)

(** Modelled from the spec: the gateway behind the admin API (section 6 of
    the specification; the gateway and its client library are external to
    the repository).  [MemKong] is an in-memory gateway that answers the
    five operations as documented there: records are keyed by name, [GET]
    and [DELETE] of a missing record answer 404, [POST] stores the full
    record and a [PATCH] changes the fields its body carries.  It serves to
    run the controller on concrete inputs and to state what "deleted" and
    "absent" mean; the controller itself is written against an arbitrary
    client. *)
Module MemKong.

Definition hasName (name : string) (a : Kong.Api.t) : bool :=
  String.eqb (Kong.Api.Name a) name.

Definition lookup (name : string) (g : list Kong.Api.t) : option Kong.Api.t :=
  find (hasName name) g.

Definition answer (status : Z) : option Kong.Response :=
  Some (Kong.mkResponse status).

Definition refuse {A} (status : Z) (a : A) : A * option Kong.Response * option error :=
  (a, answer status, Some (ErrorHTTP status)).

Definition listOf (s : string) : list string :=
  if String.eqb s "" then [] else [s].

Definition create (body : Kong.ApiRequest.t) : Kong.Api.t :=
  {| Kong.Api.ID := Kong.ApiRequest.Name body;
     Kong.Api.Name := Kong.ApiRequest.Name body;
     Kong.Api.UpstreamURL := Kong.ApiRequest.UpstreamURL body;
     Kong.Api.Hosts := listOf (Kong.ApiRequest.Hosts body);
     Kong.Api.Uris := listOf (Kong.ApiRequest.Uris body);
     Kong.Api.PreserveHost := Kong.ApiRequest.PreserveHost body;
     Kong.Api.StripURI :=
       match Kong.ApiRequest.StripURI body with
       | Some b => Some b
       | None => Some true
       end |}.

Definition amend (body : Kong.ApiRequest.t) (a : Kong.Api.t) : Kong.Api.t :=
  {| Kong.Api.ID := Kong.Api.ID a;
     Kong.Api.Name := Kong.Api.Name a;
     Kong.Api.UpstreamURL :=
       if String.eqb (Kong.ApiRequest.UpstreamURL body) ""
       then Kong.Api.UpstreamURL a else Kong.ApiRequest.UpstreamURL body;
     Kong.Api.Hosts :=
       if String.eqb (Kong.ApiRequest.Hosts body) ""
       then Kong.Api.Hosts a else [Kong.ApiRequest.Hosts body];
     Kong.Api.Uris :=
       if String.eqb (Kong.ApiRequest.Uris body) ""
       then Kong.Api.Uris a else [Kong.ApiRequest.Uris body];
     Kong.Api.PreserveHost :=
       Kong.ApiRequest.PreserveHost body || Kong.Api.PreserveHost a;
     Kong.Api.StripURI :=
       match Kong.ApiRequest.StripURI body with
       | Some b => Some b
       | None => Kong.Api.StripURI a
       end |}.

Definition addressed (id : string) (a : Kong.Api.t) : bool :=
  String.eqb (Kong.Api.ID a) id || String.eqb (Kong.Api.Name a) id.

(** Modelled from the spec: the answers of the gateway to [GET /apis],
    [GET /apis/{name}], [POST /apis], [PATCH /apis/{name or id}] and
    [DELETE /apis/{name}]. *)
Definition client : Kong.Client (list Kong.Api.t) :=
  {| Kong.Apis_GetAll := fun g => ((Some (map Some g), answer 200, None), g);
     Kong.Apis_Get := fun name g =>
       match lookup name g with
       | Some a => ((Some a, answer 200, None), g)
       | None => (refuse 404 None, g)
       end;
     Kong.Apis_Post := fun body g =>
       match lookup (Kong.ApiRequest.Name body) g with
       | Some _ => ((answer 409, Some (ErrorHTTP 409)), g)
       | None => ((answer 201, None), g ++ [create body])
       end;
     Kong.Apis_Patch := fun body g =>
       if existsb (addressed (Kong.ApiRequest.ID body)) g
       then ((answer 200, None),
             map (fun a => if addressed (Kong.ApiRequest.ID body) a
                           then amend body a else a) g)
       else ((answer 404, Some (ErrorHTTP 404)), g);
     Kong.Apis_Delete := fun name g =>
       match lookup name g with
       | Some _ => ((answer 204, None), List.filter (fun a => negb (hasName name a)) g)
       | None => ((answer 404, Some (ErrorHTTP 404)), g)
       end |}.

Definition start (g : list Kong.Api.t) : World (list Kong.Api.t) := mkWorld g [].

End MemKong.

(** ** Statements and inputs

    Predicates the theorems are stated with, and the concrete ingresses and
    gateway records they are tried on. *)

(** The desired upstream URL of a (rule, path) pair: built from the backend
    of that path. *)
Definition upstreamURL_of (path : HTTPIngressPath) (namespace : string) : string :=
  "http://" +:+ ServiceName (Backend path) +:+ "." +:+ namespace +:+ ":"
    +:+ IntOrString_String (ServicePort (Backend path)).

(** The unsupported shapes of the simple form in the specification's words:
    a default backend, a number of rules different from one, or a single
    rule with more than one path or with a path different from ["/"]. *)
Definition claimed_unsupported_simple (ingress : Ingress) : Prop :=
  SpecBackend (Spec ingress) <> None
  \/ length (Rules (Spec ingress)) <> 1%nat
  \/ exists rule http,
       Rules (Spec ingress) = [rule] /\ HTTP rule = Some http /\
       ((1 < length (Paths http))%nat \/
        exists path, In path (Paths http) /\ Path path <> "/").

(** What the simple form rejects: the number of paths has to be exactly
    one. *)
Definition unsupported_simple (ingress : Ingress) : Prop :=
  SpecBackend (Spec ingress) <> None
  \/ length (Rules (Spec ingress)) <> 1%nat
  \/ exists rule http,
       Rules (Spec ingress) = [rule] /\ HTTP rule = Some http /\
       (length (Paths http) <> 1%nat \/
        exists path, Paths http = [path] /\ Path path <> "/").

(** What the simple form accepts: one rule with the one path ["/"]. *)
Definition supported_simple (ingress : Ingress) : Prop :=
  SpecBackend (Spec ingress) = None
  /\ exists rule path,
       Rules (Spec ingress) = [rule] /\
       HTTP rule = Some (mkHTTPIngressRuleValue [path]) /\ Path path = "/".

(** Validation returned an error. *)
Definition rejects {A} (o : outcome (option A)) : Prop :=
  exists e, o = Done (Some e).

(** [n] is the qualified name of a (rule, path) pair of an eligible ingress
    of the listed snapshot. *)
Definition owned (items : list Ingress) (n : string) : Prop :=
  exists ingress rule http path,
    In ingress items /\ Composite.ingressIsFairGame ingress = true /\
    In rule (Rules (Spec ingress)) /\ HTTP rule = Some http /\ In path (Paths http) /\
    n = Composite.getQualifiedAPIName (Host rule) (Path path) (Namespace (Meta ingress)).

(** Every rule of every eligible ingress has its [http] block. *)
Definition rulesHaveHTTP (items : list Ingress) : Prop :=
  forall ingress rule,
    In ingress items -> Composite.ingressIsFairGame ingress = true ->
    In rule (Rules (Spec ingress)) -> HTTP rule <> None.

(** The errors the controller returns around a failed PATCH, GET and
    DELETE. *)
Definition wrapPatch (apiName : string) (err : option error) : option error :=
  match err with
  | Some e => Some (ErrorWrapf e ("Failed to patch API '" +:+ apiName +:+ "'"))
  | None => None
  end.

Definition wrapRetrieve (apiName : string) (e : error) : error :=
  ErrorWrapf e ("Failed to retrieve kong api '" +:+ apiName +:+ "'").

Definition wrapDelete (apiName : string) (err : option error) : option error :=
  match err with
  | Some e => Some (ErrorWrapf e ("Failed to delete kong api '" +:+ apiName +:+ "'"))
  | None => None
  end.

(** What one pass of the reaper's loop leaves of the reference gateway. *)
Definition sweepStep (ingMap : gmap string bool) (store : list Kong.Api.t)
    (api : Kong.Api.t) : list Kong.Api.t :=
  if mapget ingMap (Kong.Api.Name api) then store
  else List.filter (fun b => negb (MemKong.hasName (Kong.Api.Name api) b)) store.

(** The whole loop, over the listed records [data]. *)
Definition sweep (ingMap : gmap string bool) (data store : list Kong.Api.t)
    : list Kong.Api.t :=
  fold_left (sweepStep ingMap) data store.

(** [a] is named like an orphan among [data]. *)
Definition condemned (ingMap : gmap string bool) (data : list Kong.Api.t)
    (a : Kong.Api.t) : bool :=
  existsb (fun d => negb (mapget ingMap (Kong.Api.Name d))
                    && String.eqb (Kong.Api.Name a) (Kong.Api.Name d)) data.

(** A gateway that holds one record and answers every PATCH the same way:
    with [patchError] ([None] for success). *)
Module StubKong.

Definition client (api : Kong.Api.t) (patchError : option error) : Kong.Client unit :=
  {| Kong.Apis_GetAll := fun g => ((Some [Some api], MemKong.answer 200, None), g);
     Kong.Apis_Get := fun _ g => ((Some api, MemKong.answer 200, None), g);
     Kong.Apis_Post := fun _ g => ((MemKong.answer 201, None), g);
     Kong.Apis_Patch := fun _ g =>
       ((match patchError with
         | Some (ErrorHTTP status) => MemKong.answer status
         | Some _ => None
         | None => MemKong.answer 200
         end, patchError), g);
     Kong.Apis_Delete := fun _ g => ((MemKong.answer 204, None), g) |}.

Definition start : World unit := mkWorld tt [].

End StubKong.

(** An ingress with one rule and no path under it. *)
Definition pathlessIngress : Ingress :=
  mkIngress (mkObjectMeta "somename" "infra" ∅)
    (mkIngressSpec None [mkIngressRule "somename.somedomain"
                           (Some (mkHTTPIngressRuleValue []))]).

(** One rule, two paths, two different backends. *)
Definition shopRoot : HTTPIngressPath :=
  mkHTTPIngressPath "/" (mkIngressBackend "web" (FromInt 80)).

Definition shopApi : HTTPIngressPath :=
  mkHTTPIngressPath "/api" (mkIngressBackend "api" (FromInt 8080)).

Definition shopRule : IngressRule :=
  mkIngressRule "shop.example.com" (Some (mkHTTPIngressRuleValue [shopRoot; shopApi])).

Definition shopIngress : Ingress :=
  mkIngress (mkObjectMeta "shop" "prod" ∅) (mkIngressSpec None [shopRule]).

Definition shopApiName : string := "shop.example.com~32c016a~prod".

(** The record of the pair [("shop.example.com", "/api")] as the current
    edition creates it, and three ways it can differ. *)
Definition shopApiRecord : Kong.Api.t :=
  MemKong.create (Composite.apiRequestFromIngress shopRule shopApi "prod").

Definition shopApiStripped : Kong.Api.t :=
  Kong.Api.mk shopApiName shopApiName "http://api.prod:8080" ["shop.example.com"]
    ["/api"] true (Some true).

Definition shopApiStale : Kong.Api.t :=
  Kong.Api.mk shopApiName shopApiName "http://old.prod:8080" ["shop.example.com"]
    ["/api"] true (Some true).

Definition shopApiBare : Kong.Api.t :=
  Kong.Api.mk shopApiName shopApiName "http://api.prod:8080" ["shop.example.com"]
    ["/api"] true None.

(** The ingress of the repository's tests, and its record. *)
Definition sampleIngress (name namespace : string) : Ingress :=
  mkIngress (mkObjectMeta name namespace ∅)
    (mkIngressSpec None
       [mkIngressRule (name +:+ ".somedomain")
          (Some (mkHTTPIngressRuleValue
             [mkHTTPIngressPath "/" (mkIngressBackend "service-1" (FromInt 32000))]))]).

Definition bestserviceRecord : Kong.Api.t :=
  Kong.Api.mk "bestservice.prod" "bestservice.prod" "http://service-1.prod:32000"
    ["bestservice.somedomain"] [] true (Some true).

(** [apiFromIngress] of the tests: the record a test gateway answers with,
    holding an upstream URL, a name and an id only. *)
Definition apiFromIngress (upstreamURL name : string) : Kong.Api.t :=
  Kong.Api.mk name name upstreamURL [] [] false None.

Definition bestserviceOriginal : Kong.Api.t :=
  apiFromIngress "http://service-1.prod:32000" "bestservice.prod".

(** [sampleIngress] with another backend service, another port, another
    host. *)
Definition sampleIngressWith (name namespace host service : string) (port : Z) : Ingress :=
  mkIngress (mkObjectMeta name namespace ∅)
    (mkIngressSpec None
       [mkIngressRule host
          (Some (mkHTTPIngressRuleValue
             [mkHTTPIngressPath "/" (mkIngressBackend service (FromInt port))]))]).

(** ** Further statements: names *)

(** [s] has no ['~'], the separator of the composite name. *)
Definition no_tilde (s : string) : bool :=
  forallb (fun c => negb (Ascii.eqb c "~"%char)) (list_ascii_of_string s).

(** ** Further statements: the reconciler *)

(** The field patches that are due for a fetched record, in the order in
    which [reconcileAPI] of the current edition compares the fields. *)
Definition duePatches (api : Kong.Api.t) (ingressRule : IngressRule)
    (ingressPath : HTTPIngressPath) (namespace : string) : list Kong.Call :=
  let id := Kong.Api.ID api in
  let url := Composite.getUpstreamURL ingressPath namespace in
  (if negb (String.eqb (Kong.Api.UpstreamURL api) url)
   then [Kong.Patch (Composite.patchUpstreamURL id url)] else [])
  ++ (if Composite.hostsDrift (Kong.Api.Hosts api) (Host ingressRule)
      then [Kong.Patch (Composite.patchHosts id (Host ingressRule))] else [])
  ++ (if negb (Kong.Api.PreserveHost api)
      then [Kong.Patch (Composite.patchPreserveHost id)] else [])
  ++ (match Kong.Api.StripURI api with
      | Some true => [Kong.Patch (Composite.patchStripURI id)]
      | _ => []
      end)
  ++ (if Composite.urisDrift (Kong.Api.Uris api) (Path ingressPath)
      then [Kong.Patch (Composite.patchUris id (Path ingressPath))] else []).

(** [c] issues a prefix of [due], and all of [due] when it returns [nil]. *)
Definition runsPrefix {K : Type} (c : Op K (option error)) (due : list Kong.Call) : Prop :=
  forall w, exists l,
    calls (c w).2 = calls w ++ l
    /\ l `prefix_of` due
    /\ ((c w).1 = Done None -> l = due).

(** What [reconcileAPI] may issue after its GET, given the answer to the
    GET: a POST of the projected record on status 404; on an existing record
    a prefix of the due patches, all of them if it returns [nil]; nothing
    in every other case. *)
Definition reconcileRequests (answer : option Kong.Api.t * option Kong.Response * option error)
    (ingressRule : IngressRule) (ingressPath : HTTPIngressPath) (namespace : string)
    (res : outcome (option error)) (l : list Kong.Call) : Prop :=
  match answer with
  | (api, Some r, err) =>
      if (Kong.StatusCode r =? Kong.StatusNotFound)%Z
      then l = [Kong.Post (Composite.apiRequestFromIngress ingressRule ingressPath namespace)]
      else match err, api with
           | None, Some a =>
               l `prefix_of` duePatches a ingressRule ingressPath namespace
               /\ (res = Done None -> l = duePatches a ingressRule ingressPath namespace)
           | _, _ => l = []
           end
  | (_, None, _) => l = []
  end.

(** The record satisfies invariant I1 for the pair. *)
Definition inSync (api : Kong.Api.t) (ingressRule : IngressRule)
    (ingressPath : HTTPIngressPath) (namespace : string) : Prop :=
  Kong.Api.UpstreamURL api = upstreamURL_of ingressPath namespace
  /\ Kong.Api.Hosts api = [Host ingressRule]
  /\ Kong.Api.PreserveHost api = true
  /\ Kong.Api.StripURI api = Some false
  /\ Kong.Api.Uris api = [Path ingressPath].

(** The two branches of [reconcileAPI] of the current edition after the GET:
    the creation of a missing record, and the field patches of a fetched
    one. *)
Definition createAPI {K : Type} (kongClient : Kong.Client K) (ingressRule : IngressRule)
    (ingressPath : HTTPIngressPath) (namespace : string) : Op K (option error) :=
  let apiName := Composite.getQualifiedAPIName (Host ingressRule) (Path ingressPath) namespace in
  let kongAPI := Composite.apiRequestFromIngress ingressRule ingressPath namespace in
  let* (_, err) := request (Kong.Post kongAPI) (Kong.Apis_Post kongClient kongAPI) in
  match err with
  | Some e => ret (Some (ErrorWrapf e ("Failed to create API '" +:+ apiName +:+ "'")))
  | None => ret None
  end.

Definition updateAPI {K : Type} (kongClient : Kong.Client K) (api : Kong.Api.t)
    (ingressRule : IngressRule) (ingressPath : HTTPIngressPath) (namespace : string)
    : Op K (option error) :=
  let apiName := Composite.getQualifiedAPIName (Host ingressRule) (Path ingressPath) namespace in
  let correctUpstreamURL := Composite.getUpstreamURL ingressPath namespace in
  (Composite.patchIf kongClient
     (negb (String.eqb (Kong.Api.UpstreamURL api) correctUpstreamURL))
     (Composite.patchUpstreamURL (Kong.Api.ID api) correctUpstreamURL) apiName ;;;
   Composite.patchIf kongClient
     (Composite.hostsDrift (Kong.Api.Hosts api) (Host ingressRule))
     (Composite.patchHosts (Kong.Api.ID api) (Host ingressRule)) apiName ;;;
   Composite.patchIf kongClient (negb (Bool.eqb (Kong.Api.PreserveHost api) true))
     (Composite.patchPreserveHost (Kong.Api.ID api)) apiName ;;;
   (let* stripURI := deref (Kong.Api.StripURI api) in
    Composite.patchIf kongClient (negb (Bool.eqb stripURI false))
      (Composite.patchStripURI (Kong.Api.ID api)) apiName) ;;;
   Composite.patchIf kongClient
     (Composite.urisDrift (Kong.Api.Uris api) (Path ingressPath))
     (Composite.patchUris (Kong.Api.ID api) (Path ingressPath)) apiName).

(** [reconcileAPI] after its GET was answered with [answer]. *)
Definition afterGet {K : Type} (kongClient : Kong.Client K)
    (answer : option Kong.Api.t * option Kong.Response * option error)
    (ingressRule : IngressRule) (ingressPath : HTTPIngressPath) (namespace : string)
    : Op K (option error) :=
  let apiName := Composite.getQualifiedAPIName (Host ingressRule) (Path ingressPath) namespace in
  match answer with
  | (_, None, Some e) =>
      ret (Some (ErrorWrapf e ("Failed to fetch API '" +:+ apiName +:+ "'")))
  | (_, None, None) => panic
  | (api, Some r, err) =>
      if (Kong.StatusCode r =? Kong.StatusNotFound)%Z
      then createAPI kongClient ingressRule ingressPath namespace
      else match err, api with
           | Some e, _ =>
               ret (Some (ErrorWrapf e ("Failed to fetch API '" +:+ apiName +:+ "'")))
           | None, Some a => updateAPI kongClient a ingressRule ingressPath namespace
           | None, None => panic
           end
  end.

(** ** Further statements: the dispatcher *)

Definition isGet (c : Kong.Call) : bool :=
  match c with Kong.Get _ => true | _ => false end.

Definition isWrite (c : Kong.Call) : bool :=
  match c with Kong.Post _ | Kong.Patch _ => true | _ => false end.

Definition isDelete (c : Kong.Call) : bool :=
  match c with Kong.Delete _ => true | _ => false end.

(** The (rule, path) pairs of an ingress, in the order of the nested loops,
    and their qualified names. *)
Definition pairs (ingress : Ingress) : list (IngressRule * HTTPIngressPath) :=
  flat_map (fun rule => match HTTP rule with
                        | Some http => map (pair rule) (Paths http)
                        | None => []
                        end)
    (Rules (Spec ingress)).

Definition pairNames (ingress : Ingress) : list string :=
  map (fun rp => Composite.getQualifiedAPIName (Host rp.1) (Path rp.2)
                   (Namespace (Meta ingress)))
    (pairs ingress).

(** The client keeps its contract: a GET without error comes with a record
    and a response. *)
Definition answers {K : Type} (kongClient : Kong.Client K) : Prop :=
  forall name g,
    match (Kong.Apis_Get kongClient name g).1 with
    | (Some _, Some _, None) => True
    | (_, _, Some _) => True
    | _ => False
    end.

(** [c] does not panic and sends POSTs and PATCHes only. *)
Definition writesOnly {K : Type} (c : Op K (option error)) : Prop :=
  forall w, exists res w' l,
    c w = (Done res, w') /\ calls w' = calls w ++ l /\ forallb isWrite l = true.

Definition getOrWrite (c : Kong.Call) : bool := isGet c || isWrite c.

(** ** Further statements: deletes and the reaper loop *)

(** The store without the records named in [names]. *)
Definition purge (names : list string) (g : list Kong.Api.t) : list Kong.Api.t :=
  List.filter (fun a => negb (existsb (String.eqb (Kong.Api.Name a)) names)) g.

(** [apiReaper]: the loop body runs once for every iteration that finds the
    context not cancelled; [listings] holds what the cluster answers to the
    ingress listing in each of them.  The error of a cycle is logged and
    dropped; the sleep between two cycles does not show in the model. *)
Definition apiReaper {K : Type} (kongClient : Kong.Client K)
    (listings : list (option (list Ingress) * option error)) : Op K unit :=
  forEach listings (fun listed =>
    let* _ := Composite.reapOrphanedApis kongClient listed in ret tt).

(** ** Certificates (current edition)

    The current edition also copies the TLS certificates of an ingress from
    cluster secrets to the gateway.  [Spec.TLS], which [IngressSpec] leaves
    out, is passed beside the ingress. *)

Module Tls.

(** [strings.Trim(s, cutset)] for a cutset of one byte:
    [trimLeftByte(trimRightByte(s, c), c)]. *)
Fixpoint trimLeftByte (s : string) (c : ascii) : string :=
  match s with
  | String x s' => if Ascii.eqb x c then trimLeftByte s' c else s
  | EmptyString => EmptyString
  end.

Fixpoint trimRightByte (s : string) (c : ascii) : string :=
  match s with
  | String x s' =>
      match trimRightByte s' c with
      | EmptyString => if Ascii.eqb x c then EmptyString else String x EmptyString
      | t => String x t
      end
  | EmptyString => EmptyString
  end.

Definition Trim (s : string) (c : ascii) : string :=
  trimLeftByte (trimRightByte s c) c.

Definition trimSet : ascii := "010"%char.

(** [v1beta1.IngressTLS], [v1.Secret] (its [Data] is a [map[string][]byte];
    a missing key reads as the empty byte string). *)
Record IngressTLS : Type := mkIngressTLS
  { Hosts : list string;
    SecretName : string }.

Record Secret : Type := mkSecret { Data : gmap string string }.

Definition bytes (data : gmap string string) (key : string) : string :=
  match data !! key with
  | Some b => b
  | None => ""
  end.

(** [kong.Certificate] and [kong.CertificateRequest]. *)
Module Certificate.
Record t : Type := mk
  { ID : string;
    Cert : string;
    Key : string }.
End Certificate.

Module CertificateRequest.
Record t : Type := mk
  { Cert : string;
    Key : string;
    Snis : string }.
End CertificateRequest.

(** [kong.Client.Certificates]. *)
Record CertClient (K : Type) : Type := mkCertClient
  { Certificates_Get :
      string -> K -> (option Certificate.t * option Kong.Response * option error) * K;
    Certificates_Post :
      CertificateRequest.t -> K -> (option Kong.Response * option error) * K;
    Certificates_Patch :
      CertificateRequest.t -> string -> K -> (option Kong.Response * option error) * K }.
Arguments Certificates_Get {K} _ _ _.
Arguments Certificates_Post {K} _ _ _.
Arguments Certificates_Patch {K} _ _ _ _.

(** What [coreClient.Get().Namespace(ns).Resource("secrets").Name(n).Do().Get()]
    returns, as a function of namespace and name. *)
Definition Secrets : Type := string -> string -> option Secret * option error.

(** Everything a handler of this edition asks for, in order. *)
Inductive Event : Type :=
| Api (c : Kong.Call)
| SecretGet (namespace name : string)
| CertGet (host : string)
| CertPost (body : CertificateRequest.t)
| CertPatch (body : CertificateRequest.t) (id : string).

Record World (K : Type) : Type := mkWorld
  { gateway : K;
    events : list Event }.
Arguments mkWorld {K} _ _.
Arguments gateway {K} _.
Arguments events {K} _.

Definition Op (K A : Type) : Type := World K -> outcome A * World K.

Definition ret {K A} (a : A) : Op K A := fun w => (Done a, w).

Definition panic {K A} : Op K A := fun w => (Panic, w).

Definition bind {K A B} (c : Op K A) (k : A -> Op K B) : Op K B :=
  fun w =>
    match c w with
    | (Done a, w') => k a w'
    | (Panic, w') => (Panic, w')
    end.

Definition deref {K A} (p : option A) : Op K A :=
  match p with
  | Some a => ret a
  | None => panic
  end.

(** A request to the gateway, and a read of the cluster. *)
Definition request {K A} (e : Event) (f : K -> A * K) : Op K A :=
  fun w =>
    let '(a, g) := f (gateway w) in
    (Done a, mkWorld g (events w ++ [e])).

Definition read {K A} (e : Event) (a : A) : Op K A :=
  fun w => (Done a, mkWorld (gateway w) (events w ++ [e])).

(** Code of the API reconciler run inside a handler of this edition: its
    calls are appended to the events. *)
Definition api {K A} (c : Run.Op K A) : Op K A :=
  fun w =>
    let '(o, w') := c (Run.mkWorld (gateway w) []) in
    (o, mkWorld (Run.gateway w') (events w ++ map Api (Run.calls w'))).

Fixpoint forEach {K A} (l : list A) (body : A -> Op K unit) : Op K unit :=
  match l with
  | [] => ret tt
  | x :: l' => bind (body x) (fun _ => forEach l' body)
  end.

Section WithClients.
Context {K : Type} (kongClient : Kong.Client K) (certClient : CertClient K)
  (coreClient : Secrets).

Definition reconcileCertificate (ingressTLS : IngressTLS) (namespace : string)
    : Op K (option error) :=
  bind
    (forEach (Hosts ingressTLS) (fun host =>
       bind (read (SecretGet namespace (SecretName ingressTLS))
               (coreClient namespace (SecretName ingressTLS)))
         (fun '(secretObject, err) =>
       match err with
       | Some _ => ret tt
       | None =>
           bind (deref secretObject) (fun secret =>
           bind (request (CertGet host) (Certificates_Get certClient host))
             (fun '(kongCertificate, _, err) =>
           let secretCertString := bytes (Data secret) "tls.crt" in
           let secretKeyString := bytes (Data secret) "tls.key" in
           match err with
           | Some _ =>
               let body := CertificateRequest.mk secretCertString secretKeyString host in
               bind (request (CertPost body) (Certificates_Post certClient body))
                 (fun _ => ret tt)
           | None =>
               bind (deref kongCertificate) (fun kongCertificate =>
               if negb (String.eqb (Trim (Certificate.Cert kongCertificate) trimSet)
                          (Trim secretCertString trimSet))
                  || negb (String.eqb (Trim (Certificate.Key kongCertificate) trimSet)
                             (Trim secretKeyString trimSet))
               then
                 let body := CertificateRequest.mk secretCertString secretKeyString "" in
                 bind (request (CertPatch body (Certificate.ID kongCertificate))
                         (Certificates_Patch certClient body
                            (Certificate.ID kongCertificate)))
                   (fun _ => ret tt)
               else ret tt)
           end))
       end)))
    (fun _ => ret None).

Definition ingressChanged (ingress : Ingress) (tls : list IngressTLS) : Op K unit :=
  if negb (Composite.ingressIsFairGame ingress) then ret tt
  else
    match Composite.validateIngressSupported ingress with
    | Some _ => ret tt
    | None =>
        forEach (Rules (Spec ingress)) (fun ingressRule =>
          bind (deref (HTTP ingressRule)) (fun http =>
          forEach (Paths http) (fun ingressPath =>
            bind (api (Composite.reconcileAPI kongClient ingressRule ingressPath
                         (Namespace (Meta ingress))))
              (fun _ =>
            forEach tls (fun ingressTLS =>
              bind (reconcileCertificate ingressTLS (Namespace (Meta ingress)))
                (fun _ => ret tt))))))
    end.

Definition ingressUpdated (previousObj newObj : Ingress) (tls : list IngressTLS)
    : Op K unit :=
  ingressChanged newObj tls.

End WithClients.

End Tls.

(** ** Further statements: certificates *)

(** [n] newlines, and strings that differ only in leading and trailing
    newlines. *)
Fixpoint newlines (n : nat) : string :=
  match n with
  | O => EmptyString
  | S n' => String Tls.trimSet (newlines n')
  end.

Definition sameUpToNewlines (a b : string) : Prop :=
  exists core pa sa pb sb,
    a = newlines pa +:+ core +:+ newlines sa
    /\ b = newlines pb +:+ core +:+ newlines sb.

Definition isSecretGet (e : Tls.Event) : bool :=
  match e with Tls.SecretGet _ _ => true | _ => false end.

(** The contract of the clients of the current edition: a GET without error
    comes with a response and a record that carries [strip_uri]; a secret or
    a certificate fetched without error is there. *)
Definition answersFully {K : Type} (kongClient : Kong.Client K) : Prop :=
  forall name g,
    match (Kong.Apis_Get kongClient name g).1 with
    | (Some a, Some _, None) => Kong.Api.StripURI a <> None
    | (_, _, Some _) => True
    | _ => False
    end.

Definition certContract {K : Type} (certClient : Tls.CertClient K)
    (coreClient : Tls.Secrets) : Prop :=
  (forall namespace name,
     match coreClient namespace name with
     | (None, None) => False
     | _ => True
     end)
  /\ (forall host g,
        match (Tls.Certificates_Get certClient host g).1 with
        | (None, _, None) => False
        | _ => True
        end).

(** The body of the loop of [reconcileCertificate], for one host, and the
    loop over some hosts. *)
Definition certStep {K : Type} (certClient : Tls.CertClient K) (coreClient : Tls.Secrets)
    (ingressTLS : Tls.IngressTLS) (namespace : string) (host : string) : Tls.Op K unit :=
  Tls.bind (Tls.read (Tls.SecretGet namespace (Tls.SecretName ingressTLS))
              (coreClient namespace (Tls.SecretName ingressTLS)))
    (fun '(secretObject, err) =>
  match err with
  | Some _ => Tls.ret tt
  | None =>
      Tls.bind (Tls.deref secretObject) (fun secret =>
      Tls.bind (Tls.request (Tls.CertGet host) (Tls.Certificates_Get certClient host))
        (fun '(kongCertificate, _, err) =>
      let secretCertString := Tls.bytes (Tls.Data secret) "tls.crt" in
      let secretKeyString := Tls.bytes (Tls.Data secret) "tls.key" in
      match err with
      | Some _ =>
          let body := Tls.CertificateRequest.mk secretCertString secretKeyString host in
          Tls.bind (Tls.request (Tls.CertPost body) (Tls.Certificates_Post certClient body))
            (fun _ => Tls.ret tt)
      | None =>
          Tls.bind (Tls.deref kongCertificate) (fun kongCertificate =>
          if negb (String.eqb (Tls.Trim (Tls.Certificate.Cert kongCertificate) Tls.trimSet)
                     (Tls.Trim secretCertString Tls.trimSet))
             || negb (String.eqb (Tls.Trim (Tls.Certificate.Key kongCertificate) Tls.trimSet)
                        (Tls.Trim secretKeyString Tls.trimSet))
          then
            let body := Tls.CertificateRequest.mk secretCertString secretKeyString "" in
            Tls.bind (Tls.request (Tls.CertPatch body (Tls.Certificate.ID kongCertificate))
                        (Tls.Certificates_Patch certClient body
                           (Tls.Certificate.ID kongCertificate)))
              (fun _ => Tls.ret tt)
          else Tls.ret tt)
      end))
  end).

Definition certLoop {K : Type} (certClient : Tls.CertClient K) (coreClient : Tls.Secrets)
    (ingressTLS : Tls.IngressTLS) (namespace : string) (hosts : list string)
    : Tls.Op K unit :=
  Tls.forEach hosts (certStep certClient coreClient ingressTLS namespace).

Definition isCertCall (e : Tls.Event) : bool :=
  match e with
  | Tls.CertGet _ | Tls.CertPost _ | Tls.CertPatch _ _ => true
  | _ => false
  end.

(** The certificate and the key of a secret, as [reconcileCertificate] reads
    them. *)
Definition secretCert (secret : Tls.Secret) : string := Tls.bytes (Tls.Data secret) "tls.crt".
Definition secretKey (secret : Tls.Secret) : string := Tls.bytes (Tls.Data secret) "tls.key".

(** The certificate of the gateway differs from the secret in more than
    leading and trailing newlines. *)
Definition stale (c : Tls.Certificate.t) (secret : Tls.Secret) : Prop :=
  Tls.Trim (Tls.Certificate.Cert c) Tls.trimSet <> Tls.Trim (secretCert secret) Tls.trimSet
  \/ Tls.Trim (Tls.Certificate.Key c) Tls.trimSet <> Tls.Trim (secretKey secret) Tls.trimSet.

(** The secret fetches of one certificate sync: one per host of the entry. *)
Definition secretFetches (namespace : string) (tls : list Tls.IngressTLS) : list Tls.Event :=
  flat_map (fun t => map (fun _ => Tls.SecretGet namespace (Tls.SecretName t)) (Tls.Hosts t))
    tls.

(** Test doubles for the cluster and for the certificate end point of the
    gateway: a cluster that holds one secret under every name, and one that
    holds none; a gateway without certificates, and one that answers every
    certificate GET with the same certificate.  Writes are accepted. *)
Module StubCerts.

Definition secrets (secret : Tls.Secret) : Tls.Secrets :=
  fun _ _ => (Some secret, None).

Definition noSecrets : Tls.Secrets :=
  fun _ _ => (None, Some (ErrorNew "secrets not found")).

Definition accept {K : Type} (g : K) : (option Kong.Response * option error) * K :=
  ((MemKong.answer 200, None), g).

Definition absent {K : Type} : Tls.CertClient K :=
  Tls.mkCertClient K
    (fun _ g => ((None, MemKong.answer 404, Some (ErrorHTTP 404)), g))
    (fun _ g => accept g)
    (fun _ _ g => accept g).

Definition holding {K : Type} (c : Tls.Certificate.t) : Tls.CertClient K :=
  Tls.mkCertClient K
    (fun _ g => ((Some c, MemKong.answer 200, None), g))
    (fun _ g => accept g)
    (fun _ _ g => accept g).

End StubCerts.

Definition shopSecret : Tls.Secret :=
  Tls.mkSecret (<[ "tls.crt" := "CERT" ]> (<[ "tls.key" := "KEY" ]> ∅)).

Definition shopTLS : Tls.IngressTLS :=
  Tls.mkIngressTLS ["shop.example.com"; "www.example.com"] "shop-tls".

(** An event of a certificate sync: a secret fetch or a request to the
    certificate end point. *)
Definition isSync (e : Tls.Event) : bool := isSecretGet e || isCertCall e.

(** What the handler of the current edition logs for one (rule, path)
    pair: first the requests of the API reconcile, the GET of the pair's
    name and then writes only; then the events of one certificate sync of
    every TLS entry, with its secret fetches. *)
Definition pairBlock (namespace : string) (tls : list Tls.IngressTLS)
    (rp : IngressRule * HTTPIngressPath) (b : list Kong.Call * list Tls.Event) : Prop :=
  (exists ws,
     b.1 = Kong.Get (Composite.getQualifiedAPIName (Host rp.1) (Path rp.2) namespace) :: ws
     /\ forallb isWrite ws = true)
  /\ forallb isSync b.2 = true
  /\ List.filter isSecretGet b.2 = secretFetches namespace tls.

Definition blockEvents (b : list Kong.Call * list Tls.Event) : list Tls.Event :=
  map Tls.Api b.1 ++ b.2.

(** ** Further statements: the checksum *)

(** Adler-32 in the words of RFC 1950: [A] is 1 plus the sum of the bytes,
    [B] is the sum of the values [A] takes after each byte, both modulo
    65521; the checksum is [B * 65536 + A].  For [n] bytes the sum of the
    running values of [A] is [n] plus every byte weighted by the number of
    bytes from it to the end. *)
Fixpoint byteSum (p : list ascii) : N :=
  match p with
  | [] => 0
  | x :: p' => N_of_ascii x + byteSum p'
  end.

Fixpoint weightedSum (p : list ascii) : N :=
  match p with
  | [] => 0
  | x :: p' => N.of_nat (length p) * N_of_ascii x + weightedSum p'
  end.

Definition adler32_rfc (data : string) : N :=
  let p := list_ascii_of_string data in
  let A := (1 + byteSum p) mod 65521 in
  let B := (N.of_nat (length p) + weightedSum p) mod 65521 in
  B * 65536 + A.

(** ** Further statements: the reaper of the simple form *)

(** The expected names of the simple form in the specification's words:
    the qualified name of an eligible listed ingress that has a
    (rule, path) pair. *)
Definition claimed_expected_simple (items : list Ingress) (n : string) : Prop :=
  exists ingress rule http path,
    In ingress items /\ Composite.ingressIsFairGame ingress = true /\
    In rule (Rules (Spec ingress)) /\ HTTP rule = Some http /\ In path (Paths http) /\
    n = Simple.getQualifiedName ingress.

(** An ingress of another controller's class, and an ingress without
    rules. *)
Definition webNginx : Ingress :=
  mkIngress (mkObjectMeta "web" "prod" {[ "kubernetes.io/ingress.class" := "nginx" ]})
    (mkIngressSpec None
       [mkIngressRule "web.example.com"
          (Some (mkHTTPIngressRuleValue
             [mkHTTPIngressPath "/" (mkIngressBackend "web" (FromInt 80))]))]).

Definition bareIngress : Ingress :=
  mkIngress (mkObjectMeta "bare" "prod" ∅) (mkIngressSpec None []).

(** ** Further statements: the field patches *)

(** One conditional PATCH of [reconcileAPI] on gateway state [g]: what it
    sends, the error the client reports, and the state it leaves. *)
Record PatchStep (K : Type) : Type := mkPatchStep
  { sent : list Kong.Call;
    failed : option error;
    after : K }.
Arguments mkPatchStep {K} _ _ _.
Arguments sent {K} _.
Arguments failed {K} _.
Arguments after {K} _.

Definition patchStep {K : Type} (kongClient : Kong.Client K) (drift : bool)
    (body : Kong.ApiRequest.t) (g : K) : PatchStep K :=
  if drift
  then mkPatchStep [Kong.Patch body] (Kong.Apis_Patch kongClient body g).1.2
         (Kong.Apis_Patch kongClient body g).2
  else mkPatchStep [] None g.

(** * Theorems *)

(** ** The Go library functions on known values *)

Example adler32_root : adler32_Checksum "/" = 0x300030.
Proof. reflexivity. Qed.

Example adler32_wikipedia : adler32_Checksum "Wikipedia" = 0x11E60398.
Proof. reflexivity. Qed.

Example FormatUint16_root : FormatUint16 0x300030 = "300030".
Proof. reflexivity. Qed.

Example FormatUint16_zero : FormatUint16 0 = "0".
Proof. reflexivity. Qed.

Example FormatUint16_max : FormatUint16 (2 ^ 64 - 1) = "ffffffffffffffff".
Proof. reflexivity. Qed.

Example Itoa_port : Itoa 32000 = "32000".
Proof. reflexivity. Qed.

Example Itoa_neg : Itoa (-7) = "-7".
Proof. reflexivity. Qed.

(** ** Identity: the composite name and its checksum *)

Section Adler32.

Lemma adler32_update_bounded p : forall d,
  d.1 < adler32_mod -> d.2 < adler32_mod ->
  (adler32_update d p).1 < adler32_mod /\ (adler32_update d p).2 < adler32_mod.
Proof.
  induction p as [|x p IH]; intros d H1 H2; [now split|].
  cbn [adler32_update fold_left]. apply IH; cbn [adler32_step fst snd].
  - apply N.mod_lt. discriminate.
  - apply N.mod_lt. discriminate.
Qed.

Lemma lor_below n x y : x < 2 ^ n -> y < 2 ^ n -> N.lor x y < 2 ^ n.
Proof.
  intros Hx Hy.
  destruct (N.eq_dec x 0) as [->|Nx]; [now rewrite N.lor_0_l|].
  destruct (N.eq_dec y 0) as [->|Ny]; [now rewrite N.lor_0_r|].
  assert (Nl : N.lor x y <> 0) by (intros E; apply N.lor_eq_0_iff in E; tauto).
  apply N.log2_lt_pow2; [lia|].
  rewrite N.log2_lor.
  apply N.log2_lt_pow2 in Hx; [|lia]. apply N.log2_lt_pow2 in Hy; [|lia]. lia.
Qed.

Lemma adler32_Checksum_uint32 data : adler32_Checksum data < 2 ^ 32.
Proof.
  unfold adler32_Checksum.
  destruct (adler32_update_bounded (list_ascii_of_string data) (1, 0)) as [H1 H2];
    [reflexivity | reflexivity |].
  unfold adler32_mod in *.
  apply lor_below; [|lia].
  rewrite N.shiftl_mul_pow2. change (2 ^ 32) with (2 ^ 16 * 2 ^ 16).
  apply N.mul_lt_mono_pos_r; lia.
Qed.

End Adler32.

Section FormatUint.

Lemma hexval_digit d : d < 16 -> hexval (digit d) = Some d.
Proof.
  intros H.
  assert (E : d = 0 \/ d = 1 \/ d = 2 \/ d = 3 \/ d = 4 \/ d = 5 \/ d = 6 \/ d = 7 \/
              d = 8 \/ d = 9 \/ d = 10 \/ d = 11 \/ d = 12 \/ d = 13 \/ d = 14 \/
              d = 15) by lia.
  repeat (destruct E as [-> | E]; [reflexivity|]). now subst.
Qed.

(** Printing [u] in front of [a] and reading the result back continues
    from [acc * 16^k + u], [k] being the number of digits printed. *)
Lemma parseHexFrom_formatBits16 fuel : forall u a,
  u < 16 ^ N.of_nat fuel ->
  exists k, forall acc,
    parseHexFrom acc (formatBits16 fuel u a) = parseHexFrom (acc * 16 ^ k + u) a.
Proof.
  induction fuel as [|fuel IH]; intros u a Hu.
  - exists 0. intros acc. cbn in Hu. assert (u = 0) as -> by lia.
    cbn [formatBits16]. f_equal. lia.
  - cbn [formatBits16]. destruct (N.leb_spec 16 u) as [Hge|Hlt].
    + assert (Hdiv : N.shiftr u 4 < 16 ^ N.of_nat fuel).
      { rewrite N.shiftr_div_pow2. change (2 ^ 4) with 16.
        apply N.Div0.div_lt_upper_bound.
        rewrite Nat2N.inj_succ, N.pow_succ_r' in Hu. lia. }
      destruct (IH (N.shiftr u 4) (String (digit (N.land u 15)) a) Hdiv) as [k Hk].
      exists (N.succ k). intros acc. rewrite Hk. cbn [parseHexFrom].
      change 15 with (N.ones 4). rewrite N.land_ones. change (2 ^ 4) with 16.
      rewrite hexval_digit by (apply N.mod_lt; discriminate).
      f_equal. rewrite N.shiftr_div_pow2. change (2 ^ 4) with 16.
      rewrite N.pow_succ_r'. pose proof (N.div_mod u 16). lia.
    + exists 1. intros acc. cbn [parseHexFrom]. rewrite hexval_digit by exact Hlt.
      f_equal.
Qed.

Lemma formatBits16_nonempty fuel u : formatBits16 (S fuel) u "" <> "".
Proof.
  assert (G : forall f v a, a <> "" -> formatBits16 f v a <> "").
  { induction f as [|f IH]; intros v a Ha; cbn [formatBits16]; [exact Ha|].
    destruct (16 <=? v); [apply IH|]; discriminate. }
  cbn [formatBits16]. destruct (16 <=? u); [apply G|]; discriminate.
Qed.

Lemma parseHex_FormatUint16 u : u < 2 ^ 64 -> parseHex (FormatUint16 u) = Some u.
Proof.
  intros Hu. unfold FormatUint16.
  destruct (parseHexFrom_formatBits16 16 u "") as [k Hk]; [exact Hu|].
  pose proof (formatBits16_nonempty 15 u) as Hne.
  unfold parseHex. destruct (formatBits16 16 u "") eqn:E; [congruence|].
  rewrite Hk. cbn [parseHexFrom]. f_equal.
Qed.

Lemma parseHexFrom_lower_hex s : forall acc v,
  parseHexFrom acc s = Some v ->
  forallb is_lower_hex (list_ascii_of_string s) = true.
Proof.
  induction s as [|c s IH]; intros acc v H; [reflexivity|].
  cbn [parseHexFrom] in H. cbn [list_ascii_of_string forallb].
  unfold is_lower_hex at 1. destruct (hexval c); [|discriminate].
  cbn. eapply IH, H.
Qed.

End FormatUint.

Example getQualifiedAPIName_root :
  Composite.getQualifiedAPIName "bestservice.somedomain" "/" "prod"
  = "bestservice.somedomain~300030~prod".
Proof. reflexivity. Qed.

(** ** Eligibility *)

(** C7. [ingressIsFairGame] holds exactly when the ingress-class annotation
    is absent or is present with the value ["kong"]; an ingress without any
    annotation is eligible. *)
Theorem ingressIsFairGame_iff (ingress : Ingress) :
  (Composite.ingressIsFairGame ingress = true <->
     Annotations (Meta ingress) !! "kubernetes.io/ingress.class" = None \/
     Annotations (Meta ingress) !! "kubernetes.io/ingress.class" = Some "kong")
  /\ Composite.ingressIsFairGame
       (mkIngress (mkObjectMeta (Name (Meta ingress)) (Namespace (Meta ingress)) ∅)
                  (Spec ingress)) = true.
Proof.
  split; [|reflexivity].
  unfold Composite.ingressIsFairGame, Composite.ingressClassAnnotationName,
    Composite.kongIngressControllerClass.
  destruct (Annotations (Meta ingress) !! "kubernetes.io/ingress.class") as [v|] eqn:E.
  - rewrite orb_false_r, andb_true_l, String.eqb_eq. split.
    + intros ->. now right.
    + intros [H|H]; [discriminate | congruence].
  - split; [now left | reflexivity].
Qed.

Example ingressIsFairGame_other_class :
  Composite.ingressIsFairGame
    (mkIngress (mkObjectMeta "web" "prod" {[ "kubernetes.io/ingress.class" := "nginx" ]})
               (mkIngressSpec None [])) = false.
Proof. reflexivity. Qed.

Example ingressIsFairGame_kong_class :
  Composite.ingressIsFairGame
    (mkIngress (mkObjectMeta "web" "prod" {[ "kubernetes.io/ingress.class" := "kong" ]})
               (mkIngressSpec None [])) = true.
Proof. reflexivity. Qed.

(** ** Validation *)

(** C9, as stated, fails in simple form: the pathless ingress is rejected
    although it has no default backend, exactly one rule, not more than one
    path and no path different from ["/"]. *)
Lemma validateIngressSupported_pathless :
  rejects (Simple.validateIngressSupported pathlessIngress)
  /\ ~ claimed_unsupported_simple pathlessIngress.
Proof.
  split.
  - eexists. reflexivity.
  - intros [H | [H | (rule & http & HR & HH & H)]].
    + now apply H.
    + now apply H.
    + cbn in HR. injection HR as <-. cbn in HH. injection HH as <-.
      destruct H as [H | (path & [] & _)]. cbn in H. lia.
Qed.

Lemma validate_simple_cases (ingress : Ingress) :
  (rejects (Simple.validateIngressSupported ingress) /\ unsupported_simple ingress)
  \/ (Simple.validateIngressSupported ingress = Done None /\ supported_simple ingress)
  \/ (Simple.validateIngressSupported ingress = Panic /\
      SpecBackend (Spec ingress) = None /\
      exists rule, Rules (Spec ingress) = [rule] /\ HTTP rule = None).
Proof.
  unfold Simple.validateIngressSupported, unsupported_simple, supported_simple, rejects.
  destruct ingress as [meta [backend rules]]; cbn [Spec SpecBackend Rules].
  destruct backend as [b|].
  { left. split; [eexists; reflexivity | left; discriminate]. }
  destruct rules as [|rule [|rule' rules]]; cbn.
  { left. split; [eexists; reflexivity | right; left; discriminate]. }
  2:{ left. split; [eexists; reflexivity | right; left; discriminate]. }
  destruct rule as [host [[paths]|]]; cbn.
  2:{ right; right. repeat split. eexists. split; reflexivity. }
  destruct paths as [|path [|path' paths]]; cbn.
  { left. split; [eexists; reflexivity|].
    right; right. do 2 eexists. repeat split. left. cbn. discriminate. }
  2:{ left. split; [eexists; reflexivity|].
      right; right. do 2 eexists. repeat split. left. cbn. discriminate. }
  destruct (String.eqb_spec (Path path) "/") as [E|NE]; cbn.
  - right; left. repeat split. do 2 eexists. repeat split. exact E.
  - left. split; [eexists; reflexivity|].
    right; right. do 2 eexists. repeat split. right. eexists. split; [reflexivity|exact NE].
Qed.

(** C9 (amended). In composite form validation fails exactly on a default
    backend and succeeds otherwise.  In simple form it fails exactly on a
    default backend, on a number of rules different from one, or when the
    single rule has a number of paths different from one or its only path is
    not ["/"]; it succeeds exactly on one rule with the one path ["/"]. *)
Theorem validateIngressSupported_iff (ingress : Ingress) :
  ((exists e, Composite.validateIngressSupported ingress = Some e) <->
     SpecBackend (Spec ingress) <> None)
  /\ (Composite.validateIngressSupported ingress = None <->
        SpecBackend (Spec ingress) = None)
  /\ (rejects (Simple.validateIngressSupported ingress) <-> unsupported_simple ingress)
  /\ (Simple.validateIngressSupported ingress = Done None <-> supported_simple ingress).
Proof.
  split; [|split].
  - unfold Composite.validateIngressSupported.
    destruct (SpecBackend (Spec ingress)); split; try congruence.
    + intros _. eexists. reflexivity.
    + intros [e H]. discriminate.
  - unfold Composite.validateIngressSupported.
    destruct (SpecBackend (Spec ingress)); split; congruence.
  - assert (X : unsupported_simple ingress -> supported_simple ingress -> False).
    { intros [U | [U | (r & h & UR & UH & U)]] (SB & r' & p & SR & SH & SP).
      - contradiction.
      - rewrite SR in U. now apply U.
      - rewrite SR in UR. injection UR as <-. rewrite SH in UH. injection UH as <-.
        destruct U as [U | (p' & E & U)]; [now apply U|].
        cbn in E. injection E as <-. contradiction. }
    destruct (validate_simple_cases ingress)
      as [[[e R] U] | [[R S] | (R & B & rule & HR & HH)]]; rewrite R.
    + split; split; try (intros; assumption); try (eexists; reflexivity).
      * discriminate.
      * intros S. destruct (X U S).
    + split; split; try (intros; assumption); try reflexivity.
      * intros [e E]. discriminate.
      * intros U. destruct (X U S).
    + split; split.
      * intros [e E]. discriminate.
      * intros [U | [U | (r & h & UR & UH & _)]].
        -- contradiction.
        -- rewrite HR in U. destruct U. reflexivity.
        -- rewrite HR in UR. injection UR as <-. congruence.
      * discriminate.
      * intros (_ & r & p & SR & SH & _). rewrite HR in SR. injection SR as <-. congruence.
Qed.

(** ** Projection: the desired upstream URL *)

(** The current composite edition projects every pair onto the backend of
    its own path. *)
Lemma Composite_upstreamURL_of_path rule path namespace :
  Kong.ApiRequest.UpstreamURL (Composite.apiRequestFromIngress rule path namespace)
  = upstreamURL_of path namespace
  /\ Composite.getUpstreamURL path namespace = upstreamURL_of path namespace.
Proof. split; reflexivity. Qed.

(** In simple form a validated ingress has one pair only, and the URL is
    that of its path. *)
Lemma Simple_upstreamURL_of_path ingress :
  Simple.validateIngressSupported ingress = Done None ->
  exists rule path,
    Rules (Spec ingress) = [rule] /\ HTTP rule = Some (mkHTTPIngressRuleValue [path]) /\
    Simple.getUpstreamURL ingress = Done (upstreamURL_of path (Namespace (Meta ingress))).
Proof.
  intros V.
  destruct (validate_simple_cases ingress) as [[[e R] _] | [[_ S] | (R & _)]];
    try (rewrite R in V; discriminate).
  destruct S as (_ & rule & path & HR & HH & _).
  exists rule, path. repeat split; try assumption.
  unfold Simple.getUpstreamURL, Simple.getIngressBackend. rewrite HR. cbn.
  rewrite HH. reflexivity.
Qed.

(** In the first composite edition the URL of every pair of a rule is that
    of the rule's first path. *)
Lemma CompositeB_upstreamURL_is_first host first rest path namespace :
  let rule := mkIngressRule host (Some (mkHTTPIngressRuleValue (first :: rest))) in
  CompositeB.getUpstreamURL rule namespace = Done (upstreamURL_of first namespace)
  /\ CompositeB.apiRequestFromIngress rule path namespace
     = Done (Kong.ApiRequest.mk ""
               (Composite.getQualifiedAPIName host (Path path) namespace)
               (upstreamURL_of first namespace) host (Path path) true None).
Proof. split; reflexivity. Qed.

(** C2 fails in the first composite edition: [getUpstreamURL] takes the rule
    and reads [Paths[0]], so the pair [("shop.example.com", "/api")] of an
    eligible, validated ingress is projected, and created on the gateway,
    with the backend of ["/"]. *)
Theorem CompositeB_upstreamURL_first_path :
  Composite.ingressIsFairGame shopIngress = true
  /\ Composite.validateIngressSupported shopIngress = None
  /\ upstreamURL_of shopApi "prod" = "http://api.prod:8080"
  /\ CompositeB.getUpstreamURL shopRule "prod" = Done "http://web.prod:80"
  /\ (Kong.ApiRequest.UpstreamURL <$>
        (match CompositeB.apiRequestFromIngress shopRule shopApi "prod" with
         | Done body => Some body
         | Panic => None
         end)) = Some "http://web.prod:80"
  /\ calls (CompositeB.ingressChanged MemKong.client shopIngress (MemKong.start [])).2
     = [ Kong.Get "shop.example.com~300030~prod";
         Kong.Post (Kong.ApiRequest.mk "" "shop.example.com~300030~prod"
                      "http://web.prod:80" "shop.example.com" "/" true None);
         Kong.Get "shop.example.com~32c016a~prod";
         Kong.Post (Kong.ApiRequest.mk "" "shop.example.com~32c016a~prod"
                      "http://web.prod:80" "shop.example.com" "/api" true None) ].
Proof. repeat split; vm_compute; reflexivity. Qed.

(** The same defect on the update path: the record of ["/api"] is as the
    specification wants it, and the first composite edition patches its
    upstream URL to the backend of ["/"]. *)
Example CompositeB_reconcileAPI_unconverges :
  CompositeB.reconcileAPI MemKong.client shopRule shopApi "prod"
    (MemKong.start [shopApiRecord])
  = (Done None,
     mkWorld [Kong.Api.mk shopApiName shopApiName "http://web.prod:80"
                ["shop.example.com"] ["/api"] true (Some false)]
       [Kong.Get shopApiName;
        Kong.Patch (Kong.ApiRequest.mk shopApiName "" "http://web.prod:80" "" ""
                      false None)]).
Proof. vm_compute. reflexivity. Qed.

(** ** The reconciler *)

Section Reconcile.
Context {K : Type} (kongClient : Kong.Client K).

Lemma request_run {A} (c : Kong.Call) (f : K -> A * K) (w : World K) :
  request c f w = (Done (f (gateway w)).1, mkWorld (f (gateway w)).2 (calls w ++ [c])).
Proof. unfold request. destruct (f (gateway w)); reflexivity. Qed.

Lemma hostsDrift_converged host : Composite.hostsDrift [host] host = false.
Proof. unfold Composite.hostsDrift. cbn. now rewrite String.eqb_refl. Qed.

Lemma urisDrift_converged path : Composite.urisDrift [path] path = false.
Proof. unfold Composite.urisDrift. cbn. now rewrite String.eqb_refl. Qed.

(** The composite reconciler on a converged record: one GET, nothing else. *)
Lemma Composite_reconcileAPI_converged w rule path namespace api r g' :
  Kong.Apis_Get kongClient
    (Composite.getQualifiedAPIName (Host rule) (Path path) namespace) (gateway w)
    = ((Some api, Some r, None), g') ->
  Kong.StatusCode r <> Kong.StatusNotFound ->
  Kong.Api.UpstreamURL api = upstreamURL_of path namespace ->
  Kong.Api.Hosts api = [Host rule] ->
  Kong.Api.PreserveHost api = true ->
  Kong.Api.StripURI api = Some false ->
  Kong.Api.Uris api = [Path path] ->
  Composite.reconcileAPI kongClient rule path namespace w
  = (Done None,
     mkWorld g' (calls w ++
       [Kong.Get (Composite.getQualifiedAPIName (Host rule) (Path path) namespace)])).
Proof.
  intros HG HS HU HH HP HT HI.
  unfold Composite.reconcileAPI, bind. rewrite request_run, HG. cbn.
  destruct (Z.eqb_spec (Kong.StatusCode r) Kong.StatusNotFound) as [E|_]; [contradiction|].
  cbn. unfold orReturn, bind.
  rewrite HU, HH, HP, HT, HI, hostsDrift_converged, urisDrift_converged.
  fold (upstreamURL_of path namespace).
  change (Composite.getUpstreamURL path namespace) with (upstreamURL_of path namespace).
  rewrite String.eqb_refl. reflexivity.
Qed.

(** The simple reconciler on a converged record. *)
Lemma Simple_reconcileAPI_converged w ingress rule url api r g' :
  Simple.getUpstreamURL ingress = Done url ->
  index (Rules (Spec ingress)) 0 = Done rule ->
  Kong.Apis_Get kongClient (Simple.getQualifiedName ingress) (gateway w)
    = ((Some api, Some r, None), g') ->
  Kong.StatusCode r <> Kong.StatusNotFound ->
  Kong.Api.UpstreamURL api = url ->
  Kong.Api.Hosts api = [Host rule] ->
  Kong.Api.PreserveHost api = true ->
  Simple.reconcileAPI kongClient ingress w
  = (Done None, mkWorld g' (calls w ++ [Kong.Get (Simple.getQualifiedName ingress)])).
Proof.
  intros HD HR HG HS HU HH HP.
  unfold Simple.reconcileAPI, bind. rewrite request_run, HG. cbn.
  destruct (Z.eqb_spec (Kong.StatusCode r) Kong.StatusNotFound) as [E|_]; [contradiction|].
  rewrite HD. cbn. unfold orReturn, bind. rewrite HR. cbn.
  rewrite HU, HH, HP, hostsDrift_converged, String.eqb_refl. reflexivity.
Qed.

End Reconcile.

Example shopApiRecord_fields :
  shopApiRecord
  = Kong.Api.mk shopApiName shopApiName "http://api.prod:8080" ["shop.example.com"]
      ["/api"] true (Some false).
Proof. reflexivity. Qed.

(** C5. Reconcile is a no-op on a converged record.  If the GET answers with
    an existing record whose upstream URL is the desired one, whose hosts are
    [[rule.host]], whose preserve-host flag is set and (composite form) whose
    strip-URI flag is [false] and whose uris are [[path]], then reconcile
    returns [nil] and its only request is that GET: no POST, no PATCH. *)
Theorem reconcileAPI_converged_noop {K : Type} (kongClient : Kong.Client K) (w : World K) :
  (forall rule path namespace api r g',
     Kong.Apis_Get kongClient
       (Composite.getQualifiedAPIName (Host rule) (Path path) namespace) (gateway w)
       = ((Some api, Some r, None), g') ->
     Kong.StatusCode r <> Kong.StatusNotFound ->
     Kong.Api.UpstreamURL api = upstreamURL_of path namespace ->
     Kong.Api.Hosts api = [Host rule] ->
     Kong.Api.PreserveHost api = true ->
     Kong.Api.StripURI api = Some false ->
     Kong.Api.Uris api = [Path path] ->
     Composite.reconcileAPI kongClient rule path namespace w
     = (Done None,
        mkWorld g' (calls w ++
          [Kong.Get (Composite.getQualifiedAPIName (Host rule) (Path path) namespace)])))
  /\ (forall ingress rule path api r g',
        Simple.validateIngressSupported ingress = Done None ->
        Rules (Spec ingress) = [rule] ->
        HTTP rule = Some (mkHTTPIngressRuleValue [path]) ->
        Kong.Apis_Get kongClient (Simple.getQualifiedName ingress) (gateway w)
          = ((Some api, Some r, None), g') ->
        Kong.StatusCode r <> Kong.StatusNotFound ->
        Kong.Api.UpstreamURL api = upstreamURL_of path (Namespace (Meta ingress)) ->
        Kong.Api.Hosts api = [Host rule] ->
        Kong.Api.PreserveHost api = true ->
        Simple.reconcileAPI kongClient ingress w
        = (Done None,
           mkWorld g' (calls w ++ [Kong.Get (Simple.getQualifiedName ingress)]))).
Proof.
  split.
  - intros. now apply Composite_reconcileAPI_converged with (api := api) (r := r).
  - intros ingress rule path api r g' V HR HH HG HS HU HHo HP.
    apply Simple_reconcileAPI_converged
      with (rule := rule) (url := upstreamURL_of path (Namespace (Meta ingress)))
           (api := api) (r := r); try assumption.
    + unfold Simple.getUpstreamURL, Simple.getIngressBackend. rewrite HR. cbn.
      rewrite HH. reflexivity.
    + rewrite HR. reflexivity.
Qed.

Lemma reconcileAPI_converged_noop_witness :
  Composite.reconcileAPI MemKong.client shopRule shopApi "prod"
    (MemKong.start [shopApiRecord])
  = (Done None, mkWorld [shopApiRecord] [Kong.Get shopApiName])
  /\ Simple.reconcileAPI MemKong.client (sampleIngress "bestservice" "prod")
       (MemKong.start [bestserviceRecord])
     = (Done None, mkWorld [bestserviceRecord] [Kong.Get "bestservice.prod"]).
Proof.
  split.
  - apply (proj1 (reconcileAPI_converged_noop MemKong.client (MemKong.start [shopApiRecord]))
             shopRule shopApi "prod" shopApiRecord (Kong.mkResponse 200) [shopApiRecord]);
      first [reflexivity | discriminate].
  - apply (proj2 (reconcileAPI_converged_noop MemKong.client
                    (MemKong.start [bestserviceRecord]))
             (sampleIngress "bestservice" "prod")
             (mkIngressRule "bestservice.somedomain"
                (Some (mkHTTPIngressRuleValue
                   [mkHTTPIngressPath "/" (mkIngressBackend "service-1" (FromInt 32000))])))
             (mkHTTPIngressPath "/" (mkIngressBackend "service-1" (FromInt 32000)))
             bestserviceRecord (Kong.mkResponse 200) [bestserviceRecord]);
      first [reflexivity | discriminate].
Defined.

Section StripURI.
Context {K : Type} (kongClient : Kong.Client K).

Lemma patchIf_run drift body apiName (w : World K) :
  Composite.patchIf kongClient drift body apiName w
  = if drift
    then (Done (wrapPatch apiName (Kong.Apis_Patch kongClient body (gateway w)).1.2),
          mkWorld (Kong.Apis_Patch kongClient body (gateway w)).2
                  (calls w ++ [Kong.Patch body]))
    else (Done None, w).
Proof.
  unfold Composite.patchIf. destruct drift; [|reflexivity].
  unfold bind. rewrite request_run.
  destruct (Kong.Apis_Patch kongClient body (gateway w)) as [[resp [e|]] g]; reflexivity.
Qed.

(** A PATCH step never panics and only appends to the log. *)
Lemma patchIf_calls drift body apiName (w : World K) :
  exists res l,
    Composite.patchIf kongClient drift body apiName w = (Done res, l.1)
    /\ calls l.1 = calls w ++ l.2.
Proof.
  rewrite patchIf_run. destruct drift.
  - do 2 eexists. instantiate (1 := (_, _)). split; reflexivity.
  - exists None, (w, []). cbn. now rewrite app_nil_r.
Qed.

(** A PATCH step that cannot fail returns [nil]. *)
Lemma patchIf_succeeds drift body apiName (w : World K) :
  (forall g, (Kong.Apis_Patch kongClient body g).1.2 = None) ->
  exists w',
    Composite.patchIf kongClient drift body apiName w = (Done None, w')
    /\ exists l, calls w' = calls w ++ l.
Proof.
  intros H. rewrite patchIf_run. destruct drift.
  - rewrite H. eexists. split; [reflexivity|]. eexists. reflexivity.
  - exists w. split; [reflexivity|]. exists []. now rewrite app_nil_r.
Qed.

(** The state in which the current edition reaches the strip-URI check:
    after the patches of upstream URL, hosts and preserve-host. *)
Lemma Composite_reconcileAPI_reaches_stripURI w rule path namespace api r g' :
  Kong.Apis_Get kongClient
    (Composite.getQualifiedAPIName (Host rule) (Path path) namespace) (gateway w)
    = ((Some api, Some r, None), g') ->
  Kong.StatusCode r <> Kong.StatusNotFound ->
  (forall body g, Kong.ApiRequest.StripURI body = None ->
                  (Kong.Apis_Patch kongClient body g).1.2 = None) ->
  let apiName := Composite.getQualifiedAPIName (Host rule) (Path path) namespace in
  exists w3,
    Composite.reconcileAPI kongClient rule path namespace w
    = ((let* stripURI := deref (Kong.Api.StripURI api) in
        Composite.patchIf kongClient (negb (Bool.eqb stripURI false))
          (Composite.patchStripURI (Kong.Api.ID api)) apiName) ;;;
       Composite.patchIf kongClient (Composite.urisDrift (Kong.Api.Uris api) (Path path))
         (Composite.patchUris (Kong.Api.ID api) (Path path)) apiName) w3.
Proof.
  intros HG HS HP apiName.
  unfold Composite.reconcileAPI, bind at 1. rewrite request_run, HG. cbn.
  destruct (Z.eqb_spec (Kong.StatusCode r) Kong.StatusNotFound) as [E|_]; [contradiction|].
  cbn. fold apiName.
  set (w0 := mkWorld g' _).
  destruct (patchIf_succeeds
              (negb (String.eqb (Kong.Api.UpstreamURL api)
                       (Composite.getUpstreamURL path namespace)))
              (Composite.patchUpstreamURL (Kong.Api.ID api)
                 (Composite.getUpstreamURL path namespace)) apiName w0)
    as (w1 & E1 & _); [intros g; now apply HP|].
  destruct (patchIf_succeeds
              (Composite.hostsDrift (Kong.Api.Hosts api) (Host rule))
              (Composite.patchHosts (Kong.Api.ID api) (Host rule)) apiName w1)
    as (w2 & E2 & _); [intros g; now apply HP|].
  destruct (patchIf_succeeds
              (negb (Bool.eqb (Kong.Api.PreserveHost api) true))
              (Composite.patchPreserveHost (Kong.Api.ID api)) apiName w2)
    as (w3 & E3 & _); [intros g; now apply HP|].
  exists w3.
  unfold orReturn at 1, bind at 1. rewrite E1.
  unfold orReturn at 1, bind at 1. rewrite E2.
  unfold orReturn at 1, bind at 1. rewrite E3.
  reflexivity.
Qed.

End StripURI.

Lemma patchIf_patchStep {K : Type} (kongClient : Kong.Client K) drift body apiName
    (w : World K) :
  Composite.patchIf kongClient drift body apiName w
  = (Done (wrapPatch apiName (failed (patchStep kongClient drift body (gateway w)))),
     mkWorld (after (patchStep kongClient drift body (gateway w)))
       (calls w ++ sent (patchStep kongClient drift body (gateway w)))).
Proof.
  rewrite patchIf_run. destruct drift; cbn [patchStep sent failed after wrapPatch].
  - reflexivity.
  - rewrite app_nil_r. now destruct w.
Qed.

Lemma patchStep_sent {K : Type} (kongClient : Kong.Client K) drift body (g : K) c :
  In c (sent (patchStep kongClient drift body g)) -> c = Kong.Patch body.
Proof. destruct drift; cbn; [intros [E | []]; now symmetry | intros []]. Qed.

Ltac patch_step E F :=
  unfold orReturn at 1, bind at 1; rewrite patchIf_patchStep; cbn [gateway calls];
  rewrite E, F; cbn [wrapPatch].




(** C10 fails on the current edition: the record below is converged in every
    field the gateway returned but carries no [strip_uri]; [*(api.StripURI)]
    dereferences nil and reconcile panics after its GET. *)
Theorem Composite_reconcileAPI_nil_stripURI_panics :
  Kong.Api.StripURI shopApiBare = None
  /\ Composite.reconcileAPI MemKong.client shopRule shopApi "prod"
       (MemKong.start [shopApiBare])
     = (Panic, mkWorld [shopApiBare] [Kong.Get shopApiName]).
Proof. split; reflexivity. Qed.

(** The same for any gateway: whenever the earlier patches go through, a
    record without [strip_uri] makes reconcile panic. *)
Lemma Composite_reconcileAPI_nil_stripURI {K : Type} (kongClient : Kong.Client K)
    (w : World K) rule path namespace api r g' :
  Kong.Apis_Get kongClient
    (Composite.getQualifiedAPIName (Host rule) (Path path) namespace) (gateway w)
    = ((Some api, Some r, None), g') ->
  Kong.StatusCode r <> Kong.StatusNotFound ->
  Kong.Api.StripURI api = None ->
  (forall body g, Kong.ApiRequest.StripURI body = None ->
                  (Kong.Apis_Patch kongClient body g).1.2 = None) ->
  (Composite.reconcileAPI kongClient rule path namespace w).1 = Panic.
Proof.
  intros HG HS HT HP.
  destruct (Composite_reconcileAPI_reaches_stripURI kongClient w rule path namespace
              api r g' HG HS HP) as (w3 & ->).
  rewrite HT. reflexivity.
Qed.

(** ** Deleting a record *)

Section Delete.
Context {K : Type} (kongClient : Kong.Client K).

Lemma deleteKongAPI_run apiName (w : World K) :
  Composite.deleteKongAPI kongClient apiName w
  = let got := Kong.Apis_Get kongClient apiName (gateway w) in
    match got.1.2 with
    | Some e =>
        (Done (Some (wrapRetrieve apiName e)),
         mkWorld got.2 (calls w ++ [Kong.Get apiName]))
    | None =>
        let del := Kong.Apis_Delete kongClient apiName got.2 in
        (Done (wrapDelete apiName del.1.2),
         mkWorld del.2 (calls w ++ [Kong.Get apiName; Kong.Delete apiName]))
    end.
Proof.
  unfold Composite.deleteKongAPI, bind at 1. rewrite request_run.
  destruct (Kong.Apis_Get kongClient apiName (gateway w)) as [[[a r] [e|]] g]; cbn;
    [reflexivity|].
  unfold bind. rewrite request_run. cbn. rewrite <- app_assoc. cbn.
  destruct (Kong.Apis_Delete kongClient apiName g) as [[r' [e|]] g2]; reflexivity.
Qed.

Lemma Simple_deleteKongAPI_same apiName :
  Simple.deleteKongAPI kongClient apiName = Composite.deleteKongAPI kongClient apiName.
Proof. reflexivity. Qed.

End Delete.

Section MemKongFacts.

Lemma MemKong_lookup_filter name (g : list Kong.Api.t) :
  MemKong.lookup name (List.filter (fun a => negb (MemKong.hasName name a)) g) = None.
Proof.
  unfold MemKong.lookup. induction g as [|a g IH]; [reflexivity|].
  cbn [List.filter]. destruct (MemKong.hasName name a) eqn:E; cbn [negb]; [exact IH|].
  cbn [find]. now rewrite E.
Qed.

Lemma MemKong_filter_absent name (g : list Kong.Api.t) :
  MemKong.lookup name g = None ->
  List.filter (fun a => negb (MemKong.hasName name a)) g = g.
Proof.
  unfold MemKong.lookup. induction g as [|a g IH]; [reflexivity|].
  cbn [find List.filter]. destruct (MemKong.hasName name a); [discriminate|].
  intros H. cbn [negb]. now rewrite IH.
Qed.

(** On the reference gateway [deleteKongAPI] always leaves the store
    without the name, whether the record was there or not. *)
Lemma MemKong_deleteKongAPI name g cs :
  exists res cs',
    Composite.deleteKongAPI MemKong.client name (mkWorld g cs)
    = (Done res,
       mkWorld (List.filter (fun a => negb (MemKong.hasName name a)) g) cs').
Proof.
  rewrite deleteKongAPI_run. cbn -[MemKong.lookup].
  destruct (MemKong.lookup name g) as [a|] eqn:E; cbn -[MemKong.lookup].
  - rewrite E. cbn. do 2 eexists. reflexivity.
  - rewrite (MemKong_filter_absent name g E). do 2 eexists. reflexivity.
Qed.

End MemKongFacts.

(** C6. [deleteKongAPI] starts with a GET of the record.  When the GET
    fails it returns that error (wrapped) and has issued nothing but the GET;
    when it succeeds the DELETE follows.  On the reference gateway, deleting
    a present record twice succeeds the first time; the second call returns
    the 404 of its GET, issues no DELETE and leaves the store as it was. *)
Theorem deleteKongAPI_get_then_delete :
  (forall (K : Type) (kongClient : Kong.Client K) (w : World K) (apiName : string),
     let got := Kong.Apis_Get kongClient apiName (gateway w) in
     let run := Composite.deleteKongAPI kongClient apiName w in
     Simple.deleteKongAPI kongClient apiName w = run
     /\ match got.1.2 with
        | Some e =>
            run = (Done (Some (ErrorWrapf e
                           ("Failed to retrieve kong api '" +:+ apiName +:+ "'"))),
                   mkWorld got.2 (calls w ++ [Kong.Get apiName]))
        | None =>
            (exists res, run.1 = Done res)
            /\ calls run.2 = calls w ++ [Kong.Get apiName; Kong.Delete apiName]
        end)
  /\ (forall (g : list Kong.Api.t) (cs : list Kong.Call) (apiName : string),
        MemKong.lookup apiName g <> None ->
        let first := Composite.deleteKongAPI MemKong.client apiName (mkWorld g cs) in
        let second := Composite.deleteKongAPI MemKong.client apiName first.2 in
        first.1 = Done None
        /\ calls first.2 = cs ++ [Kong.Get apiName; Kong.Delete apiName]
        /\ MemKong.lookup apiName (gateway first.2) = None
        /\ second.1 = Done (Some (ErrorWrapf (ErrorHTTP 404)
                                    ("Failed to retrieve kong api '" +:+ apiName +:+ "'")))
        /\ gateway second.2 = gateway first.2
        /\ calls second.2 = calls first.2 ++ [Kong.Get apiName]).
Proof.
  split.
  - intros K kongClient w apiName got run. split; [reflexivity|].
    subst run got. rewrite deleteKongAPI_run. cbv zeta.
    destruct ((Kong.Apis_Get kongClient apiName (gateway w)).1.2) as [e|]; cbn;
      [reflexivity|].
    split; [eexists|]; reflexivity.
  - intros g cs apiName Hin first second. subst second first.
    rewrite (deleteKongAPI_run MemKong.client apiName (mkWorld g cs)).
    cbn -[MemKong.lookup].
    destruct (MemKong.lookup apiName g) as [a|] eqn:E; [|contradiction].
    cbn -[MemKong.lookup]. rewrite E. cbn -[MemKong.lookup].
    rewrite deleteKongAPI_run. cbn -[MemKong.lookup].
    rewrite MemKong_lookup_filter. cbn -[MemKong.lookup]. repeat split.
Qed.

Lemma deleteKongAPI_get_then_delete_witness :
  let first := Composite.deleteKongAPI MemKong.client "boringservice.infra"
                 (MemKong.start [Kong.Api.mk "1" "boringservice.infra"
                                   "http://service-1.infra:32000"
                                   ["boringservice.somedomain"] [] true (Some true)]) in
  let second := Composite.deleteKongAPI MemKong.client "boringservice.infra" first.2 in
  first.1 = Done None
  /\ calls first.2 = [Kong.Get "boringservice.infra"; Kong.Delete "boringservice.infra"]
  /\ MemKong.lookup "boringservice.infra" (gateway first.2) = None
  /\ second.1 = Done (Some (ErrorWrapf (ErrorHTTP 404)
                              "Failed to retrieve kong api 'boringservice.infra'"))
  /\ gateway second.2 = gateway first.2
  /\ calls second.2 = calls first.2 ++ [Kong.Get "boringservice.infra"].
Proof.
  apply (proj2 deleteKongAPI_get_then_delete
           [Kong.Api.mk "1" "boringservice.infra" "http://service-1.infra:32000"
              ["boringservice.somedomain"] [] true (Some true)]
           [] "boringservice.infra").
  vm_compute. discriminate.
Defined.

(** ** The reaper *)

(** C4. If listing the gateway APIs fails, or listing the ingresses fails,
    [reapOrphanedApis] returns that error (wrapped) and the only request it
    has issued is the listing of the gateway APIs: no record is fetched or
    deleted. *)
Theorem reapOrphanedApis_list_failure {K : Type} (kongClient : Kong.Client K)
    (w : World K) (listed : option (list Ingress) * option error) (e : error) :
  (Kong.Apis_GetAll kongClient (gateway w)).1.2 = Some e
  \/ ((Kong.Apis_GetAll kongClient (gateway w)).1.2 = None /\ listed.2 = Some e) ->
  let after :=
    mkWorld (Kong.Apis_GetAll kongClient (gateway w)).2 (calls w ++ [Kong.GetAll]) in
  (exists msg,
     Composite.reapOrphanedApis kongClient listed w = (Done (Some (ErrorWrapf e msg)), after))
  /\ (exists msg,
        Simple.reapOrphanedApis kongClient listed w = (Done (Some (ErrorWrapf e msg)), after))
  /\ (forall name, In (Kong.Delete name) (calls after) -> In (Kong.Delete name) (calls w)).
Proof.
  intros H after. subst after.
  unfold Composite.reapOrphanedApis, Simple.reapOrphanedApis, bind.
  rewrite request_run.
  destruct (Kong.Apis_GetAll kongClient (gateway w)) as [[[apis r] err] g].
  destruct listed as [objs lerr]. cbn in *.
  repeat split.
  - destruct H as [-> | [-> ->]]; eexists; reflexivity.
  - destruct H as [-> | [-> ->]]; eexists; reflexivity.
  - intros name Hin. apply in_app_or in Hin. destruct Hin as [Hin | [Hin | []]];
      [exact Hin | discriminate].
Qed.

Lemma reapOrphanedApis_list_failure_witness :
  let g := [Kong.Api.mk "1" "orphanedAPI1" "orphanedAPI1" [] [] false None] in
  let after := mkWorld g [Kong.GetAll] in
  (exists msg,
     Composite.reapOrphanedApis MemKong.client (None, Some (ErrorTransport "connection refused"))
       (MemKong.start g)
     = (Done (Some (ErrorWrapf (ErrorTransport "connection refused") msg)), after))
  /\ (exists msg,
        Simple.reapOrphanedApis MemKong.client (None, Some (ErrorTransport "connection refused"))
          (MemKong.start g)
        = (Done (Some (ErrorWrapf (ErrorTransport "connection refused") msg)), after))
  /\ (forall name, In (Kong.Delete name) (calls after) -> In (Kong.Delete name) []).
Proof.
  apply (reapOrphanedApis_list_failure MemKong.client
           (MemKong.start [Kong.Api.mk "1" "orphanedAPI1" "orphanedAPI1" [] [] false None])
           (None, Some (ErrorTransport "connection refused"))
           (ErrorTransport "connection refused")).
  right. split; reflexivity.
Defined.

(** A gateway whose listing fails answers for the other disjunct. *)
Example reapOrphanedApis_gateway_down :
  let down : Kong.Client unit :=
    {| Kong.Apis_GetAll := fun g => ((None, MemKong.answer 500, Some (ErrorHTTP 500)), g);
       Kong.Apis_Get := fun _ g => ((None, MemKong.answer 500, Some (ErrorHTTP 500)), g);
       Kong.Apis_Post := fun _ g => ((MemKong.answer 500, Some (ErrorHTTP 500)), g);
       Kong.Apis_Patch := fun _ g => ((MemKong.answer 500, Some (ErrorHTTP 500)), g);
       Kong.Apis_Delete := fun _ g => ((MemKong.answer 500, Some (ErrorHTTP 500)), g) |} in
  Composite.reapOrphanedApis down (Some [], None) StubKong.start
  = (Done (Some (ErrorWrapf (ErrorHTTP 500) "Failed to get kong api list")),
     mkWorld tt [Kong.GetAll]).
Proof. reflexivity. Qed.

Section IngMap.

Lemma mapget_insert k (m : gmap string bool) n :
  mapget (<[k := true]> m) n = if decide (k = n) then true else mapget m n.
Proof. unfold mapget. rewrite lookup_insert. destruct (decide (k = n)); reflexivity. Qed.

Lemma mapget_empty n : mapget ∅ n = false.
Proof. unfold mapget. now rewrite lookup_empty. Qed.

Lemma ingMapPaths_spec host namespace paths : forall m n,
  mapget (Composite.ingMapPaths host namespace paths m) n = true <->
  mapget m n = true \/
  exists path, In path paths /\ n = Composite.getQualifiedAPIName host (Path path) namespace.
Proof.
  unfold Composite.ingMapPaths.
  induction paths as [|p paths IH]; intros m n; cbn [fold_left].
  - split; [now left | intros [H | (p & [] & _)]; exact H].
  - rewrite IH, mapget_insert. destruct (decide _) as [E|NE]; split.
    + intros _. right. exists p. split; [now left | now symmetry].
    + intros _. now left.
    + intros [H | (q & Hq & ->)]; [now left | right; exists q; split; [now right | reflexivity]].
    + intros [H | (q & [<- | Hq] & ->)];
        [now left | now destruct NE | right; exists q; split; [exact Hq | reflexivity]].
Qed.

Lemma ingMapRules_spec namespace rules : forall m m',
  Composite.ingMapRules namespace rules m = Done m' ->
  forall n, mapget m' n = true <->
    mapget m n = true \/
    exists rule http path,
      In rule rules /\ HTTP rule = Some http /\ In path (Paths http) /\
      n = Composite.getQualifiedAPIName (Host rule) (Path path) namespace.
Proof.
  induction rules as [|r rules IH]; intros m m' H n; cbn [Composite.ingMapRules] in H.
  - injection H as <-. split; [now left | intros [H | (r & h & p & [] & _)]; exact H].
  - destruct (HTTP r) as [h|] eqn:Hh; cbn in H; [|discriminate].
    rewrite (IH _ _ H n), ingMapPaths_spec. split.
    + intros [[Hm | (p & Hp & ->)] | (r' & h' & p & Hr & Hh' & Hp & ->)].
      * now left.
      * right. exists r, h, p. repeat split; [now left | assumption | assumption].
      * right. exists r', h', p. repeat split; [now right | assumption | assumption].
    + intros [Hm | (r' & h' & p & [<- | Hr] & Hh' & Hp & ->)].
      * left. now left.
      * left. right. exists p. rewrite Hh in Hh'. injection Hh' as <-. now split.
      * right. exists r', h', p. now repeat split.
Qed.

Lemma ingMapItems_spec items : forall m m',
  Composite.ingMapItems items m = Done m' ->
  forall n, mapget m' n = true <-> mapget m n = true \/ owned items n.
Proof.
  unfold owned.
  induction items as [|i items IH]; intros m m' H n; cbn [Composite.ingMapItems] in H.
  - injection H as <-.
    split; [now left | intros [H | (i & r & h & p & [] & _)]; exact H].
  - destruct (Composite.ingressIsFairGame i) eqn:Hf.
    + destruct (Composite.ingMapRules _ _ m) as [m1|] eqn:Hr; cbn in H; [|discriminate].
      rewrite (IH _ _ H n), (ingMapRules_spec _ _ _ _ Hr n). split.
      * intros [[Hm | (r & h & p & Hin & Hh & Hp & ->)]
               | (i' & r & h & p & Hi & Hf' & Hin & Hh & Hp & ->)].
        -- now left.
        -- right. exists i, r, h, p. repeat split; try assumption. now left.
        -- right. exists i', r, h, p. repeat split; try assumption. now right.
      * intros [Hm | (i' & r & h & p & [<- | Hi] & Hf' & Hin & Hh & Hp & ->)].
        -- left. now left.
        -- left. right. exists r, h, p. now repeat split.
        -- right. exists i', r, h, p. now repeat split.
    + rewrite (IH _ _ H n). split.
      * intros [Hm | (i' & r & h & p & Hi & Hf' & Hin & Hh & Hp & ->)]; [now left|].
        right. exists i', r, h, p. repeat split; try assumption. now right.
      * intros [Hm | (i' & r & h & p & [<- | Hi] & Hf' & Hin & Hh & Hp & ->)].
        -- now left.
        -- congruence.
        -- right. exists i', r, h, p. now repeat split.
Qed.

Lemma ingMapRules_total namespace rules : forall m,
  (forall rule, In rule rules -> HTTP rule <> None) ->
  exists m', Composite.ingMapRules namespace rules m = Done m'.
Proof.
  induction rules as [|r rules IH]; intros m H; cbn [Composite.ingMapRules].
  - now exists m.
  - destruct (HTTP r) as [h|] eqn:Hh; [|destruct (H r); [now left | exact Hh]].
    cbn. apply IH. intros r' Hr'. apply H. now right.
Qed.

Lemma ingMapItems_total items : forall m,
  rulesHaveHTTP items -> exists m', Composite.ingMapItems items m = Done m'.
Proof.
  unfold rulesHaveHTTP.
  induction items as [|i items IH]; intros m H; cbn [Composite.ingMapItems].
  - now exists m.
  - assert (H' : forall ingress rule, In ingress items ->
                 Composite.ingressIsFairGame ingress = true ->
                 In rule (Rules (Spec ingress)) -> HTTP rule <> None).
    { intros i' r Hi. apply H. now right. }
    destruct (Composite.ingressIsFairGame i) eqn:Hf; [|now apply IH].
    destruct (ingMapRules_total (Namespace (Meta i)) (Rules (Spec i)) m) as [m1 ->].
    { intros r Hr. apply (H i r); [now left | exact Hf | exact Hr]. }
    cbn. now apply IH.
Qed.

(** The simple reaper spares exactly the names of the listed ingresses. *)
Lemma Simple_ingMapItems_spec items : forall m n,
  mapget (Simple.ingMapItems items m) n = true <->
  mapget m n = true \/ exists ingress, In ingress items /\ n = Simple.getQualifiedName ingress.
Proof.
  unfold Simple.ingMapItems.
  induction items as [|i items IH]; intros m n; cbn [fold_left].
  - split; [now left | intros [H | (i & [] & _)]; exact H].
  - rewrite IH, mapget_insert. destruct (decide _) as [E|NE]; split.
    + intros _. right. exists i. split; [now left | now symmetry].
    + intros _. now left.
    + intros [H | (q & Hq & ->)]; [now left | right; exists q; split; [now right | reflexivity]].
    + intros [H | (q & [<- | Hq] & ->)];
        [now left | now destruct NE | right; exists q; split; [exact Hq | reflexivity]].
Qed.

End IngMap.

Section Sweep.
Variable ingMap : gmap string bool.

Lemma filter_all {A} (f : A -> bool) (l : list A) :
  (forall a, f a = true) -> List.filter f l = l.
Proof.
  intros H. induction l as [|a l IH]; [reflexivity|].
  cbn [List.filter]. now rewrite H, IH.
Qed.

Lemma filter_twice {A} (f g : A -> bool) (l : list A) :
  List.filter f (List.filter g l) = List.filter (fun a => g a && f a) l.
Proof.
  induction l as [|a l IH]; [reflexivity|].
  cbn [List.filter]. destruct (g a); cbn [andb List.filter]; [|exact IH].
  destruct (f a); now rewrite IH.
Qed.

Lemma sweep_filter data : forall store,
  sweep ingMap data store = List.filter (fun a => negb (condemned ingMap data a)) store.
Proof.
  unfold sweep, condemned.
  induction data as [|d data IH]; intros store; cbn [fold_left existsb].
  - symmetry. now apply filter_all.
  - rewrite IH. unfold sweepStep. destruct (mapget ingMap (Kong.Api.Name d)); cbn [negb andb].
    + reflexivity.
    + rewrite filter_twice. apply List.filter_ext. intros a.
      unfold MemKong.hasName. now rewrite negb_orb.
Qed.

Lemma sweep_self g :
  sweep ingMap g g = List.filter (fun a => mapget ingMap (Kong.Api.Name a)) g.
Proof.
  rewrite sweep_filter. apply List.filter_ext_in. intros a Ha. unfold condemned.
  destruct (mapget ingMap (Kong.Api.Name a)) eqn:Hm.
  - apply negb_true_iff. apply not_true_is_false. intros E.
    apply existsb_exists in E. destruct E as (d & _ & E).
    apply andb_true_iff in E. destruct E as [E1 E2].
    apply String.eqb_eq in E2. rewrite <- E2, Hm in E1. discriminate.
  - apply negb_false_iff. apply existsb_exists. exists a. split; [exact Ha|].
    now rewrite Hm, String.eqb_refl.
Qed.

(** The reaper's loop on the reference gateway. *)
Lemma reap_loop_MemKong (body : option Kong.Api.t -> Op (list Kong.Api.t) unit) :
  (forall api, body (Some api)
     = if negb (mapget ingMap (Kong.Api.Name api))
       then bind (Composite.deleteKongAPI MemKong.client (Kong.Api.Name api))
              (fun _ => ret tt)
       else ret tt) ->
  forall data store cs,
    exists cs',
      forEach (map Some data) body (mkWorld store cs)
      = (Done tt, mkWorld (sweep ingMap data store) cs').
Proof.
  intros Hb. unfold sweep.
  induction data as [|d data IH]; intros store cs; cbn [map forEach fold_left].
  - exists cs. reflexivity.
  - unfold bind at 1. rewrite Hb. unfold sweepStep at 2.
    destruct (mapget ingMap (Kong.Api.Name d)); cbn [negb].
    + cbn. apply IH.
    + unfold bind at 1.
      destruct (MemKong_deleteKongAPI (Kong.Api.Name d) store cs) as (res & cs1 & ->).
      cbn. apply IH.
Qed.

End Sweep.

(** C1 (amended). After a reaper cycle on the reference gateway, where
    deleting a listed record succeeds, the cycle has returned [nil] and the
    gateway holds exactly the records whose names are in the reaper's table
    of expected names: every other gateway API has been deleted.  In
    composite form, when every rule of the eligible ingresses carries its
    [http] block, the table is built and holds a name exactly when the name
    is the qualified name of some (rule, path) pair of some eligible ingress
    of the listed snapshot.  In simple form the table holds a name exactly
    when it is [name.namespace] of some listed ingress, eligible or not,
    with or without rules. *)
Theorem reapOrphanedApis_orphans_deleted (items : list Ingress) :
  (rulesHaveHTTP items ->
   exists ingMap,
     Composite.ingMapItems items ∅ = Done ingMap
     /\ (forall n, mapget ingMap n = true <-> owned items n)
     /\ (forall g, exists cs,
           Composite.reapOrphanedApis MemKong.client (Some items, None) (MemKong.start g)
           = (Done None,
              mkWorld (List.filter (fun a => mapget ingMap (Kong.Api.Name a)) g) cs)))
  /\ (forall n, mapget (Simple.ingMapItems items ∅) n = true
                <-> exists ingress, In ingress items /\ n = Simple.getQualifiedName ingress)
  /\ (forall g, exists cs,
        Simple.reapOrphanedApis MemKong.client (Some items, None) (MemKong.start g)
        = (Done None,
           mkWorld (List.filter
                      (fun a => mapget (Simple.ingMapItems items ∅) (Kong.Api.Name a)) g)
             cs)).
Proof.
  split; [|split].
  - intros H. destruct (ingMapItems_total items ∅ H) as [ingMap Hm].
    exists ingMap. split; [exact Hm|]. split.
    + intros n. rewrite (ingMapItems_spec items ∅ ingMap Hm n), mapget_empty.
      split; [intros [F | O]; [discriminate | exact O] | now right].
    + intros g. unfold Composite.reapOrphanedApis, MemKong.start.
      unfold bind at 1. rewrite request_run. cbn [MemKong.client Kong.Apis_GetAll fst snd
        gateway calls deref ret].
      unfold bind at 1. cbn [ret]. unfold bind at 1. rewrite Hm. cbn [lift ret].
      unfold bind at 1. cbn [deref ret]. unfold bind at 1.
      match goal with
      | |- context [forEach _ ?b _] =>
          destruct (reap_loop_MemKong ingMap b (fun api => eq_refl) g g ([] ++ [Kong.GetAll]))
            as [cs ->]
      end.
      exists cs. cbn [ret]. now rewrite sweep_self.
  - intros n. rewrite Simple_ingMapItems_spec, mapget_empty.
    split; [intros [F | O]; [discriminate | exact O] | now right].
  - intros g. unfold Simple.reapOrphanedApis, MemKong.start.
    unfold bind at 1. rewrite request_run.
    cbn [MemKong.client Kong.Apis_GetAll fst snd gateway calls deref ret].
    unfold bind at 1. cbn [ret]. unfold bind at 1. cbn [deref ret]. unfold bind at 1.
    match goal with
    | |- context [forEach _ ?b _] =>
        destruct (reap_loop_MemKong (Simple.ingMapItems items ∅) b (fun api => eq_refl)
                    g g ([] ++ [Kong.GetAll])) as [cs ->]
    end.
    exists cs. cbn [ret]. now rewrite sweep_self.
Qed.

Lemma reapOrphanedApis_orphans_deleted_witness :
  (exists ingMap,
     Composite.ingMapItems [shopIngress; webNginx] ∅ = Done ingMap
     /\ (forall n, mapget ingMap n = true <-> owned [shopIngress; webNginx] n)
     /\ (forall g, exists cs,
           Composite.reapOrphanedApis MemKong.client (Some [shopIngress; webNginx], None)
             (MemKong.start g)
           = (Done None,
              mkWorld (List.filter (fun a => mapget ingMap (Kong.Api.Name a)) g) cs)))
  /\ (forall g, exists cs,
        Simple.reapOrphanedApis MemKong.client (Some [shopIngress; webNginx], None)
          (MemKong.start g)
        = (Done None,
           mkWorld (List.filter
                      (fun a => mapget (Simple.ingMapItems [shopIngress; webNginx] ∅)
                                  (Kong.Api.Name a)) g)
             cs)).
Proof.
  split.
  - apply (proj1 (reapOrphanedApis_orphans_deleted [shopIngress; webNginx])).
    intros ingress rule [<- | [<- | []]] Hf; [|discriminate Hf].
    intros [<- | []]. simpl. discriminate.
  - apply (proj2 (proj2 (reapOrphanedApis_orphans_deleted [shopIngress; webNginx]))).
Defined.

(** C1, as stated, fails for the reaper of the simple form.  The listed
    snapshot holds an ingress of class ["nginx"] and an eligible ingress
    without rules, so no name is the qualified name of a (rule, path) pair
    of an eligible ingress, in either form of the name; yet a completed
    cycle, in which the one delete succeeds, keeps the gateway APIs
    [web.prod] and [bare.prod] and deletes only the third. *)
Lemma Simple_reapOrphanedApis_keeps_unowned :
  let items := [webNginx; bareIngress] in
  let api := apiFromIngress "http://svc.prod:80" in
  (forall n, ~ claimed_expected_simple items n)
  /\ (forall n, ~ owned items n)
  /\ Simple.reapOrphanedApis MemKong.client (Some items, None)
       (MemKong.start [api "web.prod"; api "orphan.prod"; api "bare.prod"])
     = (Done None,
        mkWorld [api "web.prod"; api "bare.prod"]
          [Kong.GetAll; Kong.Get "orphan.prod"; Kong.Delete "orphan.prod"]).
Proof.
  cbv zeta. split; [|split].
  - intros n (ingress & rule & http & path & [<- | [<- | []]] & Hf & Hr & _).
    + discriminate Hf.
    + destruct Hr.
  - intros n (ingress & rule & http & path & [<- | [<- | []]] & Hf & Hr & _).
    + discriminate Hf.
    + destruct Hr.
  - vm_compute. reflexivity.
Qed.

(** The orphan scenario of the repository's tests: two APIs on the gateway,
    no ingress in the cluster. *)
Example reapOrphanedApis_two_orphans :
  let g := [Kong.Api.mk "1" "orphanedAPI1" "orphanedAPI1" [] [] false None;
            Kong.Api.mk "2" "orphanedAPI2" "orphanedAPI2" [] [] false None] in
  Composite.reapOrphanedApis MemKong.client (Some [], None) (MemKong.start g)
  = (Done None,
     mkWorld [] [Kong.GetAll;
                 Kong.Get "orphanedAPI1"; Kong.Delete "orphanedAPI1";
                 Kong.Get "orphanedAPI2"; Kong.Delete "orphanedAPI2"]).
Proof. vm_compute. reflexivity. Qed.

(** A cycle that spares the two records of the shop ingress and reaps the
    third. *)
Example reapOrphanedApis_spares_owned :
  let root := MemKong.create (Composite.apiRequestFromIngress shopRule shopRoot "prod") in
  let orphan := Kong.Api.mk "9" "gone.example.com~300030~prod" "http://gone.prod:80"
                  ["gone.example.com"] ["/"] true (Some false) in
  (Composite.reapOrphanedApis MemKong.client (Some [shopIngress], None)
     (MemKong.start [root; orphan; shopApiRecord]))
  = (Done None,
     mkWorld [root; shopApiRecord]
       [Kong.GetAll; Kong.Get "gone.example.com~300030~prod";
        Kong.Delete "gone.example.com~300030~prod"]).
Proof. vm_compute. reflexivity. Qed.

(** On any gateway: the loop never panics on a list without nil entries, it
    only deletes names that the table does not hold, and it tries every such
    name of the list. *)
Lemma reap_loop_calls {K : Type} (kongClient : Kong.Client K)
    (ingMap : gmap string bool) (body : option Kong.Api.t -> Op K unit) :
  (forall api, body (Some api)
     = if negb (mapget ingMap (Kong.Api.Name api))
       then bind (Composite.deleteKongAPI kongClient (Kong.Api.Name api))
              (fun _ => ret tt)
       else ret tt) ->
  forall data w,
    exists w' l,
      forEach (map Some data) body w = (Done tt, w')
      /\ calls w' = calls w ++ l
      /\ (forall n, In (Kong.Delete n) l ->
            mapget ingMap n = false /\ exists a, In a data /\ Kong.Api.Name a = n)
      /\ (forall a, In a data -> mapget ingMap (Kong.Api.Name a) = false ->
            In (Kong.Get (Kong.Api.Name a)) l).
Proof.
  intros Hb. induction data as [|d data IH]; intros w; cbn [map forEach].
  - exists w, []. rewrite app_nil_r. repeat split; intros; contradiction.
  - unfold bind at 1. rewrite Hb.
    destruct (mapget ingMap (Kong.Api.Name d)) eqn:Hm; cbn [negb].
    + cbn. destruct (IH w) as (w' & l & -> & Hc & Hd & Hg).
      exists w', l. repeat split; try assumption.
      * now apply Hd.
      * destruct (Hd n H) as (_ & a & Ha & E). exists a. split; [now right | exact E].
      * intros a [<- | Ha] Hf; [congruence | now apply Hg].
    + unfold bind at 1. rewrite deleteKongAPI_run. cbv zeta.
      destruct ((Kong.Apis_Get kongClient (Kong.Api.Name d) (gateway w)).1.2) as [e|].
      * cbn [ret]. match goal with |- context [forEach _ _ ?w1] =>
          destruct (IH w1) as (w' & l & -> & Hc & Hd & Hg) end.
        exists w', ([Kong.Get (Kong.Api.Name d)] ++ l). cbn [calls] in Hc.
        rewrite Hc, <- app_assoc. repeat split.
        -- destruct H as [H | H]; [discriminate | now apply Hd].
        -- destruct H as [H | H]; [discriminate|].
           destruct (Hd n H) as (_ & a & Ha & E). exists a. split; [now right | exact E].
        -- intros a [<- | Ha] Hf; [now left | right; now apply Hg].
      * cbn [ret]. match goal with |- context [forEach _ _ ?w1] =>
          destruct (IH w1) as (w' & l & -> & Hc & Hd & Hg) end.
        exists w', ([Kong.Get (Kong.Api.Name d); Kong.Delete (Kong.Api.Name d)] ++ l).
        cbn [calls] in Hc. rewrite Hc, <- app_assoc. repeat split.
        -- destruct H as [H | [H | H]];
             [discriminate | injection H as <-; exact Hm | now apply Hd].
        -- destruct H as [H | [H | H]]; [discriminate | |].
           ++ injection H as <-. exists d. split; [now left | reflexivity].
           ++ destruct (Hd n H) as (_ & a & Ha & E). exists a. split; [now right | exact E].
        -- intros a [<- | Ha] Hf; [now left | right; right; now apply Hg].
Qed.

(** A cycle on any gateway whose listing succeeds: it returns [nil]; after
    the listing it only issues the GETs and DELETEs of [deleteKongAPI]; a
    DELETE goes to a listed name that no eligible ingress owns, and every
    such name is at least fetched. *)
Lemma reapOrphanedApis_calls {K : Type} (kongClient : Kong.Client K) (w : World K)
    (items : list Ingress) (ingMap : gmap string bool) (data : list Kong.Api.t) r g' :
  Kong.Apis_GetAll kongClient (gateway w) = ((Some (map Some data), r, None), g') ->
  Composite.ingMapItems items ∅ = Done ingMap ->
  exists w' l,
    Composite.reapOrphanedApis kongClient (Some items, None) w = (Done None, w')
    /\ calls w' = calls w ++ Kong.GetAll :: l
    /\ (forall n, In (Kong.Delete n) l ->
          ~ owned items n /\ exists a, In a data /\ Kong.Api.Name a = n)
    /\ (forall a, In a data -> ~ owned items (Kong.Api.Name a) ->
          In (Kong.Get (Kong.Api.Name a)) l).
Proof.
  intros HG Hm.
  assert (Hown : forall n, mapget ingMap n = false <-> ~ owned items n).
  { intros n. rewrite <- not_true_iff_false, (ingMapItems_spec items ∅ ingMap Hm n),
      mapget_empty. split; intros H O; apply H; [now right|].
    destruct O as [F | O]; [discriminate | exact O]. }
  unfold Composite.reapOrphanedApis.
  unfold bind at 1. rewrite request_run, HG. cbn [fst snd deref ret].
  unfold bind at 1. cbn [ret]. unfold bind at 1. rewrite Hm. cbn [lift ret].
  unfold bind at 1. cbn [deref ret]. unfold bind at 1.
  match goal with
  | |- context [forEach _ ?b ?w0] =>
      destruct (reap_loop_calls kongClient ingMap b (fun api => eq_refl) data w0)
        as (w' & l & -> & Hc & Hd & Hg)
  end.
  exists w', l. cbn [ret calls] in *. rewrite Hc, <- app_assoc. repeat split.
  - apply Hown. now apply Hd.
  - now apply Hd.
  - intros a Ha Ho. apply Hg; [exact Ha|]. now apply Hown.
Qed.

(** ** The repository's tests, replayed on the simple form *)

Section Tests.

(** [TestKongUpdatedOnNewIngress]: one POST with the projected record. *)
Example KongUpdatedOnNewIngress :
  calls (Simple.ingressChanged MemKong.client (sampleIngress "bestservice" "prod")
           (MemKong.start [])).2
  = [Kong.Get "bestservice.prod";
     Kong.Post (Kong.ApiRequest.mk "" "bestservice.prod" "http://service-1.prod:32000"
                  "bestservice.somedomain" "" true None)].
Proof. reflexivity. Qed.

(** [TestKongUpdatedOnIngressBackendServiceUpdate]: after the GET, the first
    PATCH carries the id and the new upstream URL. *)
Example KongUpdatedOnIngressBackendServiceUpdate :
  firstn 2 (calls (Simple.ingressChanged (StubKong.client bestserviceOriginal None)
                     (sampleIngressWith "bestservice" "prod" "bestservice.somedomain"
                        "service-1v2" 32000)
                     StubKong.start).2)
  = [Kong.Get "bestservice.prod";
     Kong.Patch (Kong.ApiRequest.mk "bestservice.prod" "" "http://service-1v2.prod:32000"
                   "" "" false None)].
Proof. reflexivity. Qed.

(** [TestKongUpdatedOnIngressBackendServicePortUpdate] *)
Example KongUpdatedOnIngressBackendServicePortUpdate :
  firstn 2 (calls (Simple.ingressChanged (StubKong.client bestserviceOriginal None)
                     (sampleIngressWith "bestservice" "prod" "bestservice.somedomain"
                        "service-1" 32001)
                     StubKong.start).2)
  = [Kong.Get "bestservice.prod";
     Kong.Patch (Kong.ApiRequest.mk "bestservice.prod" "" "http://service-1.prod:32001"
                   "" "" false None)].
Proof. reflexivity. Qed.

(** [TestKongUpdatedOnIngressHostUpdate] *)
Example KongUpdatedOnIngressHostUpdate :
  firstn 2 (calls (Simple.ingressChanged (StubKong.client bestserviceOriginal None)
                     (sampleIngressWith "bestservice" "prod" "some-other-host"
                        "service-1" 32000)
                     StubKong.start).2)
  = [Kong.Get "bestservice.prod";
     Kong.Patch (Kong.ApiRequest.mk "bestservice.prod" "" "" "some-other-host" ""
                   false None)].
Proof. reflexivity. Qed.

(** [TestControllerIgnoresSingleServiceIngress], [...WithMultipleRules],
    [...WithNonRootPath], [...WithMultiplePaths]: no request at all. *)
Example ControllerIgnoresUnsupported :
  let backend := mkIngressBackend "service-1" (FromInt 32000) in
  let root := mkHTTPIngressPath "/" backend in
  let rule := mkIngressRule "somename.somedomain" (Some (mkHTTPIngressRuleValue [root])) in
  let meta := mkObjectMeta "somename" "infra" ∅ in
  Forall (fun spec =>
            Simple.ingressChanged MemKong.client (mkIngress meta spec) (MemKong.start [])
            = (Done tt, MemKong.start []))
    [ mkIngressSpec (Some backend) [];
      mkIngressSpec None [rule; mkIngressRule "some.other.host" (HTTP rule)];
      mkIngressSpec None
        [mkIngressRule "somename.somedomain"
           (Some (mkHTTPIngressRuleValue [mkHTTPIngressPath "/somepath" backend]))];
      mkIngressSpec None
        [mkIngressRule "somename.somedomain"
           (Some (mkHTTPIngressRuleValue [root; mkHTTPIngressPath "/newpath" backend]))] ].
Proof. repeat constructor. Qed.

(** [TestKongUpdatedOnDeletedIngress]: GET, then DELETE, and the record is
    gone. *)
Example KongUpdatedOnDeletedIngress :
  Simple.ingressDeleted MemKong.client (sampleIngress "boringservice" "infra")
    (MemKong.start [apiFromIngress "boringservice.infra" "boringservice.infra"])
  = (Done tt,
     mkWorld [] [Kong.Get "boringservice.infra"; Kong.Delete "boringservice.infra"]).
Proof. reflexivity. Qed.

End Tests.

(** * Further properties *)

(** ** The composite name as a key *)

Section NameKey.

Lemma list_ascii_of_string_app s t :
  list_ascii_of_string (s +:+ t) = list_ascii_of_string s ++ list_ascii_of_string t.
Proof.
  induction s as [|c s IH]; [reflexivity|].
  simpl. now rewrite IH.
Qed.

(** Cutting at the first ['~']: the part before it is determined. *)
Lemma tilde_split a : forall c b d,
  no_tilde a = true -> no_tilde c = true ->
  a +:+ String "~"%char b = c +:+ String "~"%char d -> a = c /\ b = d.
Proof.
  unfold no_tilde.
  induction a as [|x a IH]; intros [|y c] b d Ha Hc E; cbn in *.
  - injection E as <-. now split.
  - injection E as <- _. discriminate.
  - injection E as -> _. discriminate.
  - injection E as -> E. apply andb_true_iff in Ha, Hc.
    destruct (IH c b d (proj2 Ha) (proj2 Hc) E) as [-> ->]. now split.
Qed.

Lemma lower_hex_no_tilde s :
  forallb is_lower_hex (list_ascii_of_string s) = true -> no_tilde s = true.
Proof.
  unfold no_tilde. induction s as [|c s IH]; [reflexivity|].
  cbn [list_ascii_of_string forallb]. intros H. apply andb_true_iff in H.
  destruct H as [Hc Hs]. rewrite (IH Hs), andb_true_r.
  destruct (Ascii.eqb_spec c "~"%char) as [->|]; [discriminate Hc | reflexivity].
Qed.

Lemma parseHex_hashString path :
  parseHex (Composite.hashString path) = Some (adler32_Checksum path).
Proof.
  unfold Composite.hashString. apply parseHex_FormatUint16.
  eapply N.lt_trans; [apply adler32_Checksum_uint32 | reflexivity].
Qed.

Lemma hashString_no_tilde path : no_tilde (Composite.hashString path) = true.
Proof.
  apply lower_hex_no_tilde. pose proof (parseHex_hashString path) as P.
  unfold parseHex in P. destruct (Composite.hashString path); [discriminate|].
  eapply parseHexFrom_lower_hex, P.
Qed.

End NameKey.

(** ** The checksum of the path *)

Section Adler32RFC.

Lemma adler32_fold_mod s1 s2 a n W m :
  ((s2 + (s1 + a) mod m) mod m + n * ((s1 + a) mod m) + W) mod m
  = (s2 + (n + 1) * s1 + ((n + 1) * a + W)) mod m.
Proof.
  pose proof (N.div_mod' (s1 + a) m) as E1.
  pose proof (N.div_mod' (s2 + (s1 + a) mod m) m) as E2.
  revert E1 E2.
  generalize ((s1 + a) mod m) ((s1 + a) / m). intros r q E1.
  generalize ((s2 + r) mod m) ((s2 + r) / m). intros r2 q2 E2.
  replace (s2 + (n + 1) * s1 + ((n + 1) * a + W))
    with (s2 + (n + 1) * (s1 + a) + W) by lia.
  rewrite E1.
  replace (s2 + (n + 1) * (m * q + r) + W)
    with (r2 + n * r + W + (q2 + (n + 1) * q) * m) by lia.
  now rewrite N.Div0.mod_add.
Qed.

Lemma adler32_update_sums p : forall s1 s2,
  s1 < adler32_mod -> s2 < adler32_mod ->
  adler32_update (s1, s2) p
  = ((s1 + byteSum p) mod adler32_mod,
     (s2 + N.of_nat (length p) * s1 + weightedSum p) mod adler32_mod).
Proof.
  induction p as [|x p IH]; intros s1 s2 H1 H2.
  - cbn [adler32_update fold_left byteSum weightedSum length].
    change (N.of_nat 0) with 0. rewrite N.mul_0_l, !N.add_0_r, !N.mod_small by assumption.
    reflexivity.
  - change (adler32_update (s1, s2) (x :: p))
      with (adler32_update ((s1 + N_of_ascii x) mod adler32_mod,
                            (s2 + (s1 + N_of_ascii x) mod adler32_mod) mod adler32_mod) p).
    rewrite IH by (apply N.mod_lt; discriminate). f_equal.
    + cbn [byteSum]. rewrite N.Div0.add_mod_idemp_l. f_equal. lia.
    + cbn [weightedSum]. set (n := N.of_nat (length p)).
      replace (N.of_nat (length (x :: p))) with (n + 1) by (subst n; cbn [length]; lia).
      apply adler32_fold_mod.
Qed.

Lemma lor_shiftl_add x y : y < 2 ^ 16 -> N.lor (N.shiftl x 16) y = x * 65536 + y.
Proof.
  intros Hy. rewrite N.shiftl_mul_pow2.
  assert (L : N.land (x * 2 ^ 16) y = 0).
  { apply N.bits_inj. intros n. rewrite N.land_spec, N.bits_0.
    destruct (N.lt_ge_cases n 16) as [Hn | Hn].
    - now rewrite N.mul_pow2_bits_low.
    - rewrite andb_false_iff. right.
      destruct (N.eq_dec y 0) as [->|Ny]; [apply N.bits_0|].
      apply N.bits_above_log2. apply N.log2_lt_pow2 in Hy; lia. }
  rewrite <- N.lxor_lor by exact L. symmetry. now apply N.add_nocarry_lxor.
Qed.

Lemma adler32_Checksum_rfc data : adler32_Checksum data = adler32_rfc data.
Proof.
  unfold adler32_Checksum, adler32_rfc. cbv zeta.
  set (p := list_ascii_of_string data).
  rewrite (adler32_update_sums p 1 0) by reflexivity. cbn [fst snd]. unfold adler32_mod.
  rewrite lor_shiftl_add.
  - replace (0 + N.of_nat (length p) * 1 + weightedSum p)
      with (N.of_nat (length p) + weightedSum p) by lia.
    reflexivity.
  - eapply N.lt_trans; [apply N.mod_lt; discriminate | reflexivity].
Qed.

Lemma byteSum_app p q : byteSum (p ++ q) = byteSum p + byteSum q.
Proof. induction p as [|x p IH]; [reflexivity|]. cbn [app byteSum]. rewrite IH. lia. Qed.

(** Changing one byte changes the checksum: the low sum moves by less than
    the modulus. *)
Lemma adler32_Checksum_byte s t x y :
  x <> y -> adler32_Checksum (s +:+ String x t) <> adler32_Checksum (s +:+ String y t).
Proof.
  intros Hxy E. rewrite !adler32_Checksum_rfc in E. unfold adler32_rfc in E. cbv zeta in E.
  rewrite !list_ascii_of_string_app in E. cbn [list_ascii_of_string] in E.
  rewrite !length_app, !byteSum_app in E. cbn [length byteSum] in E.
  assert (Hn : N_of_ascii x <> N_of_ascii y).
  { intros N. apply Hxy. rewrite <- (ascii_N_embedding x), <- (ascii_N_embedding y).
    now rewrite N. }
  pose proof (N_ascii_bounded x) as Bx. pose proof (N_ascii_bounded y) as By.
  revert E.
  match goal with
  | |- ?b1 * 65536 + _ = ?b2 * 65536 + _ -> _ => generalize b1 b2
  end.
  revert Hn Bx By.
  generalize (N_of_ascii x) (N_of_ascii y) (byteSum (list_ascii_of_string s))
    (byteSum (list_ascii_of_string t)). intros a b sa ta Hn Bx By B1 B2 E.
  pose proof (N.mod_lt (1 + (sa + (a + ta))) 65521 ltac:(discriminate)) as L1.
  pose proof (N.mod_lt (1 + (sa + (b + ta))) 65521 ltac:(discriminate)) as L2.
  pose proof (N.div_mod' (1 + (sa + (a + ta))) 65521) as D1.
  pose proof (N.div_mod' (1 + (sa + (b + ta))) 65521) as D2.
  revert E L1 L2 D1 D2.
  generalize ((1 + (sa + (a + ta))) mod 65521) ((1 + (sa + (a + ta))) / 65521)
    ((1 + (sa + (b + ta))) mod 65521) ((1 + (sa + (b + ta))) / 65521).
  intros r1 q1 r2 q2 E L1 L2 D1 D2. lia.
Qed.

End Adler32RFC.

(** C8. In composite form the qualified name is [host ~ h ~ namespace].
    [h] is the checksum of the path printed by [FormatUint(_, 16)]: a
    non-empty numeral of digits [0-9a-f] only, which reads back as the
    checksum.  The checksum is the Adler-32 of the bytes of the path as
    RFC 1950 defines it, a 32-bit value: [B * 65536 + A], with [A] one plus
    the sum of the bytes and [B] the sum of the running values of [A], both
    modulo 65521.  Equal inputs give equal names; a path that differs from
    [path] in one byte gives a different name; and the path ["Wikipedia"]
    gives the known checksum [11e60398]. *)
Theorem getQualifiedAPIName_composite (host path namespace : string) :
  let h := Composite.hashString path in
  Composite.getQualifiedAPIName host path namespace
    = host +:+ "~" +:+ h +:+ "~" +:+ namespace
  /\ h = FormatUint16 (adler32_Checksum path)
  /\ adler32_Checksum path = adler32_rfc path
  /\ adler32_Checksum path < 2 ^ 32
  /\ parseHex h = Some (adler32_Checksum path)
  /\ forallb is_lower_hex (list_ascii_of_string h) = true
  /\ (forall host' path' namespace',
        host' = host -> path' = path -> namespace' = namespace ->
        Composite.getQualifiedAPIName host' path' namespace'
        = Composite.getQualifiedAPIName host path namespace)
  /\ (forall s t x y,
        path = s +:+ String x t -> y <> x ->
        Composite.getQualifiedAPIName host (s +:+ String y t) namespace
        <> Composite.getQualifiedAPIName host path namespace)
  /\ Composite.getQualifiedAPIName host "Wikipedia" namespace
     = host +:+ "~11e60398~" +:+ namespace.
Proof.
  intros h. subst h.
  assert (P : parseHex (Composite.hashString path) = Some (adler32_Checksum path))
    by apply parseHex_hashString.
  split; [reflexivity|]. split; [reflexivity|]. split; [apply adler32_Checksum_rfc|].
  split; [apply adler32_Checksum_uint32|]. split; [exact P|]. split.
  { unfold parseHex in P. destruct (Composite.hashString path) eqn:E; [discriminate|].
    eapply parseHexFrom_lower_hex, P. }
  split; [now intros host' path' namespace' -> -> ->|]. split.
  - intros s t x y -> Hxy E. unfold Composite.getQualifiedAPIName in E.
    apply String.app_inj in E. cbn [append] in E. injection E as E.
    apply tilde_split in E; try apply hashString_no_tilde.
    destruct E as [E _].
    apply (adler32_Checksum_byte s t y x Hxy).
    pose proof (parseHex_hashString (s +:+ String y t)) as P1.
    pose proof (parseHex_hashString (s +:+ String x t)) as P2.
    rewrite E, P2 in P1. now injection P1.
  - unfold Composite.getQualifiedAPIName.
    change (Composite.hashString "Wikipedia") with "11e60398". reflexivity.
Qed.

Lemma getQualifiedAPIName_composite_witness :
  Composite.getQualifiedAPIName "shop.example.com" "/apj" "prod"
  <> Composite.getQualifiedAPIName "shop.example.com" "/api" "prod"
  /\ adler32_Checksum "/api" = adler32_rfc "/api"
  /\ parseHex (Composite.hashString "/api") = Some 0x32c016a.
Proof.
  pose proof (getQualifiedAPIName_composite "shop.example.com" "/api" "prod") as H.
  cbv zeta in H. destruct H as (_ & _ & R & _ & P & _ & _ & D & _).
  split; [|split; [exact R | exact P]].
  apply (D "/ap" "" "i"%char "j"%char); [reflexivity | discriminate].
Defined.



(** X1. For hosts without ['~'] the composite name is a key of
    (host, checksum of the path, namespace): two names are equal exactly
    when the hosts are equal, the namespaces are equal and the paths have
    the same Adler-32 checksum. *)
Theorem getQualifiedAPIName_key host path namespace host' path' namespace' :
  no_tilde host = true -> no_tilde host' = true ->
  (Composite.getQualifiedAPIName host path namespace
   = Composite.getQualifiedAPIName host' path' namespace'
   <-> host = host' /\ adler32_Checksum path = adler32_Checksum path'
       /\ namespace = namespace').
Proof.
  intros Hh Hh'. unfold Composite.getQualifiedAPIName. split.
  - intros E. cbn [append] in E.
    change ("~" +:+ ?x) with (String "~"%char x) in E.
    apply tilde_split in E; [|assumption..]. destruct E as [-> E].
    apply tilde_split in E; [|apply hashString_no_tilde..]. destruct E as [E ->].
    repeat split. apply (f_equal parseHex) in E.
    rewrite !parseHex_hashString in E. now injection E.
  - intros (-> & E & ->). unfold Composite.hashString. now rewrite E.
Qed.

Lemma getQualifiedAPIName_key_witness :
  (Composite.getQualifiedAPIName "shop.example.com" "/" "prod"
   = Composite.getQualifiedAPIName "www.example.com" "/api" "staging"
   <-> "shop.example.com" = "www.example.com"
       /\ adler32_Checksum "/" = adler32_Checksum "/api" /\ "prod" = "staging")
  /\ (Composite.getQualifiedAPIName "shop.example.com" "/bdb" "prod"
      = Composite.getQualifiedAPIName "shop.example.com" "/cbc" "prod"
      <-> "shop.example.com" = "shop.example.com"
          /\ adler32_Checksum "/bdb" = adler32_Checksum "/cbc" /\ "prod" = "prod").
Proof.
  split.
  - apply (getQualifiedAPIName_key "shop.example.com" "/" "prod"
             "www.example.com" "/api" "staging"); reflexivity.
  - apply (getQualifiedAPIName_key "shop.example.com" "/bdb" "prod"
             "shop.example.com" "/cbc" "prod"); reflexivity.
Defined.

Section Collision.

Lemma adler32_update_app d p q :
  adler32_update d (p ++ q) = adler32_update (adler32_update d p) q.
Proof. unfold adler32_update. apply fold_left_app. Qed.

(** The two sums after three bytes [x; y; z]. *)
Lemma adler32_update_three d x y z :
  adler32_update d [x; y; z]
  = ((d.1 + (N_of_ascii x + N_of_ascii y + N_of_ascii z)) mod adler32_mod,
     (d.2 + (3 * d.1 + (3 * N_of_ascii x + 2 * N_of_ascii y + N_of_ascii z)))
       mod adler32_mod).
Proof.
  destruct d as [a b]. unfold adler32_update, adler32_step. cbn [fold_left fst snd].
  generalize (N_of_ascii x) (N_of_ascii y) (N_of_ascii z). intros u v t.
  unfold adler32_mod.
  pose proof (N.div_mod' (a + u) 65521) as E1.
  set (r1 := (a + u) mod 65521) in *.
  pose proof (N.div_mod' (r1 + v) 65521) as E2.
  set (r2 := (r1 + v) mod 65521) in *.
  pose proof (N.div_mod' (r2 + t) 65521) as E3.
  pose proof (N.mod_lt (r2 + t) 65521) as L3.
  set (r3 := (r2 + t) mod 65521) in *.
  pose proof (N.div_mod' (b + r1) 65521) as F1.
  set (p1 := (b + r1) mod 65521) in *.
  pose proof (N.div_mod' (p1 + r2) 65521) as F2.
  set (p2 := (p1 + r2) mod 65521) in *.
  revert E1 E2 E3 F1 F2.
  generalize ((a + u) / 65521) ((r1 + v) / 65521) ((r2 + t) / 65521)
    ((b + r1) / 65521) ((p1 + r2) / 65521).
  intros q1 q2 q3 k1 k2 E1 E2 E3 F1 F2.
  f_equal.
  - replace (a + (u + v + t)) with (r3 + (q1 + q2 + q3) * 65521) by lia.
    rewrite N.Div0.mod_add. symmetry. apply N.mod_small. apply L3. discriminate.
  - replace (b + (3 * a + (3 * u + 2 * v + t)))
      with (p2 + r3 + (k1 + k2 + 3 * q1 + 2 * q2 + q3) * 65521) by lia.
    now rewrite N.Div0.mod_add.
Qed.

Lemma adler32_Checksum_three s t x y z x' y' z' :
  N_of_ascii x + N_of_ascii y + N_of_ascii z
    = N_of_ascii x' + N_of_ascii y' + N_of_ascii z' ->
  3 * N_of_ascii x + 2 * N_of_ascii y + N_of_ascii z
    = 3 * N_of_ascii x' + 2 * N_of_ascii y' + N_of_ascii z' ->
  adler32_Checksum (s +:+ String x (String y (String z t)))
  = adler32_Checksum (s +:+ String x' (String y' (String z' t))).
Proof.
  intros H1 H2. unfold adler32_Checksum.
  rewrite !list_ascii_of_string_app. cbn [list_ascii_of_string].
  change (?a :: ?b :: ?c :: list_ascii_of_string t)
    with ([a; b; c] ++ list_ascii_of_string t).
  rewrite !adler32_update_app, !adler32_update_three, H1, H2. reflexivity.
Qed.

End Collision.

(** X2. The checksum does not separate all paths.  Two paths that differ in
    three consecutive bytes with the same sum and the same weighted sum
    [3x + 2y + z] have the same Adler-32 checksum, hence the same qualified
    name under every host and namespace: their (rule, path) pairs share one
    gateway API. *)
Theorem getQualifiedAPIName_collision host namespace s t x y z x' y' z' :
  N_of_ascii x + N_of_ascii y + N_of_ascii z
    = N_of_ascii x' + N_of_ascii y' + N_of_ascii z' ->
  3 * N_of_ascii x + 2 * N_of_ascii y + N_of_ascii z
    = 3 * N_of_ascii x' + 2 * N_of_ascii y' + N_of_ascii z' ->
  Composite.getQualifiedAPIName host (s +:+ String x (String y (String z t))) namespace
  = Composite.getQualifiedAPIName host (s +:+ String x' (String y' (String z' t)))
      namespace.
Proof.
  intros H1 H2. unfold Composite.getQualifiedAPIName, Composite.hashString.
  now rewrite (adler32_Checksum_three s t x y z x' y' z' H1 H2).
Qed.

Lemma getQualifiedAPIName_collision_witness :
  "/bdb" <> "/cbc"
  /\ Composite.getQualifiedAPIName "shop.example.com" "/bdb" "prod"
     = Composite.getQualifiedAPIName "shop.example.com" "/cbc" "prod".
Proof.
  split; [discriminate|].
  apply (getQualifiedAPIName_collision "shop.example.com" "prod" "/" ""
           "b" "d" "b" "c" "b" "c")%char; reflexivity.
Defined.

(** ** What a reconcile sends *)

Section Requests.
Context {K : Type} (kongClient : Kong.Client K).

Lemma runsPrefix_patchIf drift body apiName :
  runsPrefix (Composite.patchIf kongClient drift body apiName)
    (if drift then [Kong.Patch body] else []).
Proof.
  intros w. rewrite patchIf_run. destruct drift; cbn.
  - exists [Kong.Patch body]. split; [reflexivity|]. split; [reflexivity|]. reflexivity.
  - exists []. rewrite app_nil_r. split; [reflexivity|]. split; [reflexivity|]. reflexivity.
Qed.

Lemma runsPrefix_orReturn (c k : Op K (option error)) (A B : list Kong.Call) :
  runsPrefix c A -> runsPrefix k B -> runsPrefix (c ;;; k) (A ++ B).
Proof.
  intros Hc Hk w. unfold orReturn, bind.
  destruct (Hc w) as (l1 & E1 & P1 & F1).
  destruct (c w) as [[[e|]|] w1] eqn:Ec; cbn [fst snd] in *.
  - exists l1. split; [exact E1|]. split; [|discriminate].
    now apply prefix_app_r.
  - destruct (Hk w1) as (l2 & E2 & P2 & F2).
    exists (l1 ++ l2). rewrite E2, E1, app_assoc. split; [reflexivity|].
    rewrite (F1 eq_refl). split.
    + now apply prefix_app.
    + intros R. now rewrite (F2 R).
  - exists l1. split; [exact E1|]. split; [|discriminate].
    now apply prefix_app_r.
Qed.

Lemma runsPrefix_stripURI (api : Kong.Api.t) apiName :
  runsPrefix
    (let* stripURI := deref (Kong.Api.StripURI api) in
     Composite.patchIf kongClient (negb (Bool.eqb stripURI false))
       (Composite.patchStripURI (Kong.Api.ID api)) apiName)
    (match Kong.Api.StripURI api with
     | Some true => [Kong.Patch (Composite.patchStripURI (Kong.Api.ID api))]
     | _ => []
     end).
Proof.
  destruct (Kong.Api.StripURI api) as [[|]|].
  - apply (runsPrefix_patchIf true).
  - apply (runsPrefix_patchIf false).
  - intros w. exists []. cbn. rewrite app_nil_r.
    split; [reflexivity|]. split; [reflexivity | discriminate].
Qed.

End Requests.

(** [reconcileAPI] is its GET followed by [afterGet] on the answer. *)
Lemma Composite_reconcileAPI_run {K : Type} (kongClient : Kong.Client K)
    (w : World K) rule path namespace :
  let apiName := Composite.getQualifiedAPIName (Host rule) (Path path) namespace in
  let got := Kong.Apis_Get kongClient apiName (gateway w) in
  Composite.reconcileAPI kongClient rule path namespace w
  = afterGet kongClient got.1 rule path namespace
      (mkWorld got.2 (calls w ++ [Kong.Get apiName])).
Proof.
  intros apiName got. subst got. unfold Composite.reconcileAPI. fold apiName.
  unfold bind at 1. rewrite request_run.
  destruct (Kong.Apis_Get kongClient apiName (gateway w)) as [[[api resp] err] g].
  cbn [fst snd]. unfold afterGet. fold apiName.
  destruct resp as [r|], err as [e|]; cbn [negb snd].
  - destruct (Kong.StatusCode r =? Kong.StatusNotFound)%Z eqn:E; cbn [negb].
    + unfold bind at 1. cbn [deref ret]. rewrite E. reflexivity.
    + reflexivity.
  - unfold bind at 1. cbn [deref ret].
    destruct (Kong.StatusCode r =? Kong.StatusNotFound)%Z eqn:E; [reflexivity|].
    destruct api as [a|]; reflexivity.
  - reflexivity.
  - reflexivity.
Qed.

Lemma createAPI_run {K : Type} (kongClient : Kong.Client K) (w : World K) rule path namespace :
  let body := Composite.apiRequestFromIngress rule path namespace in
  let posted := Kong.Apis_Post kongClient body (gateway w) in
  createAPI kongClient rule path namespace w
  = (Done (match posted.1.2 with
           | Some e => Some (ErrorWrapf e ("Failed to create API '"
                         +:+ Composite.getQualifiedAPIName (Host rule) (Path path) namespace
                         +:+ "'"))
           | None => None
           end),
     mkWorld posted.2 (calls w ++ [Kong.Post body])).
Proof.
  intros body posted. subst posted. unfold createAPI, bind. fold body.
  rewrite request_run.
  destruct (Kong.Apis_Post kongClient body (gateway w)) as [[r [e|]] g]; reflexivity.
Qed.

Lemma runsPrefix_updateAPI {K : Type} (kongClient : Kong.Client K) api rule path namespace :
  runsPrefix (updateAPI kongClient api rule path namespace)
    (duePatches api rule path namespace).
Proof.
  unfold updateAPI, duePatches.
  assert (D : forall b : bool, negb (Bool.eqb b true) = negb b) by (now intros []).
  rewrite D.
  repeat apply runsPrefix_orReturn;
    first [apply runsPrefix_patchIf | apply runsPrefix_stripURI].
Qed.

(** X3. What a reconcile of the current edition sends, on any gateway and
    for any answer.  It starts with one GET of the qualified name.  If the
    answer has status 404 it then sends one POST of the projected record.
    If the answer is an existing record it then sends a prefix of the
    patches of the drifted fields, in the order upstream URL, hosts,
    preserve-host, strip-URI, uris, and all of them when it returns [nil].
    In every other case it sends nothing more.  In particular it never
    sends a DELETE or a listing. *)
Theorem Composite_reconcileAPI_requests {K : Type} (kongClient : Kong.Client K)
    (w : World K) rule path namespace :
  let apiName := Composite.getQualifiedAPIName (Host rule) (Path path) namespace in
  let run := Composite.reconcileAPI kongClient rule path namespace w in
  exists l,
    calls run.2 = calls w ++ Kong.Get apiName :: l
    /\ reconcileRequests (Kong.Apis_Get kongClient apiName (gateway w)).1
         rule path namespace run.1 l.
Proof.
  intros apiName run. subst run. rewrite Composite_reconcileAPI_run. fold apiName.
  destruct (Kong.Apis_Get kongClient apiName (gateway w)) as [[[api resp] err] g].
  cbn [fst snd]. unfold reconcileRequests, afterGet.
  set (w0 := mkWorld g (calls w ++ [Kong.Get apiName])).
  assert (Cons : forall l, calls w0 ++ l = calls w ++ Kong.Get apiName :: l).
  { intros l. subst w0. cbn. now rewrite <- app_assoc. }
  assert (Nil : calls w0 = calls w ++ [Kong.Get apiName]) by reflexivity.
  destruct resp as [r|].
  - destruct (Kong.StatusCode r =? Kong.StatusNotFound)%Z.
    + rewrite createAPI_run. eexists. split; [|reflexivity]. cbn [snd calls].
      apply Cons.
    + destruct err as [e|]; [exists []; split; [exact Nil | reflexivity]|].
      destruct api as [a|]; [|exists []; split; [exact Nil | reflexivity]].
      destruct (runsPrefix_updateAPI kongClient a rule path namespace w0)
        as (l & E1 & P1 & F1).
      exists l. rewrite <- Cons. split; [exact E1 | split; assumption].
  - destruct err; exists []; (split; [exact Nil | reflexivity]).
Qed.

(** ** Convergence on the reference gateway *)

Section Converge.

Lemma MemKong_lookup_map (f : Kong.Api.t -> Kong.Api.t) name g :
  (forall x, Kong.Api.Name (f x) = Kong.Api.Name x) ->
  MemKong.lookup name (map f g) = f <$> MemKong.lookup name g.
Proof.
  intros Hf. unfold MemKong.lookup, MemKong.hasName.
  induction g as [|x g IH]; [reflexivity|].
  cbn [map find]. rewrite Hf. destruct (String.eqb (Kong.Api.Name x) name); [reflexivity|exact IH].
Qed.

Lemma MemKong_lookup_Some name g a :
  MemKong.lookup name g = Some a -> In a g /\ Kong.Api.Name a = name.
Proof.
  unfold MemKong.lookup. intros H. apply find_some in H. destruct H as [Hin Hn].
  split; [exact Hin|]. now apply String.eqb_eq.
Qed.

Lemma MemKong_lookup_app name g a :
  MemKong.lookup name g = None -> Kong.Api.Name a = name ->
  MemKong.lookup name (g ++ [a]) = Some a.
Proof.
  unfold MemKong.lookup, MemKong.hasName. intros H <-.
  induction g as [|x g IH]; cbn [app find] in *.
  - now rewrite String.eqb_refl.
  - destruct (String.eqb (Kong.Api.Name x) (Kong.Api.Name a)); [discriminate|now apply IH].
Qed.

Lemma MemKong_patchIf name g cs a drift body apiName :
  MemKong.lookup name g = Some a ->
  Kong.ApiRequest.ID body = Kong.Api.ID a ->
  exists g' cs',
    Composite.patchIf MemKong.client drift body apiName (mkWorld g cs)
    = (Done None, mkWorld g' cs')
    /\ MemKong.lookup name g' = Some (if drift then MemKong.amend body a else a).
Proof.
  intros Hl Hid. rewrite patchIf_run. destruct drift.
  - cbn [MemKong.client Kong.Apis_Patch gateway calls].
    assert (Hex : existsb (MemKong.addressed (Kong.ApiRequest.ID body)) g = true).
    { apply existsb_exists. exists a. split; [now apply (MemKong_lookup_Some name)|].
      unfold MemKong.addressed. now rewrite Hid, String.eqb_refl. }
    rewrite Hex. cbn [fst snd wrapPatch]. do 2 eexists. split; [reflexivity|].
    rewrite MemKong_lookup_map by (intros x; destruct (MemKong.addressed _ x); reflexivity).
    rewrite Hl. cbn. unfold MemKong.addressed at 1. now rewrite Hid, String.eqb_refl.
  - do 2 eexists. split; [reflexivity | exact Hl].
Qed.


Lemma amend_if_ID (drift : bool) body a :
  Kong.Api.ID (if drift then MemKong.amend body a else a) = Kong.Api.ID a.
Proof. now destruct drift. Qed.

Lemma hostsDrift_false hosts host :
  Composite.hostsDrift hosts host = false -> hosts = [host].
Proof.
  unfold Composite.hostsDrift. destruct hosts as [|h [|h' hosts]]; cbn; try discriminate.
  rewrite ?orb_false_l. intros H. apply negb_false_iff, String.eqb_eq in H. now subst.
Qed.

Lemma urisDrift_false uris path :
  Composite.urisDrift uris path = false -> exists rest, uris = path :: rest.
Proof.
  unfold Composite.urisDrift. destruct uris as [|u uris]; cbn; [discriminate|].
  intros H. apply negb_false_iff, String.eqb_eq in H. subst. now exists uris.
Qed.

Lemma MemKong_updateAPI name g cs a rule path namespace b :
  MemKong.lookup name g = Some a ->
  Kong.Api.StripURI a = Some b ->
  Host rule <> "" -> Path path <> "" ->
  exists g' cs' a',
    updateAPI MemKong.client a rule path namespace (mkWorld g cs)
    = (Done None, mkWorld g' cs')
    /\ MemKong.lookup name g' = Some a'
    /\ Kong.Api.UpstreamURL a' = upstreamURL_of path namespace
    /\ Kong.Api.Hosts a' = [Host rule]
    /\ Kong.Api.PreserveHost a' = true
    /\ Kong.Api.StripURI a' = Some false
    /\ (exists rest, Kong.Api.Uris a' = Path path :: rest).
Proof.
  intros Hl Hs Hh Hp. unfold updateAPI.
  set (apiName := Composite.getQualifiedAPIName (Host rule) (Path path) namespace).
  change (Composite.getUpstreamURL path namespace) with (upstreamURL_of path namespace).
  set (d1 := negb (String.eqb (Kong.Api.UpstreamURL a) (upstreamURL_of path namespace))).
  set (d2 := Composite.hostsDrift (Kong.Api.Hosts a) (Host rule)).
  set (d3 := negb (Bool.eqb (Kong.Api.PreserveHost a) true)).
  set (d5 := Composite.urisDrift (Kong.Api.Uris a) (Path path)).
  destruct (MemKong_patchIf name g cs a d1
              (Composite.patchUpstreamURL (Kong.Api.ID a) (upstreamURL_of path namespace))
              apiName Hl eq_refl) as (g1 & cs1 & E1 & L1).
  destruct (MemKong_patchIf name g1 cs1 _ d2
              (Composite.patchHosts (Kong.Api.ID a) (Host rule))
              apiName L1 (eq_sym (amend_if_ID _ _ _))) as (g2 & cs2 & E2 & L2).
  destruct (MemKong_patchIf name g2 cs2 _ d3
              (Composite.patchPreserveHost (Kong.Api.ID a))
              apiName L2 (eq_sym (eq_trans (amend_if_ID _ _ _) (amend_if_ID _ _ _))))
    as (g3 & cs3 & E3 & L3).
  destruct (MemKong_patchIf name g3 cs3 _ (negb (Bool.eqb b false))
              (Composite.patchStripURI (Kong.Api.ID a))
              apiName L3
              (eq_sym (eq_trans (amend_if_ID _ _ _)
                         (eq_trans (amend_if_ID _ _ _) (amend_if_ID _ _ _)))))
    as (g4 & cs4 & E4 & L4).
  destruct (MemKong_patchIf name g4 cs4 _ d5
              (Composite.patchUris (Kong.Api.ID a) (Path path))
              apiName L4
              (eq_sym (eq_trans (amend_if_ID _ _ _) (eq_trans (amend_if_ID _ _ _)
                         (eq_trans (amend_if_ID _ _ _) (amend_if_ID _ _ _))))))
    as (g5 & cs5 & E5 & L5).
  exists g5, cs5. eexists.
  split.
  { unfold orReturn, bind. rewrite E1, E2, E3, Hs. cbn [deref ret]. rewrite E4. exact E5. }
  split; [exact L5|].
  assert (Hh' : String.eqb (Host rule) "" = false) by now apply String.eqb_neq.
  assert (Hp' : String.eqb (Path path) "" = false) by now apply String.eqb_neq.
  assert (Hu' : String.eqb (upstreamURL_of path namespace) "" = false) by reflexivity.
  subst d1 d2 d3 d5.
  destruct (String.eqb_spec (Kong.Api.UpstreamURL a) (upstreamURL_of path namespace)) as [U|U];
  destruct (Composite.hostsDrift (Kong.Api.Hosts a) (Host rule)) eqn:D2;
  destruct (Kong.Api.PreserveHost a) eqn:D3;
  destruct b;
  destruct (Composite.urisDrift (Kong.Api.Uris a) (Path path)) eqn:D5;
  cbn; rewrite ?Hh', ?Hp', ?Hu', ?Hs, ?D3;
  repeat split;
  try assumption; try reflexivity;
  try (now apply hostsDrift_false);
  try (now apply urisDrift_false);
  try (eexists; reflexivity).
Qed.


(** A record in which the reconciler sees no drift is left alone. *)
Lemma updateAPI_quiet {K : Type} (kongClient : Kong.Client K) (w : World K)
    a rule path namespace rest :
  Kong.Api.UpstreamURL a = upstreamURL_of path namespace ->
  Kong.Api.Hosts a = [Host rule] ->
  Kong.Api.PreserveHost a = true ->
  Kong.Api.StripURI a = Some false ->
  Kong.Api.Uris a = Path path :: rest ->
  updateAPI kongClient a rule path namespace w = (Done None, w).
Proof.
  intros HU HH HP HS HI. unfold updateAPI, orReturn, bind.
  rewrite HU, HH, HP, HS, HI, hostsDrift_converged.
  change (Composite.getUpstreamURL path namespace) with (upstreamURL_of path namespace).
  rewrite String.eqb_refl. unfold Composite.urisDrift. cbn.
  now rewrite String.eqb_refl.
Qed.

End Converge.

(** X4. Convergence in one step.  On the reference gateway, for a pair with
    a non-empty host and path, a reconcile of the current edition returns
    [nil] whether the record is missing or present with any drift (its
    strip-URI flag being set to something); afterwards the record has the
    desired upstream URL, hosts [[host]], preserve-host set, strip-URI
    [false] and uris starting with the path, and the next reconcile sends
    its GET and nothing else. *)
Theorem MemKong_reconcileAPI_converges g cs rule path namespace :
  let apiName := Composite.getQualifiedAPIName (Host rule) (Path path) namespace in
  Host rule <> "" -> Path path <> "" ->
  (forall a, MemKong.lookup apiName g = Some a -> Kong.Api.StripURI a <> None) ->
  let first := Composite.reconcileAPI MemKong.client rule path namespace (mkWorld g cs) in
  let second := Composite.reconcileAPI MemKong.client rule path namespace first.2 in
  first.1 = Done None
  /\ (exists a rest,
        MemKong.lookup apiName (gateway first.2) = Some a
        /\ Kong.Api.UpstreamURL a = upstreamURL_of path namespace
        /\ Kong.Api.Hosts a = [Host rule]
        /\ Kong.Api.PreserveHost a = true
        /\ Kong.Api.StripURI a = Some false
        /\ Kong.Api.Uris a = Path path :: rest)
  /\ second = (Done None, mkWorld (gateway first.2) (calls first.2 ++ [Kong.Get apiName])).
Proof.
  intros apiName Hh Hp Hs first second.
  assert (Again : forall g' cs' a rest,
            MemKong.lookup apiName g' = Some a ->
            Kong.Api.UpstreamURL a = upstreamURL_of path namespace ->
            Kong.Api.Hosts a = [Host rule] ->
            Kong.Api.PreserveHost a = true ->
            Kong.Api.StripURI a = Some false ->
            Kong.Api.Uris a = Path path :: rest ->
            Composite.reconcileAPI MemKong.client rule path namespace (mkWorld g' cs')
            = (Done None, mkWorld g' (cs' ++ [Kong.Get apiName]))).
  { intros g' cs' a rest L HU HH HP HS HI.
    rewrite Composite_reconcileAPI_run. fold apiName.
    cbn [MemKong.client Kong.Apis_Get gateway calls]. rewrite L. cbn [fst snd afterGet].
    cbn [Kong.StatusCode MemKong.answer Z.eqb Kong.StatusNotFound Pos.eqb].
    now apply updateAPI_quiet with (rest := rest). }
  subst second first. rewrite (Composite_reconcileAPI_run MemKong.client (mkWorld g cs)).
  fold apiName. cbn [MemKong.client Kong.Apis_Get gateway calls].
  destruct (MemKong.lookup apiName g) as [a|] eqn:L.
  - cbn [fst snd afterGet].
    cbn [Kong.StatusCode MemKong.answer Z.eqb Kong.StatusNotFound Pos.eqb].
    destruct (Kong.Api.StripURI a) as [b|] eqn:Sa; [|destruct (Hs a eq_refl Sa)].
    destruct (MemKong_updateAPI apiName g (cs ++ [Kong.Get apiName]) a rule path namespace
                b L Sa Hh Hp) as (g' & cs' & a' & E & L' & HU & HH & HP & HS & rest & HI).
    rewrite E. cbn [fst snd gateway calls].
    split; [reflexivity|]. split.
    + exists a', rest. repeat split; assumption.
    + now apply Again with (a := a') (rest := rest).
  - cbn [fst snd afterGet MemKong.refuse].
    cbn [Kong.StatusCode MemKong.answer Z.eqb Kong.StatusNotFound Pos.eqb].
    rewrite createAPI_run.
    set (body := Composite.apiRequestFromIngress rule path namespace).
    cbn [MemKong.client Kong.Apis_Post gateway calls].
    change (Kong.ApiRequest.Name body) with apiName.
    rewrite L. cbn [fst snd gateway calls].
    assert (Hh' : String.eqb (Host rule) "" = false) by now apply String.eqb_neq.
    assert (Hp' : String.eqb (Path path) "" = false) by now apply String.eqb_neq.
    assert (L' : MemKong.lookup apiName (g ++ [MemKong.create body])
                 = Some (MemKong.create body))
      by (now apply MemKong_lookup_app).
    split; [reflexivity|]. split.
    + exists (MemKong.create body), []. subst body. cbn. unfold MemKong.listOf.
      rewrite Hh', Hp'. repeat split. exact L'.
    + apply Again with (a := MemKong.create body) (rest := []); [exact L'|..];
        subst body; cbn; unfold MemKong.listOf; rewrite ?Hh', ?Hp'; reflexivity.
Qed.

Lemma MemKong_reconcileAPI_converges_witness :
  let first := Composite.reconcileAPI MemKong.client shopRule shopApi "prod"
                 (mkWorld [shopApiStale] []) in
  let second := Composite.reconcileAPI MemKong.client shopRule shopApi "prod" first.2 in
  first.1 = Done None
  /\ (exists a rest,
        MemKong.lookup shopApiName (gateway first.2) = Some a
        /\ Kong.Api.UpstreamURL a = upstreamURL_of shopApi "prod"
        /\ Kong.Api.Hosts a = [Host shopRule]
        /\ Kong.Api.PreserveHost a = true
        /\ Kong.Api.StripURI a = Some false
        /\ Kong.Api.Uris a = Path shopApi :: rest)
  /\ second = (Done None, mkWorld (gateway first.2) (calls first.2 ++ [Kong.Get shopApiName])).
Proof.
  apply (MemKong_reconcileAPI_converges [shopApiStale] [] shopRule shopApi "prod").
  - discriminate.
  - discriminate.
  - intros a H. vm_compute in H. injection H as <-. discriminate.
Defined.

(** The stale record is patched twice on the way. *)
Example MemKong_reconcileAPI_stale :
  Composite.reconcileAPI MemKong.client shopRule shopApi "prod" (mkWorld [shopApiStale] [])
  = (Done None,
     mkWorld [shopApiRecord]
       [Kong.Get shopApiName;
        Kong.Patch (Composite.patchUpstreamURL shopApiName "http://api.prod:8080");
        Kong.Patch (Composite.patchStripURI shopApiName)]).
Proof. vm_compute. reflexivity. Qed.

(** ** The dispatcher *)

Section Dispatch.
Context {K : Type} (kongClient : Kong.Client K).

Lemma writesOnly_patchIf drift body apiName :
  writesOnly (Composite.patchIf kongClient drift body apiName).
Proof.
  intros w. rewrite patchIf_run. destruct drift.
  - do 3 eexists. split; [reflexivity|]. split; reflexivity.
  - exists None, w, []. rewrite app_nil_r. repeat split.
Qed.

Lemma writesOnly_orReturn (c k : Op K (option error)) :
  writesOnly c -> writesOnly k -> writesOnly (c ;;; k).
Proof.
  intros Hc Hk w. unfold orReturn, bind.
  destruct (Hc w) as (r1 & w1 & l1 & -> & E1 & F1).
  destruct r1 as [e|].
  - exists (Some e), w1, l1. repeat split; assumption.
  - destruct (Hk w1) as (r2 & w2 & l2 & -> & E2 & F2).
    exists r2, w2, (l1 ++ l2). split; [reflexivity|].
    rewrite E2, E1, app_assoc, forallb_app, F1, F2. now split.
Qed.

Lemma writesOnly_post body (wrap : error -> error) :
  writesOnly (let* (_, err) := request (Kong.Post body) (Kong.Apis_Post kongClient body) in
              match err with
              | Some e => ret (Some (wrap e))
              | None => ret None
              end).
Proof.
  intros w. unfold bind. rewrite request_run.
  destruct (Kong.Apis_Post kongClient body (gateway w)) as [[r [e|]] g];
    do 3 eexists; (split; [reflexivity|]); split; reflexivity.
Qed.

(** A reconcile of the first composite edition for a path of the rule: it
    does not panic, sends its GET and then only writes. *)
Lemma CompositeB_reconcileAPI_shape (w : World K) rule http path namespace :
  answers kongClient ->
  HTTP rule = Some http -> Paths http <> [] ->
  exists res w' l,
    CompositeB.reconcileAPI kongClient rule path namespace w = (Done res, w')
    /\ calls w' = calls w
         ++ Kong.Get (Composite.getQualifiedAPIName (Host rule) (Path path) namespace) :: l
    /\ forallb isWrite l = true.
Proof.
  intros Hans Hh Hp. unfold CompositeB.reconcileAPI.
  set (apiName := Composite.getQualifiedAPIName (Host rule) (Path path) namespace).
  unfold bind at 1. rewrite request_run.
  pose proof (Hans apiName (gateway w)) as A.
  destruct (Kong.Apis_Get kongClient apiName (gateway w)) as [[[api resp] err] g].
  cbn [fst snd] in *.
  set (w0 := mkWorld g (calls w ++ [Kong.Get apiName])).
  assert (Cons : forall l, calls w0 ++ l = calls w ++ Kong.Get apiName :: l).
  { intros l. subst w0. cbn. now rewrite <- app_assoc. }
  assert (Url : exists url, CompositeB.getUpstreamURL rule namespace = Done url).
  { unfold CompositeB.getUpstreamURL, CompositeB.getIngressRuleBackend. rewrite Hh. cbn.
    destruct (Paths http) as [|p ps]; [contradiction|]. cbn. eexists. reflexivity. }
  destruct Url as [url Url].
  assert (Create : exists res w' l,
            (let* kongAPI := lift (CompositeB.apiRequestFromIngress rule path namespace) in
             let* (_, err0) := request (Kong.Post kongAPI) (Kong.Apis_Post kongClient kongAPI) in
             match err0 with
             | Some e => ret (Some (ErrorWrapf e ("Failed to create API '" +:+ apiName +:+ "'")))
             | None => ret None
             end) w0 = (Done res, w')
            /\ calls w' = calls w0 ++ l /\ forallb isWrite l = true).
  { unfold CompositeB.apiRequestFromIngress. rewrite Url. cbn [outcome_bind lift].
    unfold bind at 1. cbn [ret]. apply writesOnly_post. }
  assert (Update : forall a, exists res w' l,
            (let* correctUpstreamURL := lift (CompositeB.getUpstreamURL rule namespace) in
             let* api0 := deref (Some a) in
             (Composite.patchIf kongClient
                (negb (String.eqb (Kong.Api.UpstreamURL api0) correctUpstreamURL))
                (Composite.patchUpstreamURL (Kong.Api.ID api0) correctUpstreamURL) apiName ;;;
              Composite.patchIf kongClient
                (Composite.hostsDrift (Kong.Api.Hosts api0) (Host rule))
                (Composite.patchHosts (Kong.Api.ID api0) (Host rule)) apiName ;;;
              Composite.patchIf kongClient
                (negb (Bool.eqb (Kong.Api.PreserveHost api0) true))
                (Composite.patchPreserveHost (Kong.Api.ID api0)) apiName ;;;
              Composite.patchIf kongClient
                (Composite.urisDrift (Kong.Api.Uris api0) (Path path))
                (Composite.patchUris (Kong.Api.ID api0) (Path path)) apiName)) w0
            = (Done res, w')
            /\ calls w' = calls w0 ++ l /\ forallb isWrite l = true).
  { intros a. rewrite Url. unfold bind at 1. cbn [lift ret]. unfold bind at 1. cbn [deref ret].
    repeat apply writesOnly_orReturn; apply writesOnly_patchIf. }
  assert (Fail : forall e : error, exists res w' l,
            ret (K := K) (Some e) w0 = (Done res, w')
            /\ calls w' = calls w ++ Kong.Get apiName :: l /\ forallb isWrite l = true).
  { intros e. exists (Some e), w0, []. rewrite <- Cons, app_nil_r. repeat split. }
  destruct resp as [r|].
  - destruct err as [e|].
    + destruct (Kong.StatusCode r =? Kong.StatusNotFound)%Z eqn:E; cbn [negb].
      * unfold bind at 1. cbn [deref ret]. rewrite E.
        destruct Create as (res & w' & l & E1 & E2 & E3).
        exists res, w', l. rewrite <- Cons. repeat split; assumption.
      * apply Fail.
    + destruct api as [a|]; [|contradiction].
      unfold bind at 1. cbn [deref ret].
      destruct (Kong.StatusCode r =? Kong.StatusNotFound)%Z.
      * destruct Create as (res & w' & l & E1 & E2 & E3).
        exists res, w', l. rewrite <- Cons. repeat split; assumption.
      * destruct (Update a) as (res & w' & l & E1 & E2 & E3).
        exists res, w', l. rewrite <- Cons. repeat split; assumption.
  - destruct err as [e|]; [apply Fail|]. destruct api; contradiction.
Qed.


Lemma filter_isGet_writes l : forallb isWrite l = true -> List.filter isGet l = [].
Proof.
  induction l as [|c l IH]; [reflexivity|]. cbn [forallb List.filter].
  intros H. apply andb_true_iff in H. destruct H as [Hc Hl].
  destruct c; try discriminate; cbn; now apply IH.
Qed.

Lemma forallb_getOrWrite_writes l :
  forallb isWrite l = true -> forallb getOrWrite l = true.
Proof.
  induction l as [|c l IH]; [reflexivity|]. cbn [forallb].
  intros H. apply andb_true_iff in H. destruct H as [Hc Hl].
  unfold getOrWrite at 1. now rewrite Hc, orb_true_r, IH.
Qed.

(** The inner loop, over some of the paths of a rule. *)
Lemma CompositeB_paths_loop rule http namespace :
  answers kongClient ->
  HTTP rule = Some http ->
  forall paths (w : World K),
    (paths <> [] -> Paths http <> []) ->
    exists w' l,
      forEach paths (fun ingressPath =>
        let* _ := CompositeB.reconcileAPI kongClient rule ingressPath namespace in
        ret tt) w = (Done tt, w')
      /\ calls w' = calls w ++ l
      /\ List.filter isGet l
         = map (fun p => Kong.Get (Composite.getQualifiedAPIName (Host rule) (Path p) namespace))
             paths
      /\ forallb getOrWrite l = true.
Proof.
  intros Hans Hh. induction paths as [|p paths IH]; intros w Hne; cbn [forEach map].
  - exists w, []. rewrite app_nil_r. repeat split.
  - assert (Hp : Paths http <> []) by (apply Hne; discriminate).
    unfold bind at 1. unfold bind at 1.
    destruct (CompositeB_reconcileAPI_shape w rule http p namespace Hans Hh Hp)
      as (res & w1 & l1 & -> & E1 & F1).
    cbn [ret]. destruct (IH w1 (fun _ => Hp)) as (w2 & l2 & -> & E2 & G2 & F2).
    exists w2, (Kong.Get (Composite.getQualifiedAPIName (Host rule) (Path p) namespace)
                  :: l1 ++ l2).
    split; [reflexivity|]. split; [rewrite E2, E1, <- app_assoc; reflexivity|]. split.
    + cbn [List.filter isGet]. rewrite List.filter_app, (filter_isGet_writes l1 F1), G2.
      reflexivity.
    + cbn [forallb]. rewrite forallb_app, (forallb_getOrWrite_writes l1 F1), F2.
      reflexivity.
Qed.

Lemma CompositeB_rules_loop namespace :
  answers kongClient ->
  forall rules (w : World K),
    (forall rule, In rule rules -> HTTP rule <> None) ->
    exists w' l,
      forEach rules (fun ingressRule =>
        let* http := deref (HTTP ingressRule) in
        forEach (Paths http) (fun ingressPath =>
          let* _ := CompositeB.reconcileAPI kongClient ingressRule ingressPath namespace in
          ret tt)) w = (Done tt, w')
      /\ calls w' = calls w ++ l
      /\ List.filter isGet l
         = map Kong.Get
             (map (fun rp => Composite.getQualifiedAPIName (Host rp.1) (Path rp.2) namespace)
                (flat_map (fun rule => match HTTP rule with
                                       | Some http => map (pair rule) (Paths http)
                                       | None => []
                                       end) rules))
      /\ forallb getOrWrite l = true.
Proof.
  intros Hans. induction rules as [|r rules IH]; intros w Hall; cbn [forEach flat_map map].
  - exists w, []. rewrite app_nil_r. repeat split.
  - destruct (HTTP r) as [http|] eqn:Hh; [|destruct (Hall r (or_introl eq_refl) Hh)].
    unfold bind at 1. unfold bind at 1. cbn [deref ret].
    destruct (CompositeB_paths_loop r http namespace Hans Hh (Paths http) w (fun H => H))
      as (w1 & l1 & -> & E1 & G1 & F1).
    destruct (IH w1 (fun r' Hr' => Hall r' (or_intror Hr'))) as (w2 & l2 & -> & E2 & G2 & F2).
    exists w2, (l1 ++ l2). split; [reflexivity|].
    split; [rewrite E2, E1, <- app_assoc; reflexivity|]. split.
    + rewrite List.filter_app, G1, G2, !map_app, !map_map. reflexivity.
    + now rewrite forallb_app, F1, F2.
Qed.

End Dispatch.

(** X5. Every pair is reconciled, whatever happens to the others.  For a
    client that keeps its contract and an eligible ingress without default
    backend whose rules all have an [http] block, [ingressChanged] of the
    first composite edition does not panic; the GETs it sends are those of
    the qualified names of all (rule, path) pairs, in order, each once; and
    it sends nothing but GETs, POSTs and PATCHes. *)
Theorem CompositeB_ingressChanged_reconciles_all {K : Type} (kongClient : Kong.Client K)
    (w : World K) (ingress : Ingress) :
  answers kongClient ->
  Composite.ingressIsFairGame ingress = true ->
  SpecBackend (Spec ingress) = None ->
  (forall rule, In rule (Rules (Spec ingress)) -> HTTP rule <> None) ->
  exists w' l,
    CompositeB.ingressChanged kongClient ingress w = (Done tt, w')
    /\ calls w' = calls w ++ l
    /\ List.filter isGet l = map Kong.Get (pairNames ingress)
    /\ forallb (fun c => isGet c || isWrite c) l = true.
Proof.
  intros Hans Hf Hb Hall. unfold CompositeB.ingressChanged.
  rewrite Hf. cbn [negb]. unfold Composite.validateIngressSupported. rewrite Hb.
  apply (CompositeB_rules_loop kongClient (Namespace (Meta ingress)) Hans
           (Rules (Spec ingress)) w Hall).
Qed.

(** X6. Ingresses that are not for this controller cause no gateway
    request.  In composite form: an ingress whose class annotation is
    present and different from ["kong"], or that has a default backend.  In
    simple form: an ingress of any unsupported shape. *)
Theorem ingressChanged_ignores {K : Type} (kongClient : Kong.Client K) (w : World K)
    (ingress : Ingress) :
  ((exists class, Annotations (Meta ingress) !! "kubernetes.io/ingress.class" = Some class
                  /\ class <> "kong")
   \/ SpecBackend (Spec ingress) <> None ->
   CompositeB.ingressChanged kongClient ingress w = (Done tt, w))
  /\ (unsupported_simple ingress ->
      Simple.ingressChanged kongClient ingress w = (Done tt, w)).
Proof.
  split.
  - intros H. unfold CompositeB.ingressChanged.
    destruct (Composite.ingressIsFairGame ingress) eqn:Hf; [|reflexivity]. cbn [negb].
    destruct H as [(class & Hc & Hn) | Hb].
    + unfold Composite.ingressIsFairGame, Composite.ingressClassAnnotationName,
        Composite.kongIngressControllerClass in Hf.
      rewrite Hc in Hf. cbn in Hf. rewrite orb_false_r in Hf.
      apply String.eqb_eq in Hf. contradiction.
    + unfold Composite.validateIngressSupported.
      destruct (SpecBackend (Spec ingress)); [reflexivity | contradiction].
  - intros U. unfold Simple.ingressChanged, bind.
    destruct (validate_simple_cases ingress) as [[[e R] _] | [[R S] | (R & B & r & HR & HH)]].
    + rewrite R. reflexivity.
    + exfalso. destruct S as (SB & r & p & SR & SH & SP).
      destruct U as [U | [U | (r' & h & UR & UH & U)]].
      * contradiction.
      * rewrite SR in U. now apply U.
      * rewrite SR in UR. injection UR as <-. rewrite SH in UH. injection UH as <-.
        destruct U as [U | (p' & E & U)]; [now apply U|].
        cbn in E. injection E as <-. contradiction.
    + exfalso. destruct U as [U | [U | (r' & h & UR & UH & _)]].
      * contradiction.
      * rewrite HR in U. now apply U.
      * rewrite HR in UR. injection UR as <-. congruence.
Qed.

Lemma MemKong_answers : answers MemKong.client.
Proof.
  intros name g. cbn. unfold MemKong.lookup.
  destruct (find (MemKong.hasName name) g); exact I.
Qed.

Lemma CompositeB_ingressChanged_reconciles_all_witness :
  exists w' l,
    CompositeB.ingressChanged MemKong.client shopIngress (MemKong.start []) = (Done tt, w')
    /\ calls w' = calls (MemKong.start []) ++ l
    /\ List.filter isGet l = map Kong.Get (pairNames shopIngress)
    /\ forallb (fun c => isGet c || isWrite c) l = true.
Proof.
  apply (CompositeB_ingressChanged_reconciles_all MemKong.client (MemKong.start [])
           shopIngress).
  - exact MemKong_answers.
  - reflexivity.
  - reflexivity.
  - intros rule [<- | []]. simpl. discriminate.
Defined.

Lemma ingressChanged_ignores_witness :
  CompositeB.ingressChanged MemKong.client
    (mkIngress (mkObjectMeta "web" "prod" {[ "kubernetes.io/ingress.class" := "nginx" ]})
       (Spec shopIngress)) (MemKong.start [])
  = (Done tt, MemKong.start [])
  /\ Simple.ingressChanged MemKong.client pathlessIngress (MemKong.start [])
     = (Done tt, MemKong.start []).
Proof.
  split.
  - apply (proj1 (ingressChanged_ignores MemKong.client (MemKong.start [])
                    (mkIngress (mkObjectMeta "web" "prod"
                                  {[ "kubernetes.io/ingress.class" := "nginx" ]})
                       (Spec shopIngress)))).
    left. exists "nginx". split; [reflexivity | discriminate].
  - apply (proj2 (ingressChanged_ignores MemKong.client (MemKong.start []) pathlessIngress)).
    right. right. exists (mkIngressRule "somename.somedomain" (Some (mkHTTPIngressRuleValue []))),
      (mkHTTPIngressRuleValue []).
    split; [reflexivity|]. split; [reflexivity|]. left. simpl. discriminate.
Defined.

(** ** Delete events *)

Section Loops.
Context {K : Type}.

Lemma forEach_app {A} (l1 l2 : list A) (body : A -> Op K unit) (w : World K) :
  forEach (l1 ++ l2) body w = bind (forEach l1 body) (fun _ => forEach l2 body) w.
Proof.
  revert w. induction l1 as [|x l1 IH]; intros w; cbn [app forEach].
  - reflexivity.
  - unfold bind. destruct (body x w) as [[[]|] w1]; [|reflexivity].
    rewrite IH. reflexivity.
Qed.

Lemma forEach_map {A B} (f : A -> B) (l : list A) (body : B -> Op K unit) (w : World K) :
  forEach (map f l) body w = forEach l (fun x => body (f x)) w.
Proof.
  revert w. induction l as [|x l IH]; intros w; cbn [map forEach]; [reflexivity|].
  unfold bind. destruct (body (f x) w) as [[[]|] w1]; [apply IH | reflexivity].
Qed.

Lemma bind_ext {A B} (c c' : Op K A) (k k' : A -> Op K B) (w : World K) :
  c w = c' w -> (forall a w', k a w' = k' a w') -> bind c k w = bind c' k' w.
Proof.
  intros Hc Hk. unfold bind. rewrite Hc. destruct (c' w) as [[a|] w1]; [apply Hk | reflexivity].
Qed.

(** The nested loops over rules and paths are one loop over the pairs, as
    long as every rule has its [http] block. *)
Lemma forEach_pairs (ingress : Ingress) (body : IngressRule -> HTTPIngressPath -> Op K unit)
    (w : World K) :
  (forall rule, In rule (Rules (Spec ingress)) -> HTTP rule <> None) ->
  forEach (Rules (Spec ingress)) (fun ingressRule =>
    let* http := deref (HTTP ingressRule) in
    forEach (Paths http) (fun ingressPath => body ingressRule ingressPath)) w
  = forEach (pairs ingress) (fun rp => body rp.1 rp.2) w.
Proof.
  unfold pairs. generalize (Rules (Spec ingress)). intros rules. revert w.
  induction rules as [|r rules IH]; intros w Hall; cbn [forEach flat_map]; [reflexivity|].
  destruct (HTTP r) as [http|] eqn:Hh; [|destruct (Hall r (or_introl eq_refl) Hh)].
  rewrite forEach_app. apply bind_ext; [now rewrite forEach_map|].
  intros _ w1. apply IH. intros r' Hr'. apply Hall. now right.
Qed.

End Loops.

Section Deleted.
Context {K : Type} (kongClient : Kong.Client K).

Lemma Composite_ingressDeleted_pairs (w : World K) names :
  exists w' l,
    forEach names (fun apiName =>
      let* _ := Composite.deleteKongAPI kongClient apiName in ret tt) w = (Done tt, w')
    /\ calls w' = calls w ++ l
    /\ List.filter isGet l = map Kong.Get names
    /\ (forall c, In c l -> isGet c = false -> exists n, c = Kong.Delete n /\ In n names).
Proof.
  revert w. induction names as [|n names IH]; intros w; cbn [forEach map].
  - exists w, []. rewrite app_nil_r. repeat split. intros c [].
  - unfold bind at 1. unfold bind at 1. rewrite deleteKongAPI_run. cbv zeta.
    destruct ((Kong.Apis_Get kongClient n (gateway w)).1.2) as [e|]; cbn [ret].
    + match goal with |- context [forEach _ _ ?w1] =>
        destruct (IH w1) as (w' & l & -> & Hc & Hg & Hd) end.
      exists w', (Kong.Get n :: l). cbn [calls] in Hc.
      split; [reflexivity|]. split; [rewrite Hc, <- app_assoc; reflexivity|]. split.
      * cbn. now rewrite Hg.
      * intros c [<- | Hin] Hn; [discriminate|].
        destruct (Hd c Hin Hn) as (m & -> & Hm). exists m. split; [reflexivity | now right].
    + match goal with |- context [forEach _ _ ?w1] =>
        destruct (IH w1) as (w' & l & -> & Hc & Hg & Hd) end.
      exists w', (Kong.Get n :: Kong.Delete n :: l). cbn [calls] in Hc.
      split; [reflexivity|]. split; [rewrite Hc, <- app_assoc; reflexivity|]. split.
      * cbn. now rewrite Hg.
      * intros c [<- | [<- | Hin]] Hn; [discriminate | |].
        -- exists n. split; [reflexivity | now left].
        -- destruct (Hd c Hin Hn) as (m & -> & Hm). exists m. split; [reflexivity | now right].
Qed.

End Deleted.



Section DeletedMemKong.

Lemma MemKong_delete_names names : forall g cs,
  exists cs',
    forEach names (fun apiName =>
      let* _ := Composite.deleteKongAPI MemKong.client apiName in ret tt) (mkWorld g cs)
    = (Done tt, mkWorld (purge names g) cs').
Proof.
  unfold purge. induction names as [|n names IH]; intros g cs; cbn [forEach existsb].
  - exists cs. now rewrite filter_all.
  - unfold bind at 1. unfold bind at 1.
    destruct (MemKong_deleteKongAPI n g cs) as (res & cs1 & ->). cbn [ret].
    destruct (IH (List.filter (fun a => negb (MemKong.hasName n a)) g) cs1) as (cs2 & ->).
    exists cs2. rewrite filter_twice. do 2 f_equal. apply List.filter_ext.
    intros a. unfold MemKong.hasName. now rewrite negb_orb.
Qed.

End DeletedMemKong.

(** X8. On the reference gateway a delete event of an eligible ingress
    removes exactly the records named after its (rule, path) pairs and
    leaves every other record as it is. *)
Theorem MemKong_ingressDeleted_purges (ingress : Ingress) g cs :
  Composite.ingressIsFairGame ingress = true ->
  (forall rule, In rule (Rules (Spec ingress)) -> HTTP rule <> None) ->
  exists cs',
    Composite.ingressDeleted MemKong.client ingress (mkWorld g cs)
    = (Done tt, mkWorld (purge (pairNames ingress) g) cs').
Proof.
  intros Hf Hall. unfold Composite.ingressDeleted. rewrite Hf. cbn [negb].
  rewrite (forEach_pairs ingress
             (fun ingressRule ingressPath =>
                let* _ := Composite.deleteKongAPI MemKong.client
                            (Composite.getQualifiedAPIName (Host ingressRule) (Path ingressPath)
                               (Namespace (Meta ingress))) in ret tt) _ Hall).
  rewrite <- (forEach_map
                (fun rp => Composite.getQualifiedAPIName (Host rp.1) (Path rp.2)
                             (Namespace (Meta ingress)))
                (pairs ingress)
                (fun apiName => let* _ := Composite.deleteKongAPI MemKong.client apiName in ret tt)).
  apply MemKong_delete_names.
Qed.

Lemma MemKong_ingressDeleted_purges_witness :
  exists cs',
    Composite.ingressDeleted MemKong.client shopIngress
      (mkWorld [shopApiRecord; bestserviceRecord] [])
    = (Done tt, mkWorld (purge (pairNames shopIngress) [shopApiRecord; bestserviceRecord]) cs').
Proof.
  apply (MemKong_ingressDeleted_purges shopIngress [shopApiRecord; bestserviceRecord] []).
  - reflexivity.
  - intros rule [<- | []]. simpl. discriminate.
Defined.

Example purge_shop :
  purge (pairNames shopIngress) [shopApiRecord; bestserviceRecord] = [bestserviceRecord].
Proof. vm_compute. reflexivity. Qed.

(** ** More on the reaper *)

(** X9. The reaper of the simple form has no eligibility filter and needs
    no rule: its table holds exactly the names [name.namespace] of the
    listed ingresses, and on the reference gateway a cycle returns [nil] and
    leaves exactly the records with such a name. *)
Theorem Simple_reapOrphanedApis_spares_listed (items : list Ingress) :
  (forall n, mapget (Simple.ingMapItems items ∅) n = true
             <-> exists ingress, In ingress items /\ n = Simple.getQualifiedName ingress)
  /\ (forall g, exists cs,
        Simple.reapOrphanedApis MemKong.client (Some items, None) (MemKong.start g)
        = (Done None,
           mkWorld (List.filter
                      (fun a => mapget (Simple.ingMapItems items ∅) (Kong.Api.Name a)) g) cs)).
Proof.
  split.
  - intros n. rewrite Simple_ingMapItems_spec, mapget_empty.
    split; [intros [F | O]; [discriminate | exact O] | now right].
  - intros g. unfold Simple.reapOrphanedApis, MemKong.start.
    unfold bind at 1. rewrite request_run.
    cbn [MemKong.client Kong.Apis_GetAll fst snd gateway calls deref ret].
    unfold bind at 1. cbn [ret]. unfold bind at 1. cbn [deref ret]. unfold bind at 1.
    match goal with
    | |- context [forEach _ ?b _] =>
        destruct (reap_loop_MemKong (Simple.ingMapItems items ∅) b (fun api => eq_refl)
                    g g ([] ++ [Kong.GetAll])) as [cs ->]
    end.
    exists cs. cbn [ret]. now rewrite sweep_self.
Qed.

Section ReaperPanic.

Lemma ingMapRules_panic namespace rules : forall m,
  (exists rule, In rule rules /\ HTTP rule = None) ->
  Composite.ingMapRules namespace rules m = Panic.
Proof.
  induction rules as [|r rules IH]; intros m (rule & Hin & Hn); [destruct Hin|].
  cbn [Composite.ingMapRules]. destruct (HTTP r) as [h|] eqn:Hh; [|reflexivity]. cbn.
  apply IH. destruct Hin as [<- | Hin]; [congruence|]. now exists rule.
Qed.

Lemma ingMapItems_panic items : forall m,
  (exists ingress rule, In ingress items /\ Composite.ingressIsFairGame ingress = true
                        /\ In rule (Rules (Spec ingress)) /\ HTTP rule = None) ->
  Composite.ingMapItems items m = Panic.
Proof.
  induction items as [|i items IH]; intros m (ing & rule & Hin & Hf & Hr & Hn);
    [destruct Hin|].
  cbn [Composite.ingMapItems].
  destruct (Composite.ingressIsFairGame i) eqn:Hfi.
  - destruct (Composite.ingMapRules (Namespace (Meta i)) (Rules (Spec i)) m) as [m1|] eqn:E;
      [|reflexivity].
    cbn. apply IH. destruct Hin as [<- | Hin].
    + rewrite ingMapRules_panic in E; [discriminate|]. now exists rule.
    + now exists ing, rule.
  - apply IH. destruct Hin as [<- | Hin]; [congruence|]. now exists ing, rule.
Qed.

End ReaperPanic.

(** X10. A rule without [http] block stops the composite reaper.  If the
    gateway listing succeeds and some eligible listed ingress has a rule
    whose [HTTP] is nil, the cycle panics while it builds its table: the
    listing is the only request sent, nothing is deleted. *)
Theorem reapOrphanedApis_panics_without_http {K : Type} (kongClient : Kong.Client K)
    (w : World K) (items : list Ingress) ingress rule :
  (Kong.Apis_GetAll kongClient (gateway w)).1.2 = None ->
  In ingress items -> Composite.ingressIsFairGame ingress = true ->
  In rule (Rules (Spec ingress)) -> HTTP rule = None ->
  Composite.reapOrphanedApis kongClient (Some items, None) w
  = (Panic, mkWorld (Kong.Apis_GetAll kongClient (gateway w)).2 (calls w ++ [Kong.GetAll])).
Proof.
  intros HG Hin Hf Hr Hn. unfold Composite.reapOrphanedApis.
  unfold bind at 1. rewrite request_run.
  destruct (Kong.Apis_GetAll kongClient (gateway w)) as [[[apis r] err] g].
  cbn [fst snd] in *. subst err.
  unfold bind at 1. cbn [deref ret]. unfold bind at 1.
  rewrite ingMapItems_panic; [reflexivity|]. now exists ingress, rule.
Qed.

Lemma reapOrphanedApis_panics_without_http_witness :
  let hostOnly := mkIngress (mkObjectMeta "bare" "prod" ∅)
                    (mkIngressSpec None [mkIngressRule "bare.example.com" None]) in
  Composite.reapOrphanedApis MemKong.client (Some [shopIngress; hostOnly], None)
    (MemKong.start [bestserviceRecord])
  = (Panic, mkWorld [bestserviceRecord] [Kong.GetAll]).
Proof.
  apply (reapOrphanedApis_panics_without_http MemKong.client (MemKong.start [bestserviceRecord])
           [shopIngress; mkIngress (mkObjectMeta "bare" "prod" ∅)
                           (mkIngressSpec None [mkIngressRule "bare.example.com" None])]
           (mkIngress (mkObjectMeta "bare" "prod" ∅)
              (mkIngressSpec None [mkIngressRule "bare.example.com" None]))
           (mkIngressRule "bare.example.com" None)).
  - reflexivity.
  - right. left. reflexivity.
  - reflexivity.
  - left. reflexivity.
  - reflexivity.
Defined.

Lemma reap_loop_touches {K : Type} (kongClient : Kong.Client K)
    (ingMap : gmap string bool) (body : option Kong.Api.t -> Op K unit) :
  (forall api, body (Some api)
     = if negb (mapget ingMap (Kong.Api.Name api))
       then bind (Composite.deleteKongAPI kongClient (Kong.Api.Name api))
              (fun _ => ret tt)
       else ret tt) ->
  forall data w,
    exists w' l,
      forEach (map Some data) body w = (Done tt, w')
      /\ calls w' = calls w ++ l
      /\ (forall c, In c l ->
            exists a, In a data /\ mapget ingMap (Kong.Api.Name a) = false
                      /\ (c = Kong.Get (Kong.Api.Name a) \/ c = Kong.Delete (Kong.Api.Name a)))
      /\ (forall a, In a data -> mapget ingMap (Kong.Api.Name a) = false ->
            In (Kong.Get (Kong.Api.Name a)) l).
Proof.
  intros Hb. induction data as [|d data IH]; intros w; cbn [map forEach].
  - exists w, []. rewrite app_nil_r. repeat split; intros; contradiction.
  - unfold bind at 1. rewrite Hb.
    destruct (mapget ingMap (Kong.Api.Name d)) eqn:Hm; cbn [negb].
    + cbn [ret]. destruct (IH w) as (w' & l & E & Hc & Ht & Hg).
      exists w', l. repeat split; [exact E | exact Hc | |].
      * intros c Hin. destruct (Ht c Hin) as (a & Ha & Hf & Hor).
        exists a. repeat split; [now right | exact Hf | exact Hor].
      * intros a [<- | Ha] Hf; [congruence | now apply Hg].
    + unfold bind at 1. rewrite deleteKongAPI_run. cbv zeta.
      destruct ((Kong.Apis_Get kongClient (Kong.Api.Name d) (gateway w)).1.2) as [e|].
      * cbn [ret].
        match goal with |- context [forEach _ _ ?w1] => destruct (IH w1) as (w' & l & E & Hc & Ht & Hg) end.
        exists w', (Kong.Get (Kong.Api.Name d) :: l). cbn [calls] in Hc.
        repeat split; [exact E | rewrite Hc, <- app_assoc; reflexivity | |].
        -- intros c [<- | Hin].
           ++ exists d. repeat split; [now left | exact Hm | now left].
           ++ destruct (Ht c Hin) as (a & Ha & Hf & Hor).
              exists a. repeat split; [now right | exact Hf | exact Hor].
        -- intros a [<- | Ha] Hf; [now left | right; now apply Hg].
      * cbn [ret].
        match goal with |- context [forEach _ _ ?w1] => destruct (IH w1) as (w' & l & E & Hc & Ht & Hg) end.
        exists w', (Kong.Get (Kong.Api.Name d) :: Kong.Delete (Kong.Api.Name d) :: l).
        cbn [calls] in Hc.
        repeat split; [exact E | rewrite Hc, <- app_assoc; reflexivity | |].
        -- intros c [<- | [<- | Hin]].
           ++ exists d. repeat split; [now left | exact Hm | now left].
           ++ exists d. repeat split; [now left | exact Hm | now right].
           ++ destruct (Ht c Hin) as (a & Ha & Hf & Hor).
              exists a. repeat split; [now right | exact Hf | exact Hor].
        -- intros a [<- | Ha] Hf; [now left | right; right; now apply Hg].
Qed.

(** X11. A cycle touches only orphans, on any gateway.  Let every rule of
    the eligible ingresses carry its [http] block and let the listing of the
    gateway APIs succeed.  Then the cycle returns [nil] whatever the gateway
    answers afterwards, and after the listing every request is the GET or
    the DELETE of a listed name that no eligible ingress owns; every such
    name is at least fetched.  No record is created or patched, and no owned
    name is ever addressed. *)
Theorem reapOrphanedApis_touches_only_orphans {K : Type} (kongClient : Kong.Client K)
    (w : World K) (items : list Ingress) (data : list Kong.Api.t) r g' :
  rulesHaveHTTP items ->
  Kong.Apis_GetAll kongClient (gateway w) = ((Some (map Some data), r, None), g') ->
  exists w' l,
    Composite.reapOrphanedApis kongClient (Some items, None) w = (Done None, w')
    /\ calls w' = calls w ++ Kong.GetAll :: l
    /\ (forall c, In c l ->
          exists a, In a data /\ ~ owned items (Kong.Api.Name a)
                    /\ (c = Kong.Get (Kong.Api.Name a) \/ c = Kong.Delete (Kong.Api.Name a)))
    /\ (forall a, In a data -> ~ owned items (Kong.Api.Name a) ->
          In (Kong.Get (Kong.Api.Name a)) l).
Proof.
  intros Hh HG. destruct (ingMapItems_total items ∅ Hh) as [ingMap Hm].
  assert (Hown : forall n, mapget ingMap n = false <-> ~ owned items n).
  { intros n. rewrite <- not_true_iff_false, (ingMapItems_spec items ∅ ingMap Hm n),
      mapget_empty. split; intros H O; apply H; [now right|].
    destruct O as [F | O]; [discriminate | exact O]. }
  unfold Composite.reapOrphanedApis.
  unfold bind at 1. rewrite request_run, HG. cbn [fst snd deref ret].
  unfold bind at 1. cbn [ret]. unfold bind at 1. rewrite Hm. cbn [lift ret].
  unfold bind at 1. cbn [deref ret]. unfold bind at 1.
  match goal with
  | |- context [forEach _ ?b ?w0] =>
      destruct (reap_loop_touches kongClient ingMap b (fun api => eq_refl) data w0)
        as (w' & l & -> & Hc & Ht & Hg)
  end.
  exists w', l. cbn [ret calls] in *. repeat split.
  - rewrite Hc, <- app_assoc. reflexivity.
  - intros c Hin. destruct (Ht c Hin) as (a & Ha & Hf & Hor).
    exists a. repeat split; [exact Ha | now apply Hown | exact Hor].
  - intros a Ha Ho. apply Hg; [exact Ha | now apply Hown].
Qed.

Lemma reapOrphanedApis_touches_only_orphans_witness :
  exists w' l,
    Composite.reapOrphanedApis MemKong.client (Some [shopIngress], None)
      (MemKong.start [shopApiRecord; bestserviceRecord]) = (Done None, w')
    /\ calls w' = calls (MemKong.start [shopApiRecord; bestserviceRecord]) ++ Kong.GetAll :: l
    /\ (forall c, In c l ->
          exists a, In a [shopApiRecord; bestserviceRecord]
                    /\ ~ owned [shopIngress] (Kong.Api.Name a)
                    /\ (c = Kong.Get (Kong.Api.Name a) \/ c = Kong.Delete (Kong.Api.Name a)))
    /\ (forall a, In a [shopApiRecord; bestserviceRecord] ->
          ~ owned [shopIngress] (Kong.Api.Name a) -> In (Kong.Get (Kong.Api.Name a)) l).
Proof.
  apply (reapOrphanedApis_touches_only_orphans MemKong.client
           (MemKong.start [shopApiRecord; bestserviceRecord]) [shopIngress]
           [shopApiRecord; bestserviceRecord] (MemKong.answer 200)
           [shopApiRecord; bestserviceRecord]).
  - intros ingress rule [<- | []] _ [<- | []]. discriminate.
  - reflexivity.
Defined.

Section ReaperAgain.

Lemma MemKong_reapOrphanedApis_run items ingMap g cs :
  Composite.ingMapItems items ∅ = Done ingMap ->
  exists cs',
    Composite.reapOrphanedApis MemKong.client (Some items, None) (mkWorld g cs)
    = (Done None,
       mkWorld (List.filter (fun a => mapget ingMap (Kong.Api.Name a)) g)
         (cs ++ Kong.GetAll :: cs')).
Proof.
  intros Hm. unfold Composite.reapOrphanedApis.
  unfold bind at 1. rewrite request_run.
  cbn [MemKong.client Kong.Apis_GetAll fst snd gateway calls deref ret].
  unfold bind at 1. cbn [ret]. unfold bind at 1. rewrite Hm. cbn [lift ret].
  unfold bind at 1. cbn [deref ret]. unfold bind at 1.
  match goal with
  | |- context [forEach _ ?b ?w0] =>
      destruct (reap_loop_calls MemKong.client ingMap b (fun api => eq_refl) g w0)
        as (w' & l & E & Hc & _);
      destruct (reap_loop_MemKong ingMap b (fun api => eq_refl) g g (cs ++ [Kong.GetAll]))
        as [cs1 E1]
  end.
  rewrite E1 in E. injection E as <-. rewrite E1. cbn [ret calls] in *.
  exists l. rewrite sweep_self, Hc, <- app_assoc. reflexivity.
Qed.

(** A store in which every record is owned is left alone by the loop. *)
Lemma reap_loop_quiet {K : Type} (kongClient : Kong.Client K) (ingMap : gmap string bool)
    (body : option Kong.Api.t -> Op K unit) :
  (forall api, body (Some api)
     = if negb (mapget ingMap (Kong.Api.Name api))
       then bind (Composite.deleteKongAPI kongClient (Kong.Api.Name api)) (fun _ => ret tt)
       else ret tt) ->
  forall data w,
    (forall a, In a data -> mapget ingMap (Kong.Api.Name a) = true) ->
    forEach (map Some data) body w = (Done tt, w).
Proof.
  intros Hb. induction data as [|d data IH]; intros w Hall; cbn [map forEach]; [reflexivity|].
  unfold bind at 1. rewrite Hb, (Hall d (or_introl eq_refl)). cbn.
  apply IH. intros a Ha. apply Hall. now right.
Qed.

End ReaperAgain.

(** X12. A second cycle finds nothing to do.  On the reference gateway,
    with the same listing, the cycle after a completed cycle sends the
    listing of the gateway APIs and nothing else, and leaves the store as it
    is. *)
Theorem MemKong_reapOrphanedApis_idempotent items g cs :
  rulesHaveHTTP items ->
  let first := Composite.reapOrphanedApis MemKong.client (Some items, None) (mkWorld g cs) in
  let second := Composite.reapOrphanedApis MemKong.client (Some items, None) first.2 in
  first.1 = Done None
  /\ second = (Done None, mkWorld (gateway first.2) (calls first.2 ++ [Kong.GetAll])).
Proof.
  intros H first second. subst second first.
  destruct (ingMapItems_total items ∅ H) as [ingMap Hm].
  destruct (MemKong_reapOrphanedApis_run items ingMap g cs Hm) as (cs' & ->).
  cbn [fst snd gateway calls]. split; [reflexivity|].
  unfold Composite.reapOrphanedApis.
  unfold bind at 1. rewrite request_run.
  cbn [MemKong.client Kong.Apis_GetAll fst snd gateway calls deref ret].
  unfold bind at 1. cbn [ret]. unfold bind at 1. rewrite Hm. cbn [lift ret].
  unfold bind at 1. cbn [deref ret]. unfold bind at 1.
  match goal with
  | |- context [forEach _ ?b ?w0] =>
      rewrite (reap_loop_quiet MemKong.client ingMap b (fun api => eq_refl) _ w0)
  end.
  - reflexivity.
  - intros a Ha. apply filter_In in Ha. apply Ha.
Qed.

(** X13. The reaper loop survives failed cycles.  On the reference gateway,
    after any number of cycles in which the ingress listing fails, each of
    which only lists the gateway APIs, the next cycle with a good listing
    leaves exactly the owned records. *)
Theorem MemKong_apiReaper_recovers items (errs : list error) g cs :
  rulesHaveHTTP items ->
  exists ingMap cs',
    Composite.ingMapItems items ∅ = Done ingMap
    /\ apiReaper MemKong.client
         (map (fun e => (None, Some e)) errs ++ [(Some items, None)]) (mkWorld g cs)
       = (Done tt,
          mkWorld (List.filter (fun a => mapget ingMap (Kong.Api.Name a)) g)
            (cs ++ repeat Kong.GetAll (length errs) ++ Kong.GetAll :: cs')).
Proof.
  intros H. destruct (ingMapItems_total items ∅ H) as [ingMap Hm].
  exists ingMap. unfold apiReaper. revert cs.
  induction errs as [|e errs IH]; intros cs; cbn [map app forEach length repeat].
  - destruct (MemKong_reapOrphanedApis_run items ingMap g cs Hm) as (cs' & E).
    exists cs'. split; [exact Hm|]. unfold bind at 1. unfold bind at 1. rewrite E. reflexivity.
  - destruct (IH (cs ++ [Kong.GetAll])) as (cs' & _ & E).
    exists cs'. split; [exact Hm|]. unfold bind at 1. unfold bind at 1.
    unfold Composite.reapOrphanedApis at 1. unfold bind at 1. rewrite request_run.
    cbn [MemKong.client Kong.Apis_GetAll fst snd gateway calls deref ret].
    rewrite E. rewrite <- !app_assoc. reflexivity.
Qed.

Lemma MemKong_reapOrphanedApis_idempotent_witness :
  let first := Composite.reapOrphanedApis MemKong.client (Some [shopIngress], None)
                 (mkWorld [shopApiRecord; bestserviceRecord] []) in
  let second := Composite.reapOrphanedApis MemKong.client (Some [shopIngress], None) first.2 in
  first.1 = Done None
  /\ second = (Done None, mkWorld (gateway first.2) (calls first.2 ++ [Kong.GetAll])).
Proof.
  apply (MemKong_reapOrphanedApis_idempotent [shopIngress]
           [shopApiRecord; bestserviceRecord] []).
  intros ingress rule [<- | []] _ [<- | []]. simpl. discriminate.
Defined.

Lemma MemKong_apiReaper_recovers_witness :
  exists ingMap cs',
    Composite.ingMapItems [shopIngress] ∅ = Done ingMap
    /\ apiReaper MemKong.client
         (map (fun e => (None, Some e)) [ErrorTransport "timeout"; ErrorHTTP 503]
            ++ [(Some [shopIngress], None)])
         (mkWorld [shopApiRecord; bestserviceRecord] [])
       = (Done tt,
          mkWorld (List.filter (fun a => mapget ingMap (Kong.Api.Name a))
                     [shopApiRecord; bestserviceRecord])
            ([] ++ repeat Kong.GetAll (length [ErrorTransport "timeout"; ErrorHTTP 503])
                ++ Kong.GetAll :: cs')).
Proof.
  apply (MemKong_apiReaper_recovers [shopIngress] [ErrorTransport "timeout"; ErrorHTTP 503]
           [shopApiRecord; bestserviceRecord] []).
  intros ingress rule [<- | []] _ [<- | []]. simpl. discriminate.
Defined.

(** ** Certificates *)

Section TrimFacts.

Lemma trimRightByte_newlines n : Tls.trimRightByte (newlines n) Tls.trimSet = "".
Proof. induction n as [|n IH]; [reflexivity|]. cbn. now rewrite IH. Qed.

Lemma trimRightByte_app_newlines x n :
  Tls.trimRightByte (x +:+ newlines n) Tls.trimSet = Tls.trimRightByte x Tls.trimSet.
Proof.
  induction x as [|a x IH]; [apply trimRightByte_newlines|].
  simpl. now rewrite IH.
Qed.

Lemma Trim_cons_newline x :
  Tls.Trim (String Tls.trimSet x) Tls.trimSet = Tls.Trim x Tls.trimSet.
Proof.
  unfold Tls.Trim. cbn [Tls.trimRightByte].
  destruct (Tls.trimRightByte x Tls.trimSet) as [|b t]; reflexivity.
Qed.

Lemma Trim_padded p core s :
  Tls.Trim (newlines p +:+ core +:+ newlines s) Tls.trimSet = Tls.Trim core Tls.trimSet.
Proof.
  induction p as [|p IH].
  - change (newlines 0 +:+ core +:+ newlines s) with (core +:+ newlines s).
    unfold Tls.Trim. now rewrite trimRightByte_app_newlines.
  - change (newlines (S p) +:+ core +:+ newlines s)
      with (String Tls.trimSet (newlines p +:+ core +:+ newlines s)).
    now rewrite Trim_cons_newline.
Qed.

Lemma Trim_sameUpToNewlines a b :
  sameUpToNewlines a b -> Tls.Trim a Tls.trimSet = Tls.Trim b Tls.trimSet.
Proof. intros (core & pa & sa & pb & sb & -> & ->). now rewrite !Trim_padded. Qed.

End TrimFacts.

Section Certificates.
Context {K : Type} (certClient : Tls.CertClient K) (coreClient : Tls.Secrets).

Lemma Tls_request_run {A} (e : Tls.Event) (f : K -> A * K) (w : Tls.World K) :
  Tls.request e f w
  = (Done (f (Tls.gateway w)).1, Tls.mkWorld (f (Tls.gateway w)).2 (Tls.events w ++ [e])).
Proof. unfold Tls.request. destruct (f (Tls.gateway w)); reflexivity. Qed.

Lemma Tls_forEach_cons {A} (x : A) (l : list A) (body : A -> Tls.Op K unit) w w1 :
  body x w = (Done tt, w1) ->
  Tls.forEach (x :: l) body w = Tls.forEach l body w1.
Proof. intros H. cbn [Tls.forEach]. unfold Tls.bind at 1. now rewrite H. Qed.

Lemma Tls_bind_done {A B} (c : Tls.Op K A) (k : A -> Tls.Op K B) w a w1 :
  c w = (Done a, w1) -> Tls.bind c k w = k a w1.
Proof. intros H. unfold Tls.bind. now rewrite H. Qed.

Lemma reconcileCertificate_loop ingressTLS namespace (w : Tls.World K) :
  Tls.reconcileCertificate certClient coreClient ingressTLS namespace w
  = Tls.bind (certLoop certClient coreClient ingressTLS namespace (Tls.Hosts ingressTLS))
      (fun _ => Tls.ret None) w.
Proof. reflexivity. Qed.

(** One host, by the answers of cluster and gateway. *)
Lemma certStep_no_secret ingressTLS namespace host o e (w : Tls.World K) :
  coreClient namespace (Tls.SecretName ingressTLS) = (o, Some e) ->
  certStep certClient coreClient ingressTLS namespace host w
  = (Done tt,
     Tls.mkWorld (Tls.gateway w)
       (Tls.events w ++ [Tls.SecretGet namespace (Tls.SecretName ingressTLS)])).
Proof. intros Hs. unfold certStep, Tls.bind, Tls.read. rewrite Hs. reflexivity. Qed.

Lemma certStep_create ingressTLS namespace host secret (w : Tls.World K) :
  coreClient namespace (Tls.SecretName ingressTLS) = (Some secret, None) ->
  (Tls.Certificates_Get certClient host (Tls.gateway w)).1.2 <> None ->
  exists g',
    certStep certClient coreClient ingressTLS namespace host w
    = (Done tt,
       Tls.mkWorld g'
         (Tls.events w
          ++ [Tls.SecretGet namespace (Tls.SecretName ingressTLS);
              Tls.CertGet host;
              Tls.CertPost (Tls.CertificateRequest.mk (secretCert secret) (secretKey secret)
                              host)])).
Proof.
  intros Hs Hne. unfold certStep, Tls.bind, Tls.read. rewrite Hs.
  cbn [Tls.deref Tls.ret]. rewrite Tls_request_run. cbn [Tls.gateway Tls.events].
  destruct (Tls.Certificates_Get certClient host (Tls.gateway w)) as [[[kc r] [e|]] g1];
    [|now destruct Hne].
  cbn [fst snd]. rewrite Tls_request_run. cbn [Tls.gateway Tls.events Tls.ret].
  eexists. rewrite <- !app_assoc. reflexivity.
Qed.

Lemma certStep_in_sync ingressTLS namespace host secret kc r (w : Tls.World K) :
  coreClient namespace (Tls.SecretName ingressTLS) = (Some secret, None) ->
  Tls.Certificates_Get certClient host (Tls.gateway w) = ((Some kc, r, None), Tls.gateway w) ->
  sameUpToNewlines (Tls.Certificate.Cert kc) (secretCert secret) ->
  sameUpToNewlines (Tls.Certificate.Key kc) (secretKey secret) ->
  certStep certClient coreClient ingressTLS namespace host w
  = (Done tt,
     Tls.mkWorld (Tls.gateway w)
       (Tls.events w ++ [Tls.SecretGet namespace (Tls.SecretName ingressTLS);
                         Tls.CertGet host])).
Proof.
  intros Hs Hg Sc Sk. unfold certStep, Tls.bind, Tls.read. rewrite Hs.
  cbn [Tls.deref Tls.ret]. rewrite Tls_request_run. cbn [Tls.gateway Tls.events].
  rewrite Hg. cbn [fst snd Tls.deref Tls.ret]. fold (secretCert secret) (secretKey secret).
  rewrite (Trim_sameUpToNewlines _ _ Sc), (Trim_sameUpToNewlines _ _ Sk), !String.eqb_refl.
  cbn [negb orb Tls.ret]. rewrite <- !app_assoc. reflexivity.
Qed.

Lemma certStep_stale ingressTLS namespace host secret kc r (w : Tls.World K) :
  coreClient namespace (Tls.SecretName ingressTLS) = (Some secret, None) ->
  (Tls.Certificates_Get certClient host (Tls.gateway w)).1 = (Some kc, r, None) ->
  stale kc secret ->
  exists g',
    certStep certClient coreClient ingressTLS namespace host w
    = (Done tt,
       Tls.mkWorld g'
         (Tls.events w
          ++ [Tls.SecretGet namespace (Tls.SecretName ingressTLS);
              Tls.CertGet host;
              Tls.CertPatch (Tls.CertificateRequest.mk (secretCert secret) (secretKey secret)
                               "")
                (Tls.Certificate.ID kc)])).
Proof.
  intros Hs Hg St. unfold certStep, Tls.bind, Tls.read. rewrite Hs.
  cbn [Tls.deref Tls.ret]. rewrite Tls_request_run. cbn [Tls.gateway Tls.events].
  rewrite Hg. cbn [fst snd Tls.deref Tls.ret]. fold (secretCert secret) (secretKey secret).
  assert (D : negb (String.eqb (Tls.Trim (Tls.Certificate.Cert kc) Tls.trimSet)
                      (Tls.Trim (secretCert secret) Tls.trimSet))
              || negb (String.eqb (Tls.Trim (Tls.Certificate.Key kc) Tls.trimSet)
                         (Tls.Trim (secretKey secret) Tls.trimSet)) = true).
  { apply orb_true_iff. destruct St as [N | N]; [left | right];
      apply negb_true_iff, String.eqb_neq; exact N. }
  rewrite D. rewrite Tls_request_run. cbn [Tls.gateway Tls.events Tls.ret].
  eexists. rewrite <- !app_assoc. reflexivity.
Qed.

(** One host under the contract of the clients: no panic; the secret fetch,
    then requests to the certificate end point only. *)
Lemma certStep_shape ingressTLS namespace host (w : Tls.World K) :
  certContract certClient coreClient ->
  exists w' l,
    certStep certClient coreClient ingressTLS namespace host w = (Done tt, w')
    /\ Tls.events w'
       = Tls.events w ++ Tls.SecretGet namespace (Tls.SecretName ingressTLS) :: l
    /\ forallb isCertCall l = true.
Proof.
  intros [Cs Cg]. unfold certStep, Tls.bind, Tls.read.
  pose proof (Cs namespace (Tls.SecretName ingressTLS)) as A.
  destruct (coreClient namespace (Tls.SecretName ingressTLS)) as [o [e|]].
  - do 2 eexists. split; [reflexivity|]. cbn [Tls.events]. split; reflexivity.
  - destruct o as [secret|]; [|contradiction].
    cbn [Tls.deref Tls.ret]. rewrite Tls_request_run. cbn [Tls.gateway Tls.events].
    pose proof (Cg host (Tls.gateway w)) as B.
    destruct (Tls.Certificates_Get certClient host (Tls.gateway w)) as [[[kc r] [e|]] g1];
      cbn [fst snd] in *.
    + rewrite Tls_request_run. cbn [Tls.gateway Tls.events Tls.ret].
      do 2 eexists. split; [reflexivity|]. cbn [Tls.events]. rewrite <- !app_assoc.
      split; reflexivity.
    + destruct kc as [kc|]; [|contradiction]. cbn [Tls.deref Tls.ret].
      match goal with |- context [if ?b then _ else _] => destruct b end.
      * rewrite Tls_request_run. cbn [Tls.gateway Tls.events Tls.ret].
        do 2 eexists. split; [reflexivity|]. cbn [Tls.events]. rewrite <- !app_assoc.
        split; reflexivity.
      * cbn [Tls.ret]. do 2 eexists. split; [reflexivity|]. cbn [Tls.events].
        rewrite <- !app_assoc. split; reflexivity.
Qed.

End Certificates.

(** X14. Leading and trailing newlines do not count.  If the secret is
    there and the gateway holds, for every host of the TLS entry, a
    certificate whose [cert] and [key] differ from the secret's [tls.crt]
    and [tls.key] at most in newlines at either end, then
    [reconcileCertificate] returns [nil], fetches the secret and the
    certificate once per host, and sends no write: the gateway is left as it
    was. *)
Theorem reconcileCertificate_tolerates_newlines {K : Type} (certClient : Tls.CertClient K)
    (coreClient : Tls.Secrets) ingressTLS namespace secret
    (stored : string -> Tls.Certificate.t) (w : Tls.World K) :
  coreClient namespace (Tls.SecretName ingressTLS) = (Some secret, None) ->
  (forall host g, In host (Tls.Hosts ingressTLS) ->
     exists r, Tls.Certificates_Get certClient host g = ((Some (stored host), r, None), g)) ->
  (forall host, In host (Tls.Hosts ingressTLS) ->
     sameUpToNewlines (Tls.Certificate.Cert (stored host)) (secretCert secret)
     /\ sameUpToNewlines (Tls.Certificate.Key (stored host)) (secretKey secret)) ->
  Tls.reconcileCertificate certClient coreClient ingressTLS namespace w
  = (Done None,
     Tls.mkWorld (Tls.gateway w)
       (Tls.events w
        ++ flat_map (fun host => [Tls.SecretGet namespace (Tls.SecretName ingressTLS);
                                  Tls.CertGet host]) (Tls.Hosts ingressTLS))).
Proof.
  intros Hs Hg Hsame. rewrite reconcileCertificate_loop.
  erewrite Tls_bind_done; [reflexivity|]. unfold certLoop.
  revert Hg Hsame. generalize (Tls.Hosts ingressTLS). intros hosts. revert w.
  induction hosts as [|host hosts IH]; intros w Hg Hsame.
  - cbn. rewrite app_nil_r. now destruct w.
  - destruct (Hg host (Tls.gateway w) (or_introl eq_refl)) as [r Hr].
    destruct (Hsame host (or_introl eq_refl)) as [Sc Sk].
    rewrite (Tls_forEach_cons _ _ _ _ _
               (certStep_in_sync certClient coreClient ingressTLS namespace host secret
                  (stored host) r w Hs Hr Sc Sk)).
    rewrite IH.
    + cbn [Tls.gateway Tls.events flat_map]. rewrite <- !app_assoc. reflexivity.
    + intros h g Hh. apply Hg. now right.
    + intros h Hh. apply Hsame. now right.
Qed.

Lemma reconcileCertificate_tolerates_newlines_witness :
  let padded := Tls.Certificate.mk "c-1" (newlines 1 +:+ "CERT" +:+ newlines 2) "KEY" in
  Tls.reconcileCertificate (StubCerts.holding padded) (StubCerts.secrets shopSecret)
    shopTLS "prod" (Tls.mkWorld tt [])
  = (Done None,
     Tls.mkWorld tt
       [Tls.SecretGet "prod" "shop-tls"; Tls.CertGet "shop.example.com";
        Tls.SecretGet "prod" "shop-tls"; Tls.CertGet "www.example.com"]).
Proof.
  apply (reconcileCertificate_tolerates_newlines
           (StubCerts.holding
              (Tls.Certificate.mk "c-1" (newlines 1 +:+ "CERT" +:+ newlines 2) "KEY"))
           (StubCerts.secrets shopSecret) shopTLS "prod" shopSecret
           (fun _ => Tls.Certificate.mk "c-1" (newlines 1 +:+ "CERT" +:+ newlines 2) "KEY")
           (Tls.mkWorld tt [])).
  - reflexivity.
  - intros host g _. eexists. reflexivity.
  - intros host _. split.
    + exists "CERT", 1%nat, 2%nat, 0%nat, 0%nat. split; reflexivity.
    + exists "KEY", 0%nat, 0%nat, 0%nat, 0%nat. split; reflexivity.
Defined.

(** X15. Without the secret nothing is done, and nothing is reported.  If
    fetching the secret of the TLS entry fails, [reconcileCertificate] asks
    for it once per host all the same, sends nothing to the gateway, and
    returns [nil]. *)
Theorem reconcileCertificate_secret_unavailable {K : Type} (certClient : Tls.CertClient K)
    (coreClient : Tls.Secrets) ingressTLS namespace o e (w : Tls.World K) :
  coreClient namespace (Tls.SecretName ingressTLS) = (o, Some e) ->
  Tls.reconcileCertificate certClient coreClient ingressTLS namespace w
  = (Done None,
     Tls.mkWorld (Tls.gateway w)
       (Tls.events w
        ++ map (fun _ => Tls.SecretGet namespace (Tls.SecretName ingressTLS))
             (Tls.Hosts ingressTLS))).
Proof.
  intros Hs. rewrite reconcileCertificate_loop.
  erewrite Tls_bind_done; [reflexivity|]. unfold certLoop.
  generalize (Tls.Hosts ingressTLS). intros hosts. revert w.
  induction hosts as [|host hosts IH]; intros w.
  - cbn. rewrite app_nil_r. now destruct w.
  - rewrite (Tls_forEach_cons _ _ _ _ _
               (certStep_no_secret certClient coreClient ingressTLS namespace host o e w Hs)).
    rewrite IH. cbn [Tls.gateway Tls.events map]. rewrite <- !app_assoc. reflexivity.
Qed.

Lemma reconcileCertificate_secret_unavailable_witness :
  Tls.reconcileCertificate (StubCerts.absent (K := unit)) StubCerts.noSecrets shopTLS "prod"
    (Tls.mkWorld tt [])
  = (Done None,
     Tls.mkWorld tt [Tls.SecretGet "prod" "shop-tls"; Tls.SecretGet "prod" "shop-tls"]).
Proof.
  apply (reconcileCertificate_secret_unavailable (StubCerts.absent (K := unit))
           StubCerts.noSecrets shopTLS "prod" None (ErrorNew "secrets not found")
           (Tls.mkWorld tt [])).
  reflexivity.
Defined.

(** X16. Any failure of the certificate GET is taken for "no certificate".
    If the secret is there and the gateway answers the certificate GET of
    every host of the TLS entry with an error, of whatever kind, then for
    each host in turn [reconcileCertificate] fetches the secret, sends the
    GET, and POSTs a certificate made of [tls.crt] and [tls.key] of the
    secret with the host as its SNI.  It returns [nil] whether or not the
    POSTs succeed. *)
Theorem reconcileCertificate_creates {K : Type} (certClient : Tls.CertClient K)
    (coreClient : Tls.Secrets) ingressTLS namespace secret (w : Tls.World K) :
  coreClient namespace (Tls.SecretName ingressTLS) = (Some secret, None) ->
  (forall host g, In host (Tls.Hosts ingressTLS) ->
     (Tls.Certificates_Get certClient host g).1.2 <> None) ->
  exists g',
    Tls.reconcileCertificate certClient coreClient ingressTLS namespace w
    = (Done None,
       Tls.mkWorld g'
         (Tls.events w
          ++ flat_map (fun host =>
                         [Tls.SecretGet namespace (Tls.SecretName ingressTLS);
                          Tls.CertGet host;
                          Tls.CertPost (Tls.CertificateRequest.mk (secretCert secret)
                                          (secretKey secret) host)])
               (Tls.Hosts ingressTLS))).
Proof.
  intros Hs Hg. rewrite reconcileCertificate_loop.
  assert (L : exists g',
            certLoop certClient coreClient ingressTLS namespace (Tls.Hosts ingressTLS) w
            = (Done tt,
               Tls.mkWorld g'
                 (Tls.events w
                  ++ flat_map (fun host =>
                                 [Tls.SecretGet namespace (Tls.SecretName ingressTLS);
                                  Tls.CertGet host;
                                  Tls.CertPost (Tls.CertificateRequest.mk (secretCert secret)
                                                  (secretKey secret) host)])
                       (Tls.Hosts ingressTLS)))).
  { unfold certLoop. revert Hg. generalize (Tls.Hosts ingressTLS). intros hosts. revert w.
    induction hosts as [|host hosts IH]; intros w Hg.
    - exists (Tls.gateway w). cbn. rewrite app_nil_r. now destruct w.
    - destruct (certStep_create certClient coreClient ingressTLS namespace host secret w Hs
                  (Hg host (Tls.gateway w) (or_introl eq_refl))) as [g1 E1].
      rewrite (Tls_forEach_cons _ _ _ _ _ E1).
      destruct (IH (Tls.mkWorld g1
                      (Tls.events w
                       ++ [Tls.SecretGet namespace (Tls.SecretName ingressTLS);
                           Tls.CertGet host;
                           Tls.CertPost (Tls.CertificateRequest.mk (secretCert secret)
                                           (secretKey secret) host)]))
                  (fun h g Hh => Hg h g (or_intror Hh))) as [g2 E2].
      exists g2. rewrite E2. cbn [Tls.events flat_map]. rewrite <- !app_assoc. reflexivity. }
  destruct L as [g' L]. exists g'. erewrite Tls_bind_done; [reflexivity | exact L].
Qed.

Lemma reconcileCertificate_creates_witness :
  exists g',
    Tls.reconcileCertificate (StubCerts.absent (K := unit)) (StubCerts.secrets shopSecret)
      shopTLS "prod" (Tls.mkWorld tt [])
    = (Done None,
       Tls.mkWorld g'
         (Tls.events (Tls.mkWorld tt [])
          ++ flat_map (fun host =>
                         [Tls.SecretGet "prod" (Tls.SecretName shopTLS);
                          Tls.CertGet host;
                          Tls.CertPost (Tls.CertificateRequest.mk (secretCert shopSecret)
                                          (secretKey shopSecret) host)])
               (Tls.Hosts shopTLS))).
Proof.
  apply (reconcileCertificate_creates (StubCerts.absent (K := unit))
           (StubCerts.secrets shopSecret) shopTLS "prod" shopSecret (Tls.mkWorld tt [])).
  - reflexivity.
  - intros host g _. simpl. discriminate.
Defined.

(** X17. A stale certificate is patched by its id, without SNI.  If the
    secret is there and the gateway holds, for every host of the TLS entry,
    a certificate whose [cert] or [key] differs from the secret's after the
    newlines at both ends are dropped, then for each host in turn
    [reconcileCertificate] fetches the secret, sends the GET, and PATCHes
    the certificate of the id that the GET returned with [tls.crt] and
    [tls.key] of the secret and an empty [snis].  It returns [nil] whether
    or not the PATCHes succeed. *)
Theorem reconcileCertificate_patches_stale {K : Type} (certClient : Tls.CertClient K)
    (coreClient : Tls.Secrets) ingressTLS namespace secret
    (stored : string -> Tls.Certificate.t) (w : Tls.World K) :
  coreClient namespace (Tls.SecretName ingressTLS) = (Some secret, None) ->
  (forall host g, In host (Tls.Hosts ingressTLS) ->
     exists r, (Tls.Certificates_Get certClient host g).1 = (Some (stored host), r, None)) ->
  (forall host, In host (Tls.Hosts ingressTLS) -> stale (stored host) secret) ->
  exists g',
    Tls.reconcileCertificate certClient coreClient ingressTLS namespace w
    = (Done None,
       Tls.mkWorld g'
         (Tls.events w
          ++ flat_map (fun host =>
                         [Tls.SecretGet namespace (Tls.SecretName ingressTLS);
                          Tls.CertGet host;
                          Tls.CertPatch (Tls.CertificateRequest.mk (secretCert secret)
                                           (secretKey secret) "")
                            (Tls.Certificate.ID (stored host))])
               (Tls.Hosts ingressTLS))).
Proof.
  intros Hs Hg Hst. rewrite reconcileCertificate_loop.
  assert (L : exists g',
            certLoop certClient coreClient ingressTLS namespace (Tls.Hosts ingressTLS) w
            = (Done tt,
               Tls.mkWorld g'
                 (Tls.events w
                  ++ flat_map (fun host =>
                                 [Tls.SecretGet namespace (Tls.SecretName ingressTLS);
                                  Tls.CertGet host;
                                  Tls.CertPatch (Tls.CertificateRequest.mk (secretCert secret)
                                                   (secretKey secret) "")
                                    (Tls.Certificate.ID (stored host))])
                       (Tls.Hosts ingressTLS)))).
  { unfold certLoop. revert Hg Hst. generalize (Tls.Hosts ingressTLS). intros hosts. revert w.
    induction hosts as [|host hosts IH]; intros w Hg Hst.
    - exists (Tls.gateway w). cbn. rewrite app_nil_r. now destruct w.
    - destruct (Hg host (Tls.gateway w) (or_introl eq_refl)) as [r Hr].
      destruct (certStep_stale certClient coreClient ingressTLS namespace host secret
                  (stored host) r w Hs Hr (Hst host (or_introl eq_refl))) as [g1 E1].
      rewrite (Tls_forEach_cons _ _ _ _ _ E1).
      destruct (IH (Tls.mkWorld g1
                      (Tls.events w
                       ++ [Tls.SecretGet namespace (Tls.SecretName ingressTLS);
                           Tls.CertGet host;
                           Tls.CertPatch (Tls.CertificateRequest.mk (secretCert secret)
                                            (secretKey secret) "")
                             (Tls.Certificate.ID (stored host))]))
                  (fun h g Hh => Hg h g (or_intror Hh))
                  (fun h Hh => Hst h (or_intror Hh))) as [g2 E2].
      exists g2. rewrite E2. cbn [Tls.events flat_map]. rewrite <- !app_assoc. reflexivity. }
  destruct L as [g' L]. exists g'. erewrite Tls_bind_done; [reflexivity | exact L].
Qed.

Lemma reconcileCertificate_patches_stale_witness :
  exists g',
    Tls.reconcileCertificate
      (StubCerts.holding (K := unit) (Tls.Certificate.mk "c-1" "OLD" "KEY"))
      (StubCerts.secrets shopSecret) shopTLS "prod" (Tls.mkWorld tt [])
    = (Done None,
       Tls.mkWorld g'
         (Tls.events (Tls.mkWorld tt [])
          ++ flat_map (fun host =>
                         [Tls.SecretGet "prod" (Tls.SecretName shopTLS);
                          Tls.CertGet host;
                          Tls.CertPatch (Tls.CertificateRequest.mk (secretCert shopSecret)
                                           (secretKey shopSecret) "")
                            (Tls.Certificate.ID (Tls.Certificate.mk "c-1" "OLD" "KEY"))])
               (Tls.Hosts shopTLS))).
Proof.
  apply (reconcileCertificate_patches_stale
           (StubCerts.holding (K := unit) (Tls.Certificate.mk "c-1" "OLD" "KEY"))
           (StubCerts.secrets shopSecret) shopTLS "prod" shopSecret
           (fun _ => Tls.Certificate.mk "c-1" "OLD" "KEY") (Tls.mkWorld tt [])).
  - reflexivity.
  - intros host g _. eexists. reflexivity.
  - intros host _. left. vm_compute. discriminate.
Defined.

Section CurrentDispatch.
Context {K : Type} (kongClient : Kong.Client K) (certClient : Tls.CertClient K)
  (coreClient : Tls.Secrets).

Lemma writesOnly_updateAPI api rule path namespace :
  Kong.Api.StripURI api <> None ->
  writesOnly (updateAPI kongClient api rule path namespace).
Proof.
  intros Hs. unfold updateAPI.
  repeat apply writesOnly_orReturn; try apply writesOnly_patchIf.
  destruct (Kong.Api.StripURI api) as [b|]; [|contradiction].
  intros w. unfold bind at 1. cbn [deref ret]. apply writesOnly_patchIf.
Qed.

(** A reconcile of the current edition under the contract: it does not
    panic, sends its GET and then only writes. *)
Lemma Composite_reconcileAPI_shape (w : World K) rule path namespace :
  answersFully kongClient ->
  exists res w' l,
    Composite.reconcileAPI kongClient rule path namespace w = (Done res, w')
    /\ calls w' = calls w
         ++ Kong.Get (Composite.getQualifiedAPIName (Host rule) (Path path) namespace) :: l
    /\ forallb isWrite l = true.
Proof.
  intros Hans. rewrite Composite_reconcileAPI_run. cbv zeta.
  set (apiName := Composite.getQualifiedAPIName (Host rule) (Path path) namespace).
  pose proof (Hans apiName (gateway w)) as A.
  destruct (Kong.Apis_Get kongClient apiName (gateway w)) as [[[api resp] err] g].
  cbn [fst snd] in *.
  set (w0 := mkWorld g (calls w ++ [Kong.Get apiName])).
  assert (Cons : forall l, calls w0 ++ l = calls w ++ Kong.Get apiName :: l).
  { intros l. subst w0. cbn. now rewrite <- app_assoc. }
  assert (Fail : forall e : error, exists res w' l,
            ret (K := K) (Some e) w0 = (Done res, w')
            /\ calls w' = calls w ++ Kong.Get apiName :: l /\ forallb isWrite l = true).
  { intros e. exists (Some e), w0, []. rewrite <- Cons, app_nil_r. repeat split. }
  unfold afterGet. fold apiName.
  destruct resp as [r|].
  - destruct (Kong.StatusCode r =? Kong.StatusNotFound)%Z.
    + rewrite createAPI_run. cbv zeta. do 3 eexists. split; [reflexivity|].
      cbn [calls]. rewrite Cons. split; reflexivity.
    + destruct err as [e|]; [apply Fail|].
      destruct api as [a|]; [|contradiction].
      destruct (writesOnly_updateAPI a rule path namespace A w0) as (res & w' & l & E1 & E2 & E3).
      exists res, w', l. rewrite <- Cons. repeat split; assumption.
  - destruct err as [e|]; [apply Fail|]. destruct api; contradiction.
Qed.

Lemma filter_isSecretGet_certs l :
  forallb isCertCall l = true -> List.filter isSecretGet l = [].
Proof.
  induction l as [|c l IH]; [reflexivity|]. cbn [forallb List.filter].
  intros H. apply andb_true_iff in H. destruct H as [Hc Hl].
  destruct c; try discriminate; cbn; now apply IH.
Qed.

Lemma forallb_isSync_certs l : forallb isCertCall l = true -> forallb isSync l = true.
Proof.
  induction l as [|c l IH]; [reflexivity|]. cbn [forallb].
  intros H. apply andb_true_iff in H. destruct H as [Hc Hl].
  unfold isSync at 1. now rewrite Hc, orb_true_r, IH.
Qed.

(** The API reconcile as a step of the handler. *)
Lemma Tls_api_reconcile (w : Tls.World K) rule path namespace :
  answersFully kongClient ->
  exists res w' ws,
    Tls.api (Composite.reconcileAPI kongClient rule path namespace) w = (Done res, w')
    /\ Tls.events w'
       = Tls.events w
         ++ map Tls.Api
              (Kong.Get (Composite.getQualifiedAPIName (Host rule) (Path path) namespace) :: ws)
    /\ forallb isWrite ws = true.
Proof.
  intros Hans. unfold Tls.api.
  destruct (Composite_reconcileAPI_shape (mkWorld (Tls.gateway w) []) rule path namespace Hans)
    as (res & w1 & l & -> & E & F).
  do 2 eexists. exists l. split; [reflexivity|]. cbn [Tls.events]. rewrite E.
  split; [reflexivity | exact F].
Qed.

(** One certificate sync under the contract, and the loop over the TLS
    entries. *)
Lemma certLoop_shape ingressTLS namespace :
  certContract certClient coreClient ->
  forall hosts (w : Tls.World K),
    exists w' l,
      certLoop certClient coreClient ingressTLS namespace hosts w = (Done tt, w')
      /\ Tls.events w' = Tls.events w ++ l
      /\ forallb isSync l = true
      /\ List.filter isSecretGet l
         = map (fun _ => Tls.SecretGet namespace (Tls.SecretName ingressTLS)) hosts.
Proof.
  intros Hc. unfold certLoop. induction hosts as [|host hosts IH]; intros w.
  - exists w, []. cbn. rewrite app_nil_r. repeat split.
  - destruct (certStep_shape certClient coreClient ingressTLS namespace host w Hc)
      as (w1 & l1 & E1 & V1 & F1).
    rewrite (Tls_forEach_cons _ _ _ _ _ E1).
    destruct (IH w1) as (w2 & l2 & E2 & V2 & A2 & S2).
    exists w2, (Tls.SecretGet namespace (Tls.SecretName ingressTLS) :: l1 ++ l2).
    split; [exact E2|]. split; [rewrite V2, V1, <- app_assoc; reflexivity|].
    cbn [List.filter isSecretGet map forallb]. split.
    + rewrite forallb_app, (forallb_isSync_certs l1 F1), A2. reflexivity.
    + rewrite List.filter_app, (filter_isSecretGet_certs l1 F1), S2. reflexivity.
Qed.

Lemma tlsLoop_shape namespace :
  certContract certClient coreClient ->
  forall tls (w : Tls.World K),
    exists w' l,
      Tls.forEach tls (fun ingressTLS =>
        Tls.bind (Tls.reconcileCertificate certClient coreClient ingressTLS namespace)
          (fun _ => Tls.ret tt)) w = (Done tt, w')
      /\ Tls.events w' = Tls.events w ++ l
      /\ forallb isSync l = true
      /\ List.filter isSecretGet l = secretFetches namespace tls.
Proof.
  intros Hc. induction tls as [|t tls IH]; intros w.
  - exists w, []. cbn. rewrite app_nil_r. repeat split.
  - destruct (certLoop_shape t namespace Hc (Tls.Hosts t) w) as (w1 & l1 & E1 & V1 & A1 & S1).
    assert (E : Tls.bind (Tls.reconcileCertificate certClient coreClient t namespace)
                  (fun _ => Tls.ret tt) w = (Done tt, w1)).
    { unfold Tls.bind at 1. rewrite reconcileCertificate_loop.
      erewrite Tls_bind_done; [|exact E1]. reflexivity. }
    cbn [Tls.forEach]. erewrite Tls_bind_done; [|exact E].
    destruct (IH w1) as (w2 & l2 & E2 & V2 & A2 & S2).
    exists w2, (l1 ++ l2). split; [exact E2|].
    split; [rewrite V2, V1, <- app_assoc; reflexivity|].
    rewrite forallb_app, List.filter_app, A1, A2, S1, S2. split; reflexivity.
Qed.

Lemma Tls_paths_loop rule namespace tls :
  answersFully kongClient -> certContract certClient coreClient ->
  forall paths (w : Tls.World K),
    exists w' blocks,
      Tls.forEach paths (fun ingressPath =>
        Tls.bind (Tls.api (Composite.reconcileAPI kongClient rule ingressPath namespace))
          (fun _ =>
        Tls.forEach tls (fun ingressTLS =>
          Tls.bind (Tls.reconcileCertificate certClient coreClient ingressTLS namespace)
            (fun _ => Tls.ret tt)))) w = (Done tt, w')
      /\ Tls.events w' = Tls.events w ++ flat_map blockEvents blocks
      /\ Forall2 (pairBlock namespace tls) (map (pair rule) paths) blocks.
Proof.
  intros Ha Hc. induction paths as [|p paths IH]; intros w.
  - exists w, []. cbn. rewrite app_nil_r. repeat split. constructor.
  - destruct (Tls_api_reconcile w rule p namespace Ha) as (res & w1 & ws & E1 & V1 & F1).
    destruct (tlsLoop_shape namespace Hc tls w1) as (w2 & l2 & E2 & V2 & A2 & S2).
    assert (E : Tls.bind (Tls.api (Composite.reconcileAPI kongClient rule p namespace))
                  (fun _ =>
                     Tls.forEach tls (fun ingressTLS =>
                       Tls.bind (Tls.reconcileCertificate certClient coreClient ingressTLS
                                   namespace)
                         (fun _ => Tls.ret tt))) w = (Done tt, w2)).
    { erewrite Tls_bind_done; [|exact E1]. exact E2. }
    cbn [Tls.forEach]. erewrite Tls_bind_done; [|exact E].
    destruct (IH w2) as (w3 & blocks & E3 & V3 & B3).
    exists w3,
      ((Kong.Get (Composite.getQualifiedAPIName (Host rule) (Path p) namespace) :: ws, l2)
       :: blocks).
    split; [exact E3|]. split.
    + rewrite V3, V2, V1. cbn [flat_map]. unfold blockEvents. cbn [fst snd].
      rewrite <- !app_assoc. reflexivity.
    + cbn [map]. constructor; [|exact B3].
      split; [exists ws; split; [reflexivity | exact F1]|]. split; assumption.
Qed.

Lemma Tls_rules_loop namespace tls :
  answersFully kongClient -> certContract certClient coreClient ->
  forall rules (w : Tls.World K),
    (forall rule, In rule rules -> HTTP rule <> None) ->
    exists w' blocks,
      Tls.forEach rules (fun ingressRule =>
        Tls.bind (Tls.deref (HTTP ingressRule)) (fun http =>
        Tls.forEach (Paths http) (fun ingressPath =>
          Tls.bind (Tls.api (Composite.reconcileAPI kongClient ingressRule ingressPath
                               namespace))
            (fun _ =>
          Tls.forEach tls (fun ingressTLS =>
            Tls.bind (Tls.reconcileCertificate certClient coreClient ingressTLS namespace)
              (fun _ => Tls.ret tt)))))) w = (Done tt, w')
      /\ Tls.events w' = Tls.events w ++ flat_map blockEvents blocks
      /\ Forall2 (pairBlock namespace tls)
           (flat_map (fun rule => match HTTP rule with
                                  | Some http => map (pair rule) (Paths http)
                                  | None => []
                                  end) rules)
           blocks.
Proof.
  intros Ha Hc. induction rules as [|r rules IH]; intros w Hall.
  - exists w, []. cbn. rewrite app_nil_r. repeat split. constructor.
  - destruct (HTTP r) as [http|] eqn:Hh; [|destruct (Hall r (or_introl eq_refl) Hh)].
    destruct (Tls_paths_loop r namespace tls Ha Hc (Paths http) w)
      as (w1 & b1 & E1 & V1 & B1).
    assert (E : Tls.bind (Tls.deref (HTTP r)) (fun http =>
                  Tls.forEach (Paths http) (fun ingressPath =>
                    Tls.bind (Tls.api (Composite.reconcileAPI kongClient r ingressPath
                                         namespace))
                      (fun _ =>
                    Tls.forEach tls (fun ingressTLS =>
                      Tls.bind (Tls.reconcileCertificate certClient coreClient ingressTLS
                                  namespace)
                        (fun _ => Tls.ret tt))))) w = (Done tt, w1)).
    { rewrite Hh. unfold Tls.bind at 1. cbn [Tls.deref Tls.ret]. exact E1. }
    cbn [Tls.forEach]. erewrite Tls_bind_done; [|exact E].
    destruct (IH w1 (fun r' Hr' => Hall r' (or_intror Hr'))) as (w2 & b2 & E2 & V2 & B2).
    exists w2, (b1 ++ b2). split; [exact E2|]. split.
    + rewrite V2, V1, flat_map_app, <- app_assoc. reflexivity.
    + cbn [flat_map]. rewrite Hh. now apply Forall2_app.
Qed.

End CurrentDispatch.

(** X18. The current edition syncs the certificates after every pair.
    For clients that keep their contracts and an eligible ingress without
    default backend whose rules all have an [http] block, [ingressChanged]
    of the current edition does not panic, and what it logs is one block
    per (rule, path) pair, in the order of the pairs.  A block starts with
    the GET of the pair's qualified name, followed by POSTs and PATCHes
    only; then, before the GET of the next pair, come the events of a
    certificate sync of every TLS entry, which are secret fetches and
    certificate requests only and hold one fetch of the entry's secret per
    host of the entry.  An ingress without a path logs nothing, so its
    certificates are never synced. *)
Theorem ingressChanged_syncs_certificates_per_pair {K : Type} (kongClient : Kong.Client K)
    (certClient : Tls.CertClient K) (coreClient : Tls.Secrets) (w : Tls.World K)
    (ingress : Ingress) (tls : list Tls.IngressTLS) :
  answersFully kongClient ->
  certContract certClient coreClient ->
  Composite.ingressIsFairGame ingress = true ->
  SpecBackend (Spec ingress) = None ->
  (forall rule, In rule (Rules (Spec ingress)) -> HTTP rule <> None) ->
  exists w' blocks,
    Tls.ingressChanged kongClient certClient coreClient ingress tls w = (Done tt, w')
    /\ Tls.events w' = Tls.events w ++ flat_map blockEvents blocks
    /\ Forall2 (pairBlock (Namespace (Meta ingress)) tls) (pairs ingress) blocks.
Proof.
  intros Ha Hc Hf Hb Hall. unfold Tls.ingressChanged.
  rewrite Hf. cbn [negb]. unfold Composite.validateIngressSupported. rewrite Hb.
  apply (Tls_rules_loop kongClient certClient coreClient (Namespace (Meta ingress)) tls Ha Hc
           (Rules (Spec ingress)) w Hall).
Qed.

Lemma ingressChanged_syncs_certificates_per_pair_witness :
  exists w' blocks,
    Tls.ingressChanged (StubKong.client shopApiRecord None) StubCerts.absent
      (StubCerts.secrets shopSecret) shopIngress [shopTLS] (Tls.mkWorld tt [])
    = (Done tt, w')
    /\ Tls.events w' = Tls.events (Tls.mkWorld tt []) ++ flat_map blockEvents blocks
    /\ Forall2 (pairBlock (Namespace (Meta shopIngress)) [shopTLS]) (pairs shopIngress) blocks.
Proof.
  apply (ingressChanged_syncs_certificates_per_pair (StubKong.client shopApiRecord None)
           StubCerts.absent (StubCerts.secrets shopSecret) (Tls.mkWorld tt []) shopIngress
           [shopTLS]).
  - intros name g. simpl. discriminate.
  - split; [intros namespace name; exact I | intros host g; exact I].
  - reflexivity.
  - reflexivity.
  - intros rule [<- | []]. simpl. discriminate.
Defined.

(** ** The simple form on the reference gateway *)

Section SimpleLife.

Lemma MemKong_filter_app_absent name g a :
  MemKong.lookup name g = None -> Kong.Api.Name a = name ->
  List.filter (fun b => negb (MemKong.hasName name b)) (g ++ [a]) = g.
Proof.
  intros Hn Ha. rewrite List.filter_app, (MemKong_filter_absent name g Hn).
  cbn [List.filter]. unfold MemKong.hasName. rewrite Ha, String.eqb_refl. cbn.
  apply app_nil_r.
Qed.

(** What a supported ingress of the simple form looks like. *)
Lemma supported_simple_shape ingress :
  supported_simple ingress ->
  exists rule path,
    Rules (Spec ingress) = [rule]
    /\ HTTP rule = Some (mkHTTPIngressRuleValue [path])
    /\ Simple.validateIngressSupported ingress = Done None
    /\ Simple.getUpstreamURL ingress = Done (upstreamURL_of path (Namespace (Meta ingress)))
    /\ Simple.apiRequestFromIngress ingress
       = Done (Kong.ApiRequest.mk "" (Simple.getQualifiedName ingress)
                 (upstreamURL_of path (Namespace (Meta ingress))) (Host rule) "" true None).
Proof.
  intros (Hb & rule & path & HR & HH & HP). exists rule, path.
  split; [exact HR|]. split; [exact HH|].
  unfold Simple.validateIngressSupported, Simple.apiRequestFromIngress,
    Simple.getUpstreamURL, Simple.getIngressBackend.
  rewrite Hb, HR. cbn. rewrite HH. cbn. rewrite HP. cbn. repeat split.
Qed.

End SimpleLife.

(** X19. Life cycle of an ingress in simple form.  On the reference
    gateway, for a supported ingress whose qualified name is not taken, the
    change handler sends the GET and one POST and appends a record with the
    qualified name, the upstream URL of the one path and the host of the
    one rule; the delete handler then sends the GET and the DELETE, and the
    store is exactly what it was before. *)
Theorem Simple_ingress_lifecycle (ingress : Ingress) (g : list Kong.Api.t) :
  supported_simple ingress ->
  MemKong.lookup (Simple.getQualifiedName ingress) g = None ->
  exists rule path,
    Rules (Spec ingress) = [rule]
    /\ HTTP rule = Some (mkHTTPIngressRuleValue [path])
    /\ let name := Simple.getQualifiedName ingress in
       let body := Kong.ApiRequest.mk "" name
                     (upstreamURL_of path (Namespace (Meta ingress))) (Host rule) "" true
                     None in
       Simple.ingressChanged MemKong.client ingress (MemKong.start g)
       = (Done tt, mkWorld (g ++ [MemKong.create body]) [Kong.Get name; Kong.Post body])
       /\ Simple.ingressDeleted MemKong.client ingress
            (MemKong.start (g ++ [MemKong.create body]))
          = (Done tt, mkWorld g [Kong.Get name; Kong.Delete name]).
Proof.
  intros S Hn. destruct (supported_simple_shape ingress S) as (rule & path & HR & HH & V & U & B).
  exists rule, path. split; [exact HR|]. split; [exact HH|]. cbv zeta. split.
  - unfold Simple.ingressChanged, bind at 1. rewrite V. cbn [lift ret].
    unfold bind at 1. unfold Simple.reconcileAPI. cbv zeta. unfold bind at 1.
    rewrite request_run.
    cbn [MemKong.client Kong.Apis_Get MemKong.start gateway calls]. rewrite Hn.
    cbn -[MemKong.lookup Simple.getQualifiedName upstreamURL_of Simple.apiRequestFromIngress
          Simple.getUpstreamURL].
    unfold bind at 1. rewrite B.
    cbn -[MemKong.lookup Simple.getQualifiedName upstreamURL_of].
    unfold bind at 1. rewrite request_run.
    cbn [MemKong.client Kong.Apis_Post gateway calls Kong.ApiRequest.Name]. rewrite Hn.
    reflexivity.
  - set (name := Simple.getQualifiedName ingress) in *.
    set (rec := MemKong.create _).
    assert (L : MemKong.lookup name (g ++ [rec]) = Some rec)
      by (now apply MemKong_lookup_app).
    unfold Simple.ingressDeleted, bind at 1. fold name.
    rewrite Simple_deleteKongAPI_same, deleteKongAPI_run. cbv zeta.
    cbn [MemKong.client Kong.Apis_Get Kong.Apis_Delete MemKong.start gateway calls].
    rewrite L. cbn [fst snd]. rewrite L. cbn [fst snd wrapDelete ret app].
    rewrite (MemKong_filter_app_absent name g rec Hn eq_refl). reflexivity.
Qed.

Lemma Simple_ingress_lifecycle_witness :
  exists rule path,
    Rules (Spec (sampleIngress "bestservice" "prod")) = [rule]
    /\ HTTP rule = Some (mkHTTPIngressRuleValue [path])
    /\ let name := Simple.getQualifiedName (sampleIngress "bestservice" "prod") in
       let body := Kong.ApiRequest.mk "" name
                     (upstreamURL_of path (Namespace (Meta (sampleIngress "bestservice" "prod"))))
                     (Host rule) "" true None in
       Simple.ingressChanged MemKong.client (sampleIngress "bestservice" "prod")
         (MemKong.start [shopApiRecord])
       = (Done tt,
          mkWorld ([shopApiRecord] ++ [MemKong.create body]) [Kong.Get name; Kong.Post body])
       /\ Simple.ingressDeleted MemKong.client (sampleIngress "bestservice" "prod")
            (MemKong.start ([shopApiRecord] ++ [MemKong.create body]))
          = (Done tt, mkWorld [shopApiRecord] [Kong.Get name; Kong.Delete name]).
Proof.
  apply (Simple_ingress_lifecycle (sampleIngress "bestservice" "prod") [shopApiRecord]).
  - split; [reflexivity|]. do 2 eexists. repeat split.
  - reflexivity.
Defined.

Section SimpleConverge.

Lemma Simple_patchIf_same {K : Type} (kongClient : Kong.Client K) drift body apiName :
  Simple.patchIf kongClient drift body apiName
  = Composite.patchIf kongClient drift body apiName.
Proof. reflexivity. Qed.

(** The simple reconciler after its GET found [a]. *)
Lemma Simple_reconcileAPI_found ingress rule path g cs a :
  Rules (Spec ingress) = [rule] ->
  Simple.getUpstreamURL ingress = Done (upstreamURL_of path (Namespace (Meta ingress))) ->
  MemKong.lookup (Simple.getQualifiedName ingress) g = Some a ->
  Simple.reconcileAPI MemKong.client ingress (mkWorld g cs)
  = (Composite.patchIf MemKong.client
       (negb (String.eqb (Kong.Api.UpstreamURL a)
                (upstreamURL_of path (Namespace (Meta ingress)))))
       (Composite.patchUpstreamURL (Kong.Api.ID a)
          (upstreamURL_of path (Namespace (Meta ingress))))
       (Simple.getQualifiedName ingress) ;;;
     Composite.patchIf MemKong.client
       (Composite.hostsDrift (Kong.Api.Hosts a) (Host rule))
       (Composite.patchHosts (Kong.Api.ID a) (Host rule))
       (Simple.getQualifiedName ingress) ;;;
     Composite.patchIf MemKong.client (negb (Bool.eqb (Kong.Api.PreserveHost a) true))
       (Composite.patchPreserveHost (Kong.Api.ID a))
       (Simple.getQualifiedName ingress))
      (mkWorld g (cs ++ [Kong.Get (Simple.getQualifiedName ingress)])).
Proof.
  intros HR U L. unfold Simple.reconcileAPI. cbv zeta. unfold bind at 1.
  rewrite request_run. cbn [MemKong.client Kong.Apis_Get gateway calls]. rewrite L.
  cbn [fst snd]. unfold bind at 1. cbn [deref ret MemKong.answer].
  cbn [Kong.StatusCode Z.eqb Kong.StatusNotFound Pos.eqb].
  rewrite U, HR. unfold bind at 1. cbn [lift ret]. unfold bind at 1. cbn [deref ret].
  unfold orReturn. unfold bind at 3. cbn [index lift ret]. reflexivity.
Qed.

Lemma MemKong_Simple_update name g cs a host url apiName :
  MemKong.lookup name g = Some a ->
  host <> "" -> url <> "" ->
  exists g' cs' a',
    (Composite.patchIf MemKong.client (negb (String.eqb (Kong.Api.UpstreamURL a) url))
       (Composite.patchUpstreamURL (Kong.Api.ID a) url) apiName ;;;
     Composite.patchIf MemKong.client (Composite.hostsDrift (Kong.Api.Hosts a) host)
       (Composite.patchHosts (Kong.Api.ID a) host) apiName ;;;
     Composite.patchIf MemKong.client (negb (Bool.eqb (Kong.Api.PreserveHost a) true))
       (Composite.patchPreserveHost (Kong.Api.ID a)) apiName) (mkWorld g cs)
    = (Done None, mkWorld g' cs')
    /\ MemKong.lookup name g' = Some a'
    /\ Kong.Api.UpstreamURL a' = url
    /\ Kong.Api.Hosts a' = [host]
    /\ Kong.Api.PreserveHost a' = true.
Proof.
  intros Hl Hh Hu.
  set (d1 := negb (String.eqb (Kong.Api.UpstreamURL a) url)).
  set (d2 := Composite.hostsDrift (Kong.Api.Hosts a) host).
  set (d3 := negb (Bool.eqb (Kong.Api.PreserveHost a) true)).
  destruct (MemKong_patchIf name g cs a d1 (Composite.patchUpstreamURL (Kong.Api.ID a) url)
              apiName Hl eq_refl) as (g1 & cs1 & E1 & L1).
  destruct (MemKong_patchIf name g1 cs1 _ d2 (Composite.patchHosts (Kong.Api.ID a) host)
              apiName L1 (eq_sym (amend_if_ID _ _ _))) as (g2 & cs2 & E2 & L2).
  destruct (MemKong_patchIf name g2 cs2 _ d3 (Composite.patchPreserveHost (Kong.Api.ID a))
              apiName L2 (eq_sym (eq_trans (amend_if_ID _ _ _) (amend_if_ID _ _ _))))
    as (g3 & cs3 & E3 & L3).
  exists g3, cs3. eexists. split.
  { unfold orReturn, bind. rewrite E1, E2. exact E3. }
  split; [exact L3|].
  assert (Hh' : String.eqb host "" = false) by now apply String.eqb_neq.
  assert (Hu' : String.eqb url "" = false) by now apply String.eqb_neq.
  subst d1 d2 d3.
  destruct (String.eqb_spec (Kong.Api.UpstreamURL a) url) as [U|U];
  destruct (Composite.hostsDrift (Kong.Api.Hosts a) host) eqn:D2;
  destruct (Kong.Api.PreserveHost a) eqn:D3;
  cbn; rewrite ?Hh', ?Hu', ?D3;
  repeat split; try assumption; try reflexivity; try (now apply hostsDrift_false).
Qed.

End SimpleConverge.

(** X20. The simple form converges in one step.  On the reference gateway,
    for a supported ingress with a non-empty host, the change handler leaves
    a record under the qualified name with the upstream URL of the one
    path, hosts [[host]] and preserve-host set, whether the record was
    missing or present with any drift; the next change event of the same
    ingress sends its GET and nothing else. *)
Theorem Simple_ingressChanged_converges (ingress : Ingress) (rule : IngressRule)
    (path : HTTPIngressPath) (g : list Kong.Api.t) (cs : list Kong.Call) :
  SpecBackend (Spec ingress) = None ->
  Rules (Spec ingress) = [rule] ->
  HTTP rule = Some (mkHTTPIngressRuleValue [path]) ->
  Path path = "/" ->
  Host rule <> "" ->
  let name := Simple.getQualifiedName ingress in
  let first := Simple.ingressChanged MemKong.client ingress (mkWorld g cs) in
  first.1 = Done tt
  /\ (exists a,
        MemKong.lookup name (gateway first.2) = Some a
        /\ Kong.Api.UpstreamURL a = upstreamURL_of path (Namespace (Meta ingress))
        /\ Kong.Api.Hosts a = [Host rule]
        /\ Kong.Api.PreserveHost a = true)
  /\ Simple.ingressChanged MemKong.client ingress first.2
     = (Done tt, mkWorld (gateway first.2) (calls first.2 ++ [Kong.Get name])).
Proof.
  intros Hb HR HH HP Hh name first.
  assert (S : supported_simple ingress).
  { split; [exact Hb|]. exists rule, path. repeat split; assumption. }
  destruct (supported_simple_shape ingress S) as (rule' & path' & HR' & HH' & V & U & B).
  rewrite HR in HR'. injection HR' as <-. rewrite HH in HH'. injection HH' as <-.
  assert (Step : forall w, Simple.ingressChanged MemKong.client ingress w
                 = (let* _ := Simple.reconcileAPI MemKong.client ingress in ret tt) w).
  { intros w. unfold Simple.ingressChanged, bind at 1. rewrite V. reflexivity. }
  assert (Again : forall g' cs' a,
            MemKong.lookup name g' = Some a ->
            Kong.Api.UpstreamURL a = upstreamURL_of path (Namespace (Meta ingress)) ->
            Kong.Api.Hosts a = [Host rule] ->
            Kong.Api.PreserveHost a = true ->
            Simple.ingressChanged MemKong.client ingress (mkWorld g' cs')
            = (Done tt, mkWorld g' (cs' ++ [Kong.Get name]))).
  { intros g' cs' a L HU HHo HPh. rewrite Step. unfold bind.
    rewrite (Simple_reconcileAPI_converged MemKong.client (mkWorld g' cs') ingress rule
               (upstreamURL_of path (Namespace (Meta ingress))) a
               (Kong.mkResponse 200) g'); try assumption; try reflexivity.
    - now rewrite HR.
    - cbn [MemKong.client Kong.Apis_Get gateway]. fold name. now rewrite L.
    - discriminate. }
  assert (First : exists g' cs' a,
            Simple.ingressChanged MemKong.client ingress (mkWorld g cs)
            = (Done tt, mkWorld g' cs')
            /\ MemKong.lookup name g' = Some a
            /\ Kong.Api.UpstreamURL a = upstreamURL_of path (Namespace (Meta ingress))
            /\ Kong.Api.Hosts a = [Host rule]
            /\ Kong.Api.PreserveHost a = true).
  { rewrite Step. unfold bind at 1.
    destruct (MemKong.lookup name g) as [a|] eqn:L.
    - rewrite (Simple_reconcileAPI_found ingress rule path g cs a HR U L).
      destruct (MemKong_Simple_update name g (cs ++ [Kong.Get name]) a (Host rule)
                  (upstreamURL_of path (Namespace (Meta ingress))) name L Hh)
        as (g' & cs' & a' & E & L' & HU & HHo & HPh); [discriminate|].
      fold name. rewrite E. cbn [ret]. exists g', cs', a'. repeat split; assumption.
    - unfold Simple.reconcileAPI. cbv zeta. unfold bind at 1.
      rewrite request_run.
      cbn [MemKong.client Kong.Apis_Get gateway calls]. fold name. rewrite L.
      cbn -[MemKong.lookup Simple.getQualifiedName upstreamURL_of
            Simple.apiRequestFromIngress Simple.getUpstreamURL name].
      unfold bind at 1. rewrite B.
      cbn -[MemKong.lookup Simple.getQualifiedName upstreamURL_of name].
      unfold bind at 1. rewrite request_run.
      cbn [MemKong.client Kong.Apis_Post gateway calls Kong.ApiRequest.Name]. fold name.
      rewrite L. cbn [ret fst snd gateway calls].
      assert (Hh' : String.eqb (Host rule) "" = false) by now apply String.eqb_neq.
      set (rec := MemKong.create _).
      assert (L' : MemKong.lookup name (g ++ [rec]) = Some rec)
        by (now apply MemKong_lookup_app).
      do 2 eexists. exists rec. split; [reflexivity|]. split; [exact L'|].
      subst rec. cbn. unfold MemKong.listOf. rewrite Hh'. repeat split. }
  destruct First as (g' & cs' & a & E & L & HU & HHo & HPh).
  subst first. rewrite E. cbn [fst snd gateway calls].
  split; [reflexivity|]. split.
  - exists a. repeat split; assumption.
  - now apply Again with (a := a).
Qed.

Lemma Simple_ingressChanged_converges_witness :
  let ingress := sampleIngressWith "bestservice" "prod" "bestservice.somedomain"
                   "service-1v2" 32001 in
  let first := Simple.ingressChanged MemKong.client ingress (mkWorld [bestserviceRecord] []) in
  first.1 = Done tt
  /\ (exists a,
        MemKong.lookup (Simple.getQualifiedName ingress) (gateway first.2) = Some a
        /\ Kong.Api.UpstreamURL a
           = upstreamURL_of
               (mkHTTPIngressPath "/" (mkIngressBackend "service-1v2" (FromInt 32001)))
               (Namespace (Meta ingress))
        /\ Kong.Api.Hosts a
           = [Host (mkIngressRule "bestservice.somedomain"
                      (Some (mkHTTPIngressRuleValue
                         [mkHTTPIngressPath "/"
                            (mkIngressBackend "service-1v2" (FromInt 32001))])))]
        /\ Kong.Api.PreserveHost a = true)
  /\ Simple.ingressChanged MemKong.client ingress first.2
     = (Done tt,
        mkWorld (gateway first.2)
          (calls first.2 ++ [Kong.Get (Simple.getQualifiedName ingress)])).
Proof.
  apply (Simple_ingressChanged_converges
           (sampleIngressWith "bestservice" "prod" "bestservice.somedomain" "service-1v2" 32001)
           (mkIngressRule "bestservice.somedomain"
              (Some (mkHTTPIngressRuleValue
                 [mkHTTPIngressPath "/" (mkIngressBackend "service-1v2" (FromInt 32001))])))
           (mkHTTPIngressPath "/" (mkIngressBackend "service-1v2" (FromInt 32001)))
           [bestserviceRecord] []).
  - reflexivity.
  - reflexivity.
  - reflexivity.
  - reflexivity.
  - discriminate.
Defined.
